(** * Knowledge-base extractor: a shallow embedding of the pipeline's local logic

    The development follows the Python sources module by module:

    - [PyStr], [PyData]  the [str] methods, dictionaries and slices the code
                         relies on;
    - [ImageFilter]      [processors/image_filter.py];
    - [SectionParser]    the id generation of [processors/section_parser.py];
    - [Json], [JsonRepair]  [ClaudeClient.parse_json_response] of
                         [llm/client.py] and its helpers;
    - [KBGenerator]      the batch loop and the hierarchy reconstruction of
                         [llm/kb_generator.py];
    - [ImageClassifier]  the reconciliation loop of [llm/image_classifier.py];
    - [ClientCalls]      the retry loop of the API calls of [llm/client.py];
    - [Main]             the progress report, the retry on rate limits and
                         the loop over the folders of [main.py].

    Part I holds the definitions, Part II the lemmas and theorems.  In the
    two retry loops the waits are counted, not timed; the report is modelled
    without its files.

    Python strings are modelled as [string], one [ascii] per code point, so
    the model covers text whose code points are below 256.  Dictionaries read
    with [.get] become records of optional fields ([None] is a missing key).
    Where a dictionary is part of a reply of the language model and the code
    hands its values to a pydantic model, to a string method or to an
    addition (the classifications of the images; [id], [title] and [level]
    of the grouped sections), a key can also hold JSON [null]
    ([ImageFilter.field] has the three cases), and the exception this leads
    to is part of the model.  A value that is present and not [null] has the
    JSON type the prompt asks for.  Calls to the language model, [json.loads]
    and the HTML parser are inputs of the model, and so is the text of the
    exceptions that pydantic raises. *)

From Stdlib Require Import ZArith Ascii String List Lia Permutation.
From stdpp Require Import base list strings pretty gmap.

Local Open Scope Z_scope.

(* ===================================================================== *)
(** * Part I: definitions                                                 *)
(* ===================================================================== *)

(** ** Python's [str] *)

Module PyStr.

Definition DQ : ascii := "034"%char.
Definition BSLASH : ascii := "092"%char.

(** [str.isspace] on one code point; the regular expression class [\s] tests
    the same property. *)
Definition isspace (c : ascii) : bool :=
  let n := N_of_ascii c in
  ((9 <=? n) && (n <=? 13) || (28 <=? n) && (n <=? 32)
   || (n =? 133) || (n =? 160))%N.

(** [str.lower] on one code point: A..Z, and the capital letters of the
    Latin-1 block (all of 192..222 but the multiplication sign). *)
Definition lower_char (c : ascii) : ascii :=
  let n := N_of_ascii c in
  if ((65 <=? n) && (n <=? 90)
      || (192 <=? n) && (n <=? 222) && negb (n =? 215))%N
  then ascii_of_N (n + 32) else c.

Fixpoint lower (s : string) : string :=
  match s with
  | EmptyString => EmptyString
  | String c r => String (lower_char c) (lower r)
  end.

(** [s.startswith(p)] *)
Fixpoint startswith (p s : string) : bool :=
  match p, s with
  | EmptyString, _ => true
  | String a p', String b s' => Ascii.eqb a b && startswith p' s'
  | String _ _, EmptyString => false
  end.

(** [sub in s] *)
Fixpoint contains (sub s : string) : bool :=
  startswith sub s
  || match s with
     | EmptyString => false
     | String _ r => contains sub r
     end.

(** [s.endswith(suf)] *)
Fixpoint endswith (suf s : string) : bool :=
  String.eqb suf s
  || match s with
     | EmptyString => false
     | String _ r => endswith suf r
     end.

(** [c in s] for one character *)
Fixpoint has_char (c : ascii) (s : string) : bool :=
  match s with
  | EmptyString => false
  | String d r => Ascii.eqb c d || has_char c r
  end.

(** [s.lstrip(...)], [s.rstrip(...)], [s.strip(...)] for a class of characters *)
Fixpoint lstrip (P : ascii -> bool) (s : string) : string :=
  match s with
  | EmptyString => EmptyString
  | String c r => if P c then lstrip P r else s
  end.

Fixpoint rstrip (P : ascii -> bool) (s : string) : string :=
  match s with
  | EmptyString => EmptyString
  | String c r =>
      match rstrip P r with
      | EmptyString => if P c then EmptyString else String c EmptyString
      | r' => String c r'
      end
  end.

Definition strip (P : ascii -> bool) (s : string) : string :=
  lstrip P (rstrip P s).

(** [s[:n]] and [s[n:]] *)
Fixpoint take (n : nat) (s : string) : string :=
  match n, s with
  | S n', String c r => String c (take n' r)
  | _, _ => EmptyString
  end.

Fixpoint drop (n : nat) (s : string) : string :=
  match n, s with
  | S n', String _ r => drop n' r
  | _, _ => s
  end.

(** [len(s.split())]: the number of maximal runs of non-space characters;
    [inword] tells whether the previous character belonged to a run. *)
Fixpoint count_words (inword : bool) (s : string) : nat :=
  match s with
  | EmptyString => 0
  | String c r =>
      if isspace c then count_words false r
      else (if inword then 0 else 1)%nat + count_words true r
  end.

(** [s.split(sep)] for a one-character separator *)
Fixpoint split_on (sep : ascii) (s : string) : list string :=
  match s with
  | EmptyString => [EmptyString]
  | String c r =>
      if Ascii.eqb c sep then EmptyString :: split_on sep r
      else match split_on sep r with
           | h :: t => String c h :: t
           | [] => [String c EmptyString]
           end
  end.

(** [s.rfind(c)], with [None] for Python's [-1] *)
Fixpoint rfind (c : ascii) (s : string) : option nat :=
  match s with
  | EmptyString => None
  | String d r =>
      match rfind c r with
      | Some i => Some (S i)
      | None => if Ascii.eqb d c then Some 0%nat else None
      end
  end.

(** [c * n]: a character repeated; a negative count gives the empty string. *)
Definition repeat_char (c : ascii) (n : Z) : string :=
  Nat.iter (Z.to_nat n) (String c) EmptyString.

(** [bool(s)] *)
Definition truthy (s : string) : bool :=
  match s with EmptyString => false | _ => true end.

(** [str(n)] for an [int] *)
Definition str_of_int (n : Z) : string := pretty n.

(** [f"{n:03d}"]: sign, then zeros up to a total width of three. *)
Definition format_03d (n : Z) : string :=
  let digits := pretty (Z.abs n) in
  let sign := if n <? 0 then "-" else "" in
  let width := (String.length sign + String.length digits)%nat in
  sign +:+ repeat_char "0" (3 - Z.of_nat width) +:+ digits.

(** [all(P(c) for c in s)] *)
Fixpoint str_forall (P : ascii -> bool) (s : string) : bool :=
  match s with
  | EmptyString => true
  | String c r => P c && str_forall P r
  end.

End PyStr.

(** ** Python's [dict] and list slicing *)

Module PyData.

(** A [dict] with string keys, in insertion order: [d[k] = v] keeps the place
    of a key that is already there. *)
Definition dict (V : Type) : Type := list (string * V).

Fixpoint dict_get {V} (k : string) (d : dict V) : option V :=
  match d with
  | [] => None
  | (k', v) :: r => if String.eqb k k' then Some v else dict_get k r
  end.

Fixpoint dict_set {V} (k : string) (v : V) (d : dict V) : dict V :=
  match d with
  | [] => [(k, v)]
  | (k', v') :: r =>
      if String.eqb k k' then (k, v) :: r else (k', v') :: dict_set k v r
  end.

(** [[l[i:i + size] for i in range(0, len(l), size)]]; the loop runs at most
    [len(l)] times, which bounds [fuel]. *)
Fixpoint chunks_from {A} (fuel size : nat) (l : list A) : list (list A) :=
  match fuel, l with
  | S fuel', _ :: _ =>
      firstn size l :: chunks_from fuel' size (skipn size l)
  | _, _ => []
  end.

Definition chunks {A} (size : nat) (l : list A) : list (list A) :=
  chunks_from (length l) size l.

End PyData.

(** ** [processors/image_filter.py] *)

Module ImageFilter.
Import PyStr PyData.

(** A JSON field read both with [d.get(k)] and with [d.get(k, default)]:
    the key can be missing, hold [null], or hold a value. *)
Inductive field (A : Type) : Type :=
  | Missing
  | Null
  | Val (a : A).
Arguments Missing {A}.
Arguments Null {A}.
Arguments Val {A} a.

(** [d.get(k)] *)
Definition get {A} (f : field A) : option A :=
  match f with Val a => Some a | _ => None end.

(** [d.get(k, default)]: the default stands in for a missing key only; a key
    that holds [null] gives [None]. *)
Definition get_or {A} (f : field A) (default : A) : option A :=
  match f with
  | Missing => Some default
  | Null => None
  | Val a => Some a
  end.

(** One entry of [mapping.json]'s [images]. *)
Record RawImage := {
  img_index : option Z;
  img_src : option string;
  img_alt : option string;
  img_width : field Z;
  img_height : field Z;
  img_local_path : option string;
  img_file_size : option Z
}.

Record FilteredImage := {
  fi_index : Z;
  fi_local_path : string;
  fi_src : string;
  fi_alt : string;
  fi_width : option Z;
  fi_height : option Z;
  fi_file_size : Z;
  fi_file_type : string
}.

Record SkippedImage := {
  si_index : Z;
  si_local_path : string;
  skip_reason : string;
  pattern_matched : option string;
  dimensions : option string
}.

(** The filter's configuration dictionary, read with [config.get(k, default)]. *)
Record FilterConfig := {
  min_width : option Z;
  min_height : option Z;
  min_file_size_bytes : option Z;
  skip_url_patterns : option (list string);
  skip_alt_patterns : option (list string)
}.

(** [config.IMAGE_FILTER_CONFIG] *)
Definition IMAGE_FILTER_CONFIG : FilterConfig := {|
  min_width := Some 50;
  min_height := Some 50;
  min_file_size_bytes := Some 500;
  skip_url_patterns := Some
    ["icn-close"; "icn-nav-"; "icn-carousel"; "rlcdn.com"; "analytics";
     "bat.bing"; "t.co/i/adsct"; "facebook.com/tr"; "googleadservices";
     "doubleclick.net"];
  skip_alt_patterns := Some ["logo"; "icon"; "arrow"; "close"; "menu"]
|}.

Record Stats := {
  st_total : Z;
  st_passed : Z;
  st_skipped : Z;
  st_skip_reasons : gmap string Z
}.

(** The values [SkippedImage.skip_reason] is documented to take. *)
Definition SKIP_REASONS : list string :=
  ["missing_local_path"; "unsupported_format"; "svg_not_supported";
   "tracking_pixel"; "tiny_icon"; "tiny_file"; "ui_pattern"; "tracking_url";
   "alt_pattern"; "icon_path"].

Definition allowed_ext : list string := ["jpg"; "jpeg"; "png"].

Definition tracking_domains : list string :=
  ["rlcdn.com"; "analytics"; "bat.bing"; "t.co"; "facebook.com/tr";
   "googleadservices"; "doubleclick"; "pixel"].

Definition icon_patterns : list string :=
  ["icn-"; "icon-"; "/icons/"; "\icons\"].

(** [Path(p).name] on a POSIX path: the last component that is neither empty
    nor a single dot. *)
Definition path_name (p : string) : string :=
  default "" (last (filter (fun x => x <> "" /\ x <> ".") (split_on "/" p))).

(** [Path(p).suffix]: from the last dot of the name on, unless that dot is the
    first or the last character of the name (pathlib up to Python 3.13). *)
Definition path_suffix (p : string) : string :=
  let name := path_name p in
  match rfind "." name with
  | Some i =>
      if (0 <? i)%nat && (S i <? String.length name)%nat then drop i name
      else ""
  | None => ""
  end.

(** [Path(local_path).suffix.lstrip('.').lower() if local_path else ""] *)
Definition file_type_of (local_path : string) : string :=
  if truthy local_path
  then lower (lstrip (Ascii.eqb ".") (path_suffix local_path))
  else "".

(** [bool(n)] for an [int] *)
Definition nonzero (n : Z) : bool := negb (n =? 0).

(** [f"{img.get('width', 0)}"] *)
Definition show_dim (f : field Z) : string :=
  match f with
  | Missing => "0"
  | Null => "None"
  | Val n => str_of_int n
  end.

(** [bool(width and height and (width > 100 or height > 100))]: the test
    that lets a large icon through. *)
Definition large_icon (width height : Z) : bool :=
  nonzero width && nonzero height && ((100 <? width) || (100 <? height)).

(** The loop over [icon_patterns] at the end of [_should_skip]. *)
Fixpoint icon_loop (local_path : string) (width height : Z)
    (patterns : list string) : option string :=
  match patterns with
  | [] => None
  | pattern :: rest =>
      if contains pattern local_path then
        if large_icon width height
        then icon_loop local_path width height rest
        else Some pattern
      else icon_loop local_path width height rest
  end.

(** [ImageFilter._should_skip] down to the alt-text rule: the reason and the
    pattern of the first rule that fires, [None] when none does. *)
Definition rules_before_icon_path (config : FilterConfig) (img : RawImage)
    : option (string * string) :=
  let width := default 0 (get (img_width img)) in
  let height := default 0 (get (img_height img)) in
  let file_size := default 0 (img_file_size img) in
  let src := lower (default "" (img_src img)) in
  let alt := lower (default "" (img_alt img)) in
  let local_path := lower (default "" (img_local_path img)) in
  if endswith ".svg" local_path || endswith ".svg" src then
    Some ("svg_not_supported", "SVG format not supported by Vision API")
  else if (width <=? 2) && (height <=? 2) then
    Some ("tracking_pixel", str_of_int width +:+ "x" +:+ str_of_int height)
  else
  let min_w := default 50 (min_width config) in
  let min_h := default 50 (min_height config) in
  if nonzero width && nonzero height && (width <? min_w) && (height <? min_h)
  then
    Some ("tiny_icon",
          str_of_int width +:+ "x" +:+ str_of_int height +:+ " < "
          +:+ str_of_int min_w +:+ "x" +:+ str_of_int min_h)
  else
  let min_file_size := default 500 (min_file_size_bytes config) in
  if (0 <? file_size) && (file_size <? min_file_size) then
    Some ("tiny_file",
          str_of_int file_size +:+ " < " +:+ str_of_int min_file_size
          +:+ " bytes")
  else
  match List.find (fun pattern => contains (lower pattern) src)
                  (default [] (skip_url_patterns config)) with
  | Some pattern => Some ("ui_pattern", pattern)
  | None =>
  match List.find (fun domain => contains domain src) tracking_domains with
  | Some domain => Some ("tracking_url", domain)
  | None =>
  match
    (if truthy alt && (count_words false alt <=? 2)%nat then
       List.find (fun pattern => String.eqb alt pattern
                                 || String.eqb alt (pattern +:+ " icon"))
                 (default [] (skip_alt_patterns config))
     else None)
  with
  | Some pattern => Some ("alt_pattern", pattern)
  | None => None
  end end end.

(** [ImageFilter._should_skip]: [(skip_reason, pattern_matched)], or
    [(None, None)] when the image is kept. *)
Definition _should_skip (config : FilterConfig) (img : RawImage)
    : option string * option string :=
  match rules_before_icon_path config img with
  | Some (reason, pattern) => (Some reason, Some pattern)
  | None =>
      match icon_loop (lower (default "" (img_local_path img)))
              (default 0 (get (img_width img)))
              (default 0 (get (img_height img))) icon_patterns with
      | Some pattern => (Some "icon_path", Some pattern)
      | None => (None, None)
      end
  end.

(** [stats["skipped"] += 1] and the update of [stats["skip_reasons"]]. *)
Definition count_skip (reason : string) (st : Stats) : Stats := {|
  st_total := st_total st;
  st_passed := st_passed st;
  st_skipped := st_skipped st + 1;
  st_skip_reasons :=
    <[reason := default 0 (st_skip_reasons st !! reason) + 1]>
      (st_skip_reasons st)
|}.

Definition count_pass (st : Stats) : Stats := {|
  st_total := st_total st;
  st_passed := st_passed st + 1;
  st_skipped := st_skipped st;
  st_skip_reasons := st_skip_reasons st
|}.

(** The body of the loop of [filter_images] up to the [append]: the record
    built for one image, [inl] for [passed] and [inr] for [skipped]. *)
Definition loop_body (config : FilterConfig) (img : RawImage)
    : FilteredImage + SkippedImage :=
  let local_path := default "" (img_local_path img) in
  let file_type := file_type_of local_path in
  if negb (truthy local_path) then
    inr {| si_index := default 0 (img_index img);
           si_local_path := "unknown";
           skip_reason := "missing_local_path";
           pattern_matched := Some (take 100 (default "no_src" (img_src img)));
           dimensions := None |}
  else if negb (truthy file_type)
          || negb (bool_decide (file_type ∈ allowed_ext)) then
    inr {| si_index := default 0 (img_index img);
           si_local_path := local_path;
           skip_reason := "unsupported_format";
           pattern_matched :=
             Some (if truthy file_type then file_type else "no_extension");
           dimensions := None |}
  else
    let '(reason, pattern) := _should_skip config img in
    if truthy (default "" reason) then
      inr {| si_index := default 0 (img_index img);
             si_local_path := local_path;
             skip_reason := default "" reason;
             pattern_matched := pattern;
             dimensions :=
               if String.eqb (default "" reason) "tracking_pixel"
               then Some (show_dim (img_width img) +:+ "x"
                          +:+ show_dim (img_height img))
               else None |}
    else
      inl {| fi_index := default 0 (img_index img);
             fi_local_path := local_path;
             fi_src := default "" (img_src img);
             fi_alt := default "" (img_alt img);
             fi_width := get (img_width img);
             fi_height := get (img_height img);
             fi_file_size := default 0 (img_file_size img);
             fi_file_type := file_type |}.

(** The state of the loop of [filter_images]: the two result lists and
    [self.stats]. *)
Definition FilterState : Type :=
  (list FilteredImage * list SkippedImage * Stats)%type.

(** One iteration: the record is appended to its list and counted. *)
Definition filter_step (config : FilterConfig) (acc : FilterState)
    (img : RawImage) : FilterState :=
  let '(passed, skipped, st) := acc in
  match loop_body config img with
  | inl f => (passed ++ [f], skipped, count_pass st)
  | inr k => (passed, skipped ++ [k], count_skip (skip_reason k) st)
  end.

(** [ImageFilter.filter_images]: the pair it returns, and [self.stats] after
    the call. *)
Definition filter_images_state (config : FilterConfig)
    (images : list RawImage) : FilterState :=
  fold_left (filter_step config) images
    ([], [],
     {| st_total := Z.of_nat (length images); st_passed := 0;
        st_skipped := 0; st_skip_reasons := ∅ |}).

Definition filter_images (config : FilterConfig) (images : list RawImage)
    : list FilteredImage * list SkippedImage :=
  fst (filter_images_state config images).

(** The record one image contributes to [passed], respectively to
    [skipped], if any. *)
Definition passed_of (config : FilterConfig) (img : RawImage)
    : option FilteredImage :=
  match loop_body config img with inl f => Some f | inr _ => None end.

Definition skipped_of (config : FilterConfig) (img : RawImage)
    : option SkippedImage :=
  match loop_body config img with inl _ => None | inr k => Some k end.

(** [config.IMAGE_BATCH_SIZE] *)
Definition IMAGE_BATCH_SIZE : Z := 10.

(** [ImageFilter.batch_images]: [batch_size or IMAGE_BATCH_SIZE] replaces a
    missing or zero size; with a negative step [range(0, len(images), step)]
    is empty. *)
Definition batch_images {A} (images : list A) (batch_size : option Z)
    : list (list A) :=
  let batch_size :=
    match batch_size with
    | Some n => if nonzero n then n else IMAGE_BATCH_SIZE
    | None => IMAGE_BATCH_SIZE
    end in
  if batch_size <? 0 then [] else chunks (Z.to_nat batch_size) images.

(** [ImageFilter.get_stats] after [filter_images] has run on [images]. *)
Definition get_stats (config : FilterConfig) (images : list RawImage) : Stats :=
  snd (filter_images_state config images).

(** [filter_images_from_mapping]: [mapping_data.get("images", [])] is
    filtered with the default configuration. *)
Definition filter_images_from_mapping (mapping_images : option (list RawImage))
    : list FilteredImage * list SkippedImage * Stats :=
  let images := default [] mapping_images in
  (filter_images IMAGE_FILTER_CONFIG images,
   get_stats IMAGE_FILTER_CONFIG images).

End ImageFilter.

(** ** [processors/section_parser.py]: section ids *)

Module SectionParser.
Import PyStr.

(** The regular expression class [\w] on one code point: letters, digits
    and numeric characters of Latin-1, and the underscore. *)
Definition isword (c : ascii) : bool :=
  let n := N_of_ascii c in
  ((48 <=? n) && (n <=? 57) || (65 <=? n) && (n <=? 90)
   || (97 <=? n) && (n <=? 122) || (n =? 95)
   || (n =? 170) || (n =? 178) || (n =? 179) || (n =? 181)
   || (n =? 185) || (n =? 186) || (188 <=? n) && (n <=? 190)
   || (192 <=? n) && (n <=? 214) || (216 <=? n) && (n <=? 246)
   || (248 <=? n))%N.

(** [re.sub(cls, '', s)] for a class of single characters *)
Fixpoint remove_chars (P : ascii -> bool) (s : string) : string :=
  match s with
  | EmptyString => EmptyString
  | String c r => if P c then remove_chars P r else String c (remove_chars P r)
  end.

(** [re.sub(r'[\s-]+', '_', s)]; [inrun] tells whether the previous character
    belonged to the run being replaced. *)
Fixpoint collapse_runs (inrun : bool) (s : string) : string :=
  match s with
  | EmptyString => EmptyString
  | String c r =>
      if isspace c || Ascii.eqb c "-" then
        if inrun then collapse_runs true r
        else String "_" (collapse_runs true r)
      else String c (collapse_runs false r)
  end.

(** The first lines of [_generate_unique_id]: the slug of a title.  Of the
    three glyphs removed first, the trademark sign lies above code point 255. *)
Definition slugify (title : string) : string :=
  let slug := lower title in
  let slug :=
    remove_chars (fun c => Ascii.eqb c "174" || Ascii.eqb c "169") slug in
  let slug :=
    remove_chars (fun c => negb (isword c || isspace c || Ascii.eqb c "-"))
      slug in
  let slug := collapse_runs false slug in
  let slug := take 50 (strip (Ascii.eqb "_") slug) in
  if truthy slug then slug else "section".

(** [f"{base_id}_{counter}"] *)
Definition suffixed (base_id : string) (counter : Z) : string :=
  base_id +:+ "_" +:+ str_of_int counter.

(** The [while slug in seen_ids] loop.  Each turn tries a new candidate, so
    the loop leaves after at most [len(seen_ids) + 1] tests; [fuel] counts the
    turns that remain and [None] means they ran out. *)
Fixpoint unique_loop (fuel : nat) (seen_ids : gset string)
    (base_id slug : string) (counter : Z) : option string :=
  if bool_decide (slug ∈ seen_ids) then
    match fuel with
    | O => None
    | S fuel' =>
        unique_loop fuel' seen_ids base_id (suffixed base_id counter)
          (counter + 1)
    end
  else Some slug.

(** [SectionParser._generate_unique_id]: the id, and [seen_ids] after
    [seen_ids.add(slug)]. *)
Definition _generate_unique_id (title : string) (seen_ids : gset string)
    : option (string * gset string) :=
  let slug := slugify title in
  match unique_loop (size seen_ids) seen_ids slug slug 1 with
  | Some slug => Some (slug, {[slug]} ∪ seen_ids)
  | None => None
  end.

(** What the parser reads off one [h1]..[h4] element of the parsed document. *)
Record Heading := {
  h_text : string;          (* heading.get_text(strip=True) *)
  h_level : Z;              (* int(heading.name[1]) *)
  h_inside_nav : bool;      (* some ancestor is nav, header or footer *)
  h_has_faq : bool;         (* _extract_faq_from_section found an accordion *)
  h_has_table : bool        (* _extract_table_from_section found a table *)
}.

Record ParsedSection := {
  ps_id : string;
  ps_title : string;
  ps_level : Z;
  ps_section_type : string;
  ps_tag : string
}.

Definition nav_patterns : list string :=
  ["menu"; "nav"; "skip to"; "jump to"; "back to"; "close"; "open"; "toggle";
   "expand"; "collapse"; "sign in"; "log in"; "search"].

(** [SectionParser._is_navigation_heading] *)
Definition _is_navigation_heading (title : string) (heading : Heading) : bool :=
  (String.length title <=? 3)%nat
  || existsb (fun pattern => contains pattern (lower title)) nav_patterns
  || h_inside_nav heading.

(** [SectionParser._extract_heading_sections]; the set of seen ids is
    threaded through the loop. *)
Fixpoint _extract_heading_sections (headings : list Heading)
    (seen_ids : gset string) : option (list ParsedSection * gset string) :=
  match headings with
  | [] => Some ([], seen_ids)
  | heading :: rest =>
      let title := h_text heading in
      if negb (truthy title) || (String.length title <? 2)%nat
         || _is_navigation_heading title heading
      then _extract_heading_sections rest seen_ids
      else
        match _generate_unique_id title seen_ids with
        | None => None
        | Some (section_id, seen_ids) =>
            let section :=
              {| ps_id := section_id; ps_title := title;
                 ps_level := h_level heading;
                 ps_section_type :=
                   if h_has_faq heading then "faq"
                   else if h_has_table heading then "table" else "heading";
                 ps_tag := "h" +:+ str_of_int (h_level heading) |} in
            match _extract_heading_sections rest seen_ids with
            | None => None
            | Some (sections, seen_ids) => Some (section :: sections, seen_ids)
            end
        end
  end.

(** [_extract_cta_sections] and [_extract_testimonial_sections] emit at most
    one section each; [found] tells whether the document had the content. *)
Definition _extract_synthetic (found : bool) (slug title kind : string)
    (seen_ids : gset string) : option (list ParsedSection * gset string) :=
  if found then
    match _generate_unique_id slug seen_ids with
    | None => None
    | Some (section_id, seen_ids) =>
        Some ([{| ps_id := section_id; ps_title := title; ps_level := 2;
                  ps_section_type := kind; ps_tag := kind |}], seen_ids)
    end
  else Some ([], seen_ids).

(** What [parse] reads off the parsed document. *)
Record Document := {
  doc_headings : list Heading;   (* soup.find_all(['h1','h2','h3','h4']) *)
  doc_has_cta : bool;            (* a tel: link or a contact form was found *)
  doc_has_testimonials : bool    (* a testimonial text was found *)
}.

(** [SectionParser.parse]: the three passes share one [seen_ids]. *)
Definition parse (doc : Document) : option (list ParsedSection) :=
  match _extract_heading_sections (doc_headings doc) ∅ with
  | None => None
  | Some (heading_sections, seen_ids) =>
      match _extract_synthetic (doc_has_cta doc) "contact_cta"
              "Contact & CTA Information" "cta" seen_ids with
      | None => None
      | Some (cta_sections, seen_ids) =>
          match _extract_synthetic (doc_has_testimonials doc) "testimonials"
                  "Testimonials & Quotes" "testimonial" seen_ids with
          | None => None
          | Some (testimonial_sections, _) =>
              Some (heading_sections ++ cta_sections ++ testimonial_sections)
          end
      end
  end.

End SectionParser.

(** ** JSON values *)

Module Json.

(** A decoded JSON value; a number keeps its literal text. *)
#[warnings="-register-all"]
Inductive json : Type :=
  | JNull
  | JBool (b : bool)
  | JNum (literal : string)
  | JStr (s : string)
  | JArr (items : list json)
  | JObj (members : list (string * json)).

End Json.

(** ** [llm/client.py]: [parse_json_response] and its repair helpers *)

Module JsonRepair.
Import PyStr Json.

Definition LF : ascii := "010"%char.

(** A JSON text written with apostrophes for its quotation marks. *)
Fixpoint json_text (s : string) : string :=
  match s with
  | EmptyString => EmptyString
  | String c r => String (if Ascii.eqb c "'" then DQ else c) (json_text r)
  end.

Inductive exn : Type :=
  | ValueError (message : string).

Inductive result (A : Type) : Type :=
  | Ok (value : A)
  | Raise (e : exn).
Arguments Ok {A} value.
Arguments Raise {A} e.

(** The lazy group of the fence pattern: the shortest prefix of [s] after
    which only white space and the closing fence follow. *)
Fixpoint lazy_group (s : string) : option string :=
  if startswith "```" (lstrip isspace s) then Some EmptyString
  else match s with
       | EmptyString => None
       | String c r => option_map (String c) (lazy_group r)
       end.

(** A match of the fence pattern that starts at the head of [s]: the opening
    fence, [json] if it is there (given back when the rest cannot match), the
    white space, then the group. *)
Definition match_fence (s : string) : option string :=
  if startswith "```" s then
    let r := drop 3 s in
    let plain := lazy_group (lstrip isspace r) in
    if startswith "json" r then
      match lazy_group (lstrip isspace (drop 4 r)) with
      | Some g => Some g
      | None => plain
      end
    else plain
  else None.

(** [re.search] of the fence pattern (an opening fence, an optional [json]
    tag, a lazy group between optional white space, a closing fence):
    group 1 of the leftmost match. *)
Fixpoint search_fenced (s : string) : option string :=
  match match_fence s with
  | Some g => Some g
  | None =>
      match s with
      | EmptyString => None
      | String _ r => search_fenced r
      end
  end.

(** The longest prefix of [s] that ends with [c]. *)
Fixpoint upto_last (c : ascii) (s : string) : option string :=
  match s with
  | EmptyString => None
  | String d r =>
      match upto_last c r with
      | Some p => Some (String d p)
      | None => if Ascii.eqb d c then Some (String d EmptyString) else None
      end
  end.

(** [re.search(r'\{[\s\S]*\}', s)]: from the first opening brace that has a
    closing brace after it to the last closing brace. *)
Fixpoint search_braces (s : string) : option string :=
  match s with
  | EmptyString => None
  | String c r =>
      if Ascii.eqb c "{" then
        match upto_last "}" r with
        | Some p => Some (String c p)
        | None => search_braces r
        end
      else search_braces r
  end.

(** [s] matches white space followed by [close]. *)
Definition closes_next (close : ascii) (s : string) : bool :=
  match lstrip isspace s with
  | String d _ => Ascii.eqb d close
  | EmptyString => false
  end.

(** [re.sub(r',\s*}', '}', s)] (and the same for a bracket): a comma that only
    white space separates from [close] goes away with that white space;
    [skipping] is set between such a comma and its [close]. *)
Fixpoint drop_trailing_commas (close : ascii) (skipping : bool) (s : string)
    : string :=
  match s with
  | EmptyString => EmptyString
  | String c r =>
      if skipping then
        if isspace c then drop_trailing_commas close true r
        else String c (drop_trailing_commas close false r)
      else if Ascii.eqb c "," && closes_next close r then
        drop_trailing_commas close true r
      else String c (drop_trailing_commas close false r)
  end.

(** [ClaudeClient._repair_json] *)
Definition _repair_json (json_str : string) : string :=
  let json_str := drop_trailing_commas "}" false json_str in
  drop_trailing_commas "]" false json_str.

(** The variables of the scan of [_truncate_to_valid_json]. *)
Record Scan := {
  depth_brace : Z;
  depth_bracket : Z;
  in_string : bool;
  escape_next : bool;
  last_valid_pos : Z
}.

Definition scan_start : Scan := {|
  depth_brace := 0; depth_bracket := 0; in_string := false;
  escape_next := false; last_valid_pos := 0
|}.

(** One turn of [for i, char in enumerate(json_str)]. *)
Definition scan_step (st : Scan) (i : Z) (char : ascii) : Scan :=
  if escape_next st then
    {| depth_brace := depth_brace st; depth_bracket := depth_bracket st;
       in_string := in_string st; escape_next := false;
       last_valid_pos := last_valid_pos st |}
  else if Ascii.eqb char BSLASH then
    {| depth_brace := depth_brace st; depth_bracket := depth_bracket st;
       in_string := in_string st; escape_next := true;
       last_valid_pos := last_valid_pos st |}
  else if Ascii.eqb char DQ then
    {| depth_brace := depth_brace st; depth_bracket := depth_bracket st;
       in_string := negb (in_string st); escape_next := false;
       last_valid_pos := last_valid_pos st |}
  else if in_string st then st
  else if Ascii.eqb char "{" then
    {| depth_brace := depth_brace st + 1; depth_bracket := depth_bracket st;
       in_string := false; escape_next := false;
       last_valid_pos := last_valid_pos st |}
  else if Ascii.eqb char "}" then
    {| depth_brace := depth_brace st - 1; depth_bracket := depth_bracket st;
       in_string := false; escape_next := false;
       last_valid_pos :=
         if (depth_brace st - 1 =? 0) && (depth_bracket st =? 0)
         then i + 1 else last_valid_pos st |}
  else if Ascii.eqb char "[" then
    {| depth_brace := depth_brace st; depth_bracket := depth_bracket st + 1;
       in_string := false; escape_next := false;
       last_valid_pos := last_valid_pos st |}
  else if Ascii.eqb char "]" then
    {| depth_brace := depth_brace st; depth_bracket := depth_bracket st - 1;
       in_string := false; escape_next := false;
       last_valid_pos := last_valid_pos st |}
  else st.

Fixpoint scan (st : Scan) (i : Z) (s : string) : Scan :=
  match s with
  | EmptyString => st
  | String char r => scan (scan_step st i char) (i + 1) r
  end.

(** [s] matches white space, then [open], then no [stop] up to its end. *)
Definition dangling (open stop : ascii) (s : string) : bool :=
  match lstrip isspace s with
  | String d t => Ascii.eqb d open && negb (has_char stop t)
  | EmptyString => false
  end.

(** [re.sub] of a comma, white space, [open] and then no [stop] up to the end
    of the text, by the empty string: the text is cut at the leftmost comma
    from which the pattern matches. *)
Fixpoint cut_dangling (open stop : ascii) (s : string) : string :=
  match s with
  | EmptyString => EmptyString
  | String c r =>
      if Ascii.eqb c "," && dangling open stop r then EmptyString
      else String c (cut_dangling open stop r)
  end.

(** [ClaudeClient._truncate_to_valid_json] *)
Definition _truncate_to_valid_json (json_str : string) : option string :=
  let st := scan scan_start 0 json_str in
  if 0 <? last_valid_pos st then
    Some (take (Z.to_nat (last_valid_pos st)) json_str)
  else if (0 <? depth_brace st) || (0 <? depth_bracket st) then
    let truncated := json_str in
    let truncated := cut_dangling DQ DQ truncated in
    let truncated := cut_dangling "{" "}" truncated in
    let truncated := cut_dangling "[" "]" truncated in
    let truncated := truncated +:+ repeat_char "]" (depth_bracket st) in
    let truncated := truncated +:+ repeat_char "}" (depth_brace st) in
    Some truncated
  else None.

(** [json_str[-200:] if len(json_str) > 200 else json_str] *)
Definition tail_200 (json_str : string) : string :=
  if (200 <? String.length json_str)%nat
  then drop (String.length json_str - 200) json_str
  else json_str.

Section ParseJsonResponse.

(** [json.loads] of the standard library: the decoded value, or [None] when
    it raises [JSONDecodeError]. *)
Variable loads : string -> option json.

(** [ClaudeClient.parse_json_response] *)
Definition parse_json_response (response : string) : result json :=
  match
    match search_fenced response with
    | Some g => Some g
    | None => search_braces response
    end
  with
  | None =>
      Raise (ValueError ("No JSON found in response: "
                         +:+ take 500 response +:+ "..."))
  | Some json_str =>
      let json_str := strip isspace json_str in
      let failed :=
        Raise (ValueError
          ("Failed to parse JSON after repair attempts."
           +:+ String LF "Error location: char ~"
           +:+ str_of_int (Z.of_nat (String.length json_str))
           +:+ String LF "Content tail: ..." +:+ tail_200 json_str)) in
      match loads json_str with
      | Some v => Ok v
      | None =>
          match loads (_repair_json json_str) with
          | Some v => Ok v
          | None =>
              match _truncate_to_valid_json json_str with
              | Some truncated =>
                  if truthy truncated then
                    match loads truncated with
                    | Some v => Ok v
                    | None => failed
                    end
                  else failed
              | None => failed
              end
          end
      end
  end.

End ParseJsonResponse.

(** The input of the truncation example: an object cut off inside a nested
    object, with no closing brace. *)
Definition truncated_input : string := json_text "{'a': [1, 2, {'b': 3".

(** The characters [_repair_json] may delete. *)
Definition comma_or_space (c : ascii) : bool := Ascii.eqb c "," || isspace c.

(** The scan stands outside every object, array and string. *)
Definition balanced (st : Scan) : Prop :=
  depth_brace st = 0 /\ depth_bracket st = 0
  /\ in_string st = false /\ escape_next st = false.

End JsonRepair.

(** ** [llm/kb_generator.py]: batched extraction and hierarchy reconstruction *)

Module KBGenerator.
Import PyStr PyData Json.

Record SectionImage := {
  image_id : string;
  local_path : string;
  category : string;
  description : string
}.

(** [models.Section]; [data] is a dictionary of JSON values. *)
#[warnings="-register-all"]
Inductive KBSection : Type := mkSection {
  sec_id : string;
  sec_title : string;
  sec_level : Z;
  sec_summary : string;
  sec_content : option string;
  sec_key_points : list string;
  sec_images : list SectionImage;
  sec_subsections : list KBSection;
  sec_data : option (gmap string json)
}.

(** A child entry of a grouped section, as [_semantic_grouping] builds it. *)
Record Child := {
  c_id : option string;
  c_title : option string;
  c_level : option Z;
  c_category : option string;
  c_section_type : option string
}.

(** One entry of [grouped_sections]. *)
Record Group := {
  g_id : option string;
  g_title : option string;
  g_level : option Z;
  g_type : option string;
  g_section_type : option string;
  g_category : option string;
  g_extraction_hint : option string;
  g_children : option (list Child)
}.

(** One entry of [sections_to_process]: a group without its children, or a
    child with [parent_id] and [level] stamped on it. *)
Record FlatSection := {
  f_id : option string;
  f_title : option string;
  f_level : option Z;
  f_type : option string;
  f_section_type : option string;
  f_category : option string;
  f_extraction_hint : option string;
  f_parent_id : option string
}.

(** [MultiCallKBGenerator._flatten_grouped_sections] *)
Definition _flatten_grouped_sections (grouped_sections : list Group)
    : list FlatSection :=
  flat_map
    (fun section =>
       {| f_id := g_id section; f_title := g_title section;
          f_level := g_level section; f_type := g_type section;
          f_section_type := g_section_type section;
          f_category := g_category section;
          f_extraction_hint := g_extraction_hint section;
          f_parent_id := None |}
       :: (if bool_decide (g_type section = Some "parent") then
             map (fun child =>
                    {| f_id := c_id child; f_title := c_title child;
                       f_level := Some (default 1 (g_level section) + 1);
                       f_type := None;
                       f_section_type := c_section_type child;
                       f_category := c_category child;
                       f_extraction_hint := None;
                       f_parent_id := g_id section |})
                 (default [] (g_children section))
           else []))
    grouped_sections.

(** What one call of [_extract_sections_batch] does: it raises an exception
    [e] (we keep [str(e)]), or it returns the sections parsed from the reply. *)
Inductive BatchResult : Type :=
  | Raised (message : string)
  | Extracted (sections : list KBSection).

(** The placeholder the [except] branch of [generate] builds for a section
    of the failed batch. *)
Definition error_placeholder (s : FlatSection) (message : string) : KBSection :=
  {| sec_id := default "unknown" (f_id s);
     sec_title := default "Unknown" (f_title s);
     sec_level := default 1 (f_level s);
     sec_summary := "Error extracting section: " +:+ take 100 message;
     sec_content := None; sec_key_points := []; sec_images := [];
     sec_subsections := []; sec_data := None |}.

(** [for ext_id, ext_section in extracted_sections.items(): ... break] *)
Fixpoint title_loop (items : dict KBSection) (title : string)
    : option KBSection :=
  match items with
  | [] => None
  | (ext_id, ext_section) :: rest =>
      if String.eqb (lower (sec_title ext_section)) (lower title)
      then Some ext_section
      else title_loop rest title
  end.

(** [bool(data)] for an optional dictionary *)
Definition data_truthy (data : option (gmap string json)) : bool :=
  match data with
  | Some m => negb (bool_decide (m = ∅))
  | None => false
  end.

(** The body of [for child in group.get('children', [])] in
    [_reconstruct_hierarchy]: the subsection appended for one child. *)
Definition reconstruct_child (extracted_sections : dict KBSection)
    (group : Group) (child : Child) : KBSection :=
  let child_id := default "unknown" (c_id child) in
  let child_section := dict_get child_id extracted_sections in
  let child_section :=
    match child_section with
    | None => title_loop extracted_sections (default "" (c_title child))
    | Some _ => child_section
    end in
  let cat := default "" (c_category child) in
  match child_section with
  | Some child_section =>
      if truthy cat then
        {| sec_id := sec_id child_section;
           sec_title := sec_title child_section;
           sec_level := sec_level child_section;
           sec_summary := sec_summary child_section;
           sec_content := sec_content child_section;
           sec_key_points := sec_key_points child_section;
           sec_images := sec_images child_section;
           sec_subsections := sec_subsections child_section;
           sec_data :=
             if data_truthy (sec_data child_section) || truthy cat then
               Some (<["category" := JStr cat]>
                       (if data_truthy (sec_data child_section)
                        then default ∅ (sec_data child_section) else ∅))
             else if truthy cat then Some {["category" := JStr cat]}
             else None |}
      else child_section
  | None =>
      {| sec_id := child_id;
         sec_title := default "Unknown" (c_title child);
         sec_level := default 1 (g_level group) + 1;
         sec_summary := ""; sec_content := None; sec_key_points := [];
         sec_images := []; sec_subsections := [];
         sec_data :=
           if truthy cat then Some {["category" := JStr cat]} else None |}
  end.

(** [bool(group.get('children'))] *)
Definition has_children (group : Group) : bool :=
  match g_children group with
  | Some (_ :: _) => true
  | _ => false
  end.

(** The body of [for group in grouped_sections]: the section appended to
    [result]. *)
Definition reconstruct_group (extracted_sections : dict KBSection)
    (group : Group) : KBSection :=
  let section_id := default "unknown" (g_id group) in
  let section := dict_get section_id extracted_sections in
  let section :=
    match section with
    | None => title_loop extracted_sections (default "" (g_title group))
    | Some _ => section
    end in
  let section :=
    match section with
    | None =>
        {| sec_id := section_id;
           sec_title := default "Unknown" (g_title group);
           sec_level := default 1 (g_level group);
           sec_summary := ""; sec_content := None; sec_key_points := [];
           sec_images := []; sec_subsections := []; sec_data := None |}
    | Some section => section
    end in
  if bool_decide (g_type group = Some "parent") && has_children group then
    let subsections :=
      fold_left
        (fun subsections child =>
           subsections ++ [reconstruct_child extracted_sections group child])
        (default [] (g_children group)) [] in
    {| sec_id := sec_id section; sec_title := sec_title section;
       sec_level := sec_level section; sec_summary := sec_summary section;
       sec_content := sec_content section;
       sec_key_points := sec_key_points section;
       sec_images := sec_images section;
       sec_subsections := subsections;
       sec_data := sec_data section |}
  else section.

(** [MultiCallKBGenerator._reconstruct_hierarchy] *)
Definition _reconstruct_hierarchy (grouped_sections : list Group)
    (extracted_sections : dict KBSection) : list KBSection :=
  fold_left
    (fun result group => result ++ [reconstruct_group extracted_sections group])
    grouped_sections [].

(** *** The resolution policy, in the words of the specification

    The three definitions below restate what [_reconstruct_hierarchy] is
    documented to do; Part II proves that the code above computes them. *)

(** A section without content. *)
Definition empty_placeholder (id title : string) (level : Z) : KBSection :=
  {| sec_id := id; sec_title := title; sec_level := level;
     sec_summary := ""; sec_content := None; sec_key_points := [];
     sec_images := []; sec_subsections := []; sec_data := None |}.

(** Tiers one and two: the section stored under [id], else the first stored
    section whose title equals [title] up to letter case. *)
Definition lookup_or_title (extracted_sections : dict KBSection)
    (id title : string) : option KBSection :=
  match dict_get id extracted_sections with
  | Some section => Some section
  | None =>
      option_map snd
        (List.find
           (fun entry => String.eqb (lower (sec_title entry.2)) (lower title))
           extracted_sections)
  end.

(** The three tiers: tier three is the placeholder. *)
Definition resolve_three_tier (extracted_sections : dict KBSection)
    (id title : string) (placeholder : KBSection) : KBSection :=
  default placeholder (lookup_or_title extracted_sections id title).

(** The section with the entry [category] of its data set to [cat]; an
    empty [cat] is no annotation. *)
Definition annotate (cat : string) (section : KBSection) : KBSection :=
  if truthy cat then
    {| sec_id := sec_id section; sec_title := sec_title section;
       sec_level := sec_level section; sec_summary := sec_summary section;
       sec_content := sec_content section;
       sec_key_points := sec_key_points section;
       sec_images := sec_images section;
       sec_subsections := sec_subsections section;
       sec_data :=
         Some (<["category" := JStr cat]> (default ∅ (sec_data section))) |}
  else section.

Definition resolved_child (extracted_sections : dict KBSection)
    (group : Group) (child : Child) : KBSection :=
  annotate (default "" (c_category child))
    (resolve_three_tier extracted_sections
       (default "unknown" (c_id child)) (default "" (c_title child))
       (empty_placeholder (default "unknown" (c_id child))
          (default "Unknown" (c_title child))
          (default 1 (g_level group) + 1))).

Definition resolved_group (extracted_sections : dict KBSection)
    (group : Group) : KBSection :=
  let section :=
    resolve_three_tier extracted_sections
      (default "unknown" (g_id group)) (default "" (g_title group))
      (empty_placeholder (default "unknown" (g_id group))
         (default "Unknown" (g_title group)) (default 1 (g_level group))) in
  if bool_decide (g_type group = Some "parent") && has_children group then
    {| sec_id := sec_id section; sec_title := sec_title section;
       sec_level := sec_level section; sec_summary := sec_summary section;
       sec_content := sec_content section;
       sec_key_points := sec_key_points section;
       sec_images := sec_images section;
       sec_subsections :=
         map (resolved_child extracted_sections group)
           (default [] (g_children group));
       sec_data := sec_data section |}
  else section.

Section Generate.

(** The reply to the extraction call of batch number [i]. *)
Variable _extract_sections_batch : nat -> list FlatSection -> BatchResult.

(** One turn of [for i, batch in enumerate(section_batches)] in [generate]. *)
Definition batch_step (extracted_sections : dict KBSection) (i : nat)
    (batch : list FlatSection) : dict KBSection :=
  match _extract_sections_batch i batch with
  | Extracted sections =>
      fold_left (fun d section => dict_set (sec_id section) section d)
        sections extracted_sections
  | Raised message =>
      fold_left
        (fun d s =>
           let placeholder := error_placeholder s message in
           dict_set (sec_id placeholder) placeholder d)
        batch extracted_sections
  end.

(** The assignments [extracted_sections[id] = ...] one turn performs, in
    order. *)
Definition batch_writes (i : nat) (batch : list FlatSection)
    : list (string * KBSection) :=
  match _extract_sections_batch i batch with
  | Extracted sections => map (fun section => (sec_id section, section)) sections
  | Raised message =>
      map (fun s => (sec_id (error_placeholder s message),
                     error_placeholder s message)) batch
  end.

Fixpoint batch_loop (extracted_sections : dict KBSection) (i : nat)
    (section_batches : list (list FlatSection)) : dict KBSection :=
  match section_batches with
  | [] => extracted_sections
  | batch :: rest => batch_loop (batch_step extracted_sections i batch) (S i) rest
  end.

(** The assignments of the whole loop, from batch number [i] on. *)
Fixpoint all_writes (i : nat) (section_batches : list (list FlatSection))
    : list (string * KBSection) :=
  match section_batches with
  | [] => []
  | batch :: rest => batch_writes i batch ++ all_writes (S i) rest
  end.

(** The map [extracted_sections] when the loop over the batches has ended. *)
Definition extract_all (section_batches : list (list FlatSection))
    : dict KBSection :=
  batch_loop [] 0%nat section_batches.

Definition SECTIONS_PER_BATCH : nat := 4.

(** Steps 3d of [generate]: from the grouped sections to the section tree. *)
Definition generate_sections (grouped_sections : list Group) : list KBSection :=
  let grouped_sections :=
    match grouped_sections with
    | [] => [{| g_id := Some "main_content"; g_title := Some "Main Content";
                g_level := Some 1; g_type := Some "standalone";
                g_section_type := None; g_category := None;
                g_extraction_hint := None; g_children := None |}]
    | _ => grouped_sections
    end in
  let sections_to_process := _flatten_grouped_sections grouped_sections in
  let section_batches := chunks SECTIONS_PER_BATCH sections_to_process in
  _reconstruct_hierarchy grouped_sections (extract_all section_batches).

End Generate.

(** The class [[a-z0-9]] *)
Definition id_char (c : ascii) : bool :=
  let n := N_of_ascii c in
  ((97 <=? n) && (n <=? 122) || (48 <=? n) && (n <=? 57))%N.

(** [re.sub(r'[^a-z0-9]+', '_', s)]: every maximal run of other characters
    becomes one underscore; [in_run] is set inside such a run. *)
Fixpoint sub_other_runs (in_run : bool) (s : string) : string :=
  match s with
  | EmptyString => EmptyString
  | String c r =>
      if id_char c then String c (sub_other_runs false r)
      else if in_run then sub_other_runs true r
      else String "_" (sub_other_runs true r)
  end.

(** [MultiCallKBGenerator._generate_id] *)
Definition _generate_id (title : string) : string :=
  let id_str := sub_other_runs false (lower title) in
  let id_str := strip (Ascii.eqb "_") id_str in
  if truthy id_str then id_str else "section".

(** The characters of a generated id. *)
Definition id_or_underscore (c : ascii) : bool :=
  id_char c || Ascii.eqb c "_".

(** [s] is made of characters of ids and single underscores, and does not
    begin with an underscore when [after_underscore] is set. *)
Fixpoint tidy (after_underscore : bool) (s : string) : bool :=
  match s with
  | EmptyString => true
  | String c r =>
      if id_char c then tidy false r
      else Ascii.eqb c "_" && negb after_underscore && tidy true r
  end.

(** [self._count_sections(section.subsections)] *)
Fixpoint count_within (section : KBSection) : nat :=
  match section with
  | mkSection _ _ _ _ _ _ _ subsections _ =>
      (length subsections
       + (fix total (sections : list KBSection) : nat :=
            match sections with
            | [] => 0
            | s :: rest => count_within s + total rest
            end) subsections)%nat
  end.

(** [MultiCallKBGenerator._count_sections] *)
Definition _count_sections (sections : list KBSection) : nat :=
  fold_left (fun count section => (count + count_within section)%nat)
    sections (length sections).

(** *** [_reconstruct_hierarchy] on the dictionaries of a reply

    The grouped sections come from the reply of the model:
    [_semantic_grouping] copies [id], [title] and [level] of each group and
    of each child without looking at them, so each of these can hold JSON
    [null], on which the string method, the addition and the validation of
    [models.Section] raise.  The definitions below follow the code on such
    dictionaries; [_reconstruct_hierarchy] above is what it computes when no
    [null] is in the way (see Part II). *)

Import ImageFilter (field, Missing, Null, Val, get, get_or).

Record RawChild := {
  rc_id : field string;
  rc_title : field string;
  rc_level : field Z;
  rc_category : field string;
  rc_section_type : field string
}.

Record RawGroup := {
  rg_id : field string;
  rg_title : field string;
  rg_level : field Z;
  rg_type : field string;
  rg_section_type : field string;
  rg_category : field string;
  rg_extraction_hint : field string;
  rg_children : field (list RawChild)
}.

(** The exceptions [_reconstruct_hierarchy] can raise. *)
Inductive PyError : Type :=
  | ValidationError
  | AttributeError
  | TypeError.

(** [extracted_sections.get(key)], where [key] may be [None] *)
Definition lookup (extracted_sections : dict KBSection) (key : option string)
    : option KBSection :=
  match key with
  | Some key => dict_get key extracted_sections
  | None => None
  end.

(** The first two tiers: the look-up by id, then the loop over the items,
    whose first turn calls [title.lower()] and raises [AttributeError] when
    the title is [None]. *)
Definition find_section (extracted_sections : dict KBSection)
    (id : option string) (title : option string)
    : PyError + option KBSection :=
  match lookup extracted_sections id with
  | Some section => inr (Some section)
  | None =>
      match extracted_sections, title with
      | [], _ => inr None
      | _ :: _, None => inl AttributeError
      | _ :: _, Some title => inr (title_loop extracted_sections title)
      end
  end.

(** [Section(id=..., title=..., level=..., summary="", content=None,
    key_points=[], images=[], subsections=[], data=...)]: pydantic raises
    [ValidationError] when [id] or [title] is not a string or [level] not an
    integer. *)
Definition placeholder_section (id title : option string) (level : option Z)
    (data : option (gmap string json)) : PyError + KBSection :=
  match id, title, level with
  | Some id, Some title, Some level =>
      inr {| sec_id := id; sec_title := title; sec_level := level;
             sec_summary := ""; sec_content := None; sec_key_points := [];
             sec_images := []; sec_subsections := []; sec_data := data |}
  | _, _, _ => inl ValidationError
  end.

(** The body of [for child in group.get('children', [])], on dictionaries. *)
Definition reconstruct_raw_child (extracted_sections : dict KBSection)
    (group : RawGroup) (child : RawChild) : PyError + KBSection :=
  let child_id := get_or (rc_id child) "unknown" in
  let cat := default "" (get (rc_category child)) in
  match find_section extracted_sections child_id (get_or (rc_title child) "")
  with
  | inl e => inl e
  | inr (Some child_section) =>
      inr (if truthy cat then
             {| sec_id := sec_id child_section;
                sec_title := sec_title child_section;
                sec_level := sec_level child_section;
                sec_summary := sec_summary child_section;
                sec_content := sec_content child_section;
                sec_key_points := sec_key_points child_section;
                sec_images := sec_images child_section;
                sec_subsections := sec_subsections child_section;
                sec_data :=
                  if data_truthy (sec_data child_section) || truthy cat then
                    Some (<["category" := JStr cat]>
                            (if data_truthy (sec_data child_section)
                             then default ∅ (sec_data child_section) else ∅))
                  else if truthy cat then Some {["category" := JStr cat]}
                  else None |}
           else child_section)
  | inr None =>
      match get_or (rg_level group) 1 with
      | None => inl TypeError
      | Some level =>
          placeholder_section child_id (get_or (rc_title child) "Unknown")
            (Some (level + 1))
            (if truthy cat then Some {["category" := JStr cat]} else None)
      end
  end.

(** The loop over the children: the subsections, or the first exception. *)
Fixpoint reconstruct_raw_children (extracted_sections : dict KBSection)
    (group : RawGroup) (subsections : list KBSection)
    (children : list RawChild) : PyError + list KBSection :=
  match children with
  | [] => inr subsections
  | child :: rest =>
      match reconstruct_raw_child extracted_sections group child with
      | inl e => inl e
      | inr child_section =>
          reconstruct_raw_children extracted_sections group
            (subsections ++ [child_section]) rest
      end
  end.

(** [bool(group.get('children'))]: a missing key, [null] and the empty list
    are all false. *)
Definition has_raw_children (group : RawGroup) : bool :=
  match get (rg_children group) with
  | Some (_ :: _) => true
  | _ => false
  end.

(** The body of [for group in grouped_sections], on dictionaries. *)
Definition reconstruct_raw_group (extracted_sections : dict KBSection)
    (group : RawGroup) : PyError + KBSection :=
  let section_id := get_or (rg_id group) "unknown" in
  match find_section extracted_sections section_id (get_or (rg_title group) "")
  with
  | inl e => inl e
  | inr found =>
      match
        match found with
        | Some section => inr section
        | None =>
            placeholder_section section_id (get_or (rg_title group) "Unknown")
              (get_or (rg_level group) 1) None
        end
      with
      | inl e => inl e
      | inr section =>
          if bool_decide (get (rg_type group) = Some "parent")
             && has_raw_children group
          then
            match reconstruct_raw_children extracted_sections group []
                    (default [] (get (rg_children group)))
            with
            | inl e => inl e
            | inr subsections =>
                inr {| sec_id := sec_id section;
                       sec_title := sec_title section;
                       sec_level := sec_level section;
                       sec_summary := sec_summary section;
                       sec_content := sec_content section;
                       sec_key_points := sec_key_points section;
                       sec_images := sec_images section;
                       sec_subsections := subsections;
                       sec_data := sec_data section |}
            end
          else inr section
      end
  end.

(** [_reconstruct_hierarchy] on dictionaries: the list [result], or the
    first exception. *)
Fixpoint reconstruct_raw_groups (extracted_sections : dict KBSection)
    (result : list KBSection) (grouped_sections : list RawGroup)
    : PyError + list KBSection :=
  match grouped_sections with
  | [] => inr result
  | group :: rest =>
      match reconstruct_raw_group extracted_sections group with
      | inl e => inl e
      | inr section =>
          reconstruct_raw_groups extracted_sections (result ++ [section]) rest
      end
  end.

Definition _reconstruct_hierarchy_raw (grouped_sections : list RawGroup)
    (extracted_sections : dict KBSection) : PyError + list KBSection :=
  reconstruct_raw_groups extracted_sections [] grouped_sections.

(** A dictionary without [null] read as a record of optional fields. *)
Definition to_child (child : RawChild) : Child :=
  {| c_id := get (rc_id child); c_title := get (rc_title child);
     c_level := get (rc_level child); c_category := get (rc_category child);
     c_section_type := get (rc_section_type child) |}.

Definition to_group (group : RawGroup) : Group :=
  {| g_id := get (rg_id group); g_title := get (rg_title group);
     g_level := get (rg_level group); g_type := get (rg_type group);
     g_section_type := get (rg_section_type group);
     g_category := get (rg_category group);
     g_extraction_hint := get (rg_extraction_hint group);
     g_children := option_map (map to_child) (get (rg_children group)) |}.

(** No [null] where [_reconstruct_hierarchy] needs a string or an integer:
    in [id], [title] and [level] of the group and, when the group is a
    parent, in [id] and [title] of its children. *)
Definition null_free_child (child : RawChild) : Prop :=
  rc_id child <> Null /\ rc_title child <> Null.

Definition null_free (group : RawGroup) : Prop :=
  rg_id group <> Null /\ rg_title group <> Null /\ rg_level group <> Null
  /\ (get (rg_type group) = Some "parent" ->
      Forall null_free_child (default [] (get (rg_children group)))).

(** The groups [generate] works on: the grouped sections, or the single
    group it makes up when there is none. *)
Definition groups_to_process (grouped_sections : list Group) : list Group :=
  match grouped_sections with
  | [] => [{| g_id := Some "main_content"; g_title := Some "Main Content";
              g_level := Some 1; g_type := Some "standalone";
              g_section_type := None; g_category := None;
              g_extraction_hint := None; g_children := None |}]
  | _ => grouped_sections
  end.

(** The children [_flatten_grouped_sections] and [_reconstruct_hierarchy]
    look at: those of a group whose type is [parent]. *)
Definition children_of (group : Group) : list Child :=
  if bool_decide (g_type group = Some "parent")
  then default [] (g_children group) else [].

(** A section as the [except] branch of [generate] builds it. *)
Definition is_error_placeholder (section : KBSection) : Prop :=
  (exists message,
     sec_summary section = "Error extracting section: " +:+ take 100 message)
  /\ sec_content section = None /\ sec_key_points section = []
  /\ sec_images section = [].

End KBGenerator.

(** ** [llm/image_classifier.py]: reconciling the model's verdicts *)

Module ImageClassifier.
Import PyStr PyData Json ImageFilter.

(** [config.INCLUDE_CATEGORIES] *)
Definition INCLUDE_CATEGORIES : list string :=
  ["product_ui"; "feature_icon"; "stats_data"; "testimonial_photo"].

(** One entry of the reply's [images].  The reply is the model's own text:
    each key can be missing, hold [null], or hold a value of the JSON type
    the prompt asks for; the elements of [stats] are any JSON values. *)
Record Classification := {
  cl_image_id : field string;
  cl_include : field bool;
  cl_category : field string;
  cl_description : field string;
  cl_extracted_text : field string;
  cl_stats : field (list json);
  cl_exclusion_reason : field string;
  cl_suggested_section : field string
}.

(** [models.ImageDescription] *)
Record ImageDescription := {
  d_image_id : string;
  d_local_path : string;
  d_category : string;
  d_description : string;
  d_extracted_text : option string;
  d_stats : option (list json);
  d_suggested_section : option string
}.

(** [models.ExcludedImage] *)
Record ExcludedImage := {
  x_image_id : string;
  x_local_path : string;
  x_category : string;
  x_exclusion_reason : string
}.

(** [f"img_{img.index:03d}"] *)
Definition image_id_of (img : FilteredImage) : string :=
  "img_" +:+ format_03d (fi_index img).

(** The dictionary [image_id_map] of [classify_batch]. *)
Definition build_id_map (images : list FilteredImage) : dict FilteredImage :=
  fold_left (fun m img => dict_set (image_id_of img) img m) images [].

(** The local record a classification is matched to: by its id, else the
    first record whose index, printed, occurs in the id. *)
Definition match_image (image_id_map : dict FilteredImage) (image_id : string)
    : option FilteredImage :=
  match dict_get image_id image_id_map with
  | Some img => Some img
  | None =>
      option_map snd
        (List.find
           (fun '(key, img) => contains (str_of_int (fi_index img)) image_id)
           image_id_map)
  end.

(** The validation of [stats: Optional[List[dict]]]: [None] passes, and a
    list passes when each of its elements is an object. *)
Definition is_object (value : json) : bool :=
  match value with JObj _ => true | _ => false end.

Definition valid_stats (stats : option (list json)) : bool :=
  match stats with
  | None => true
  | Some elements => forallb is_object elements
  end.

(** [ImageDescription(image_id=..., ..., suggested_section=...)] for a
    matched classification: the record, or [None] when pydantic raises
    [ValidationError] ([category] and [description] must be strings, [stats]
    a list of objects or [None]; the three optional texts may be [None]). *)
Definition describe (img : FilteredImage) (category : option string)
    (classification : Classification) : option ImageDescription :=
  match category, get_or (cl_description classification) "" with
  | Some category, Some description =>
      if valid_stats (get (cl_stats classification)) then
        Some {| d_image_id := image_id_of img;
                d_local_path := fi_local_path img;
                d_category := category;
                d_description := description;
                d_extracted_text := get (cl_extracted_text classification);
                d_stats := get (cl_stats classification);
                d_suggested_section :=
                  get (cl_suggested_section classification) |}
      else None
  | _, _ => None
  end.

(** [ExcludedImage(image_id=..., ..., exclusion_reason=...)]: the record, or
    [None] when pydantic raises ([category] and [exclusion_reason] must be
    strings). *)
Definition exclude (img : FilteredImage) (category : option string)
    (classification : Classification) : option ExcludedImage :=
  match category,
        get_or (cl_exclusion_reason classification) "Classified as decorative"
  with
  | Some category, Some exclusion_reason =>
      Some {| x_image_id := image_id_of img;
              x_local_path := fi_local_path img;
              x_category := category;
              x_exclusion_reason := exclusion_reason |}
  | _, _ => None
  end.

(** [category in INCLUDE_CATEGORIES], where [category] may be [None] *)
Definition valuable (category : option string) : bool :=
  match category with
  | Some category => bool_decide (category ∈ INCLUDE_CATEGORIES)
  | None => false
  end.

(** One turn of [for classification in classifications]: the two lists
    after it, or [None] when the turn raises.  An id that is [None] makes
    the fallback test [str(img.index) in image_id] raise [TypeError] as soon
    as the map has an entry. *)
Definition classify_step (image_id_map : dict FilteredImage)
    (acc : list ImageDescription * list ExcludedImage)
    (classification : Classification)
    : option (list ImageDescription * list ExcludedImage) :=
  let '(included, excluded) := acc in
  match get_or (cl_image_id classification) "" with
  | None =>
      match image_id_map with
      | [] => Some (included, excluded)
      | _ :: _ => None
      end
  | Some image_id =>
      match match_image image_id_map image_id with
      | None => Some (included, excluded)
      | Some img =>
          let include :=
            default false (get_or (cl_include classification) false) in
          let category :=
            get_or (cl_category classification) "decorative_other" in
          let include := if valuable category then true else include in
          if include then
            match describe img category classification with
            | Some description => Some (included ++ [description], excluded)
            | None => None
            end
          else
            match exclude img category classification with
            | Some exclusion => Some (included, excluded ++ [exclusion])
            | None => None
            end
      end
  end.

(** The loop [for classification in classifications]: the two lists when it
    ends, or the classification at which it raised. *)
Fixpoint classify_loop (image_id_map : dict FilteredImage)
    (acc : list ImageDescription * list ExcludedImage)
    (classifications : list Classification)
    : Classification + (list ImageDescription * list ExcludedImage) :=
  match classifications with
  | [] => inr acc
  | classification :: rest =>
      match classify_step image_id_map acc classification with
      | Some acc => classify_loop image_id_map acc rest
      | None => inl classification
      end
  end.

(** What the call to the model and [parse_json_response] give for a batch:
    an exception, or the list under the key [images] of the parsed reply. *)
Inductive Reply : Type :=
  | Failed (message : string)
  | Parsed (classifications : list Classification).

Section Classify.

(** [str(e)] for the exception that the turn of the loop for a
    classification raises (the text of pydantic's [ValidationError], or of
    the [TypeError]). *)
Variable raised_text : Classification -> string.

(** [ImageClassifier.classify_batch]: [inl] is [str(e)] for the exception
    it lets through. *)
Definition classify_batch (images : list FilteredImage) (reply : Reply)
    : string + (list ImageDescription * list ExcludedImage) :=
  match images with
  | [] => inr ([], [])
  | _ =>
      match reply with
      | Failed message => inl message
      | Parsed classifications =>
          match classify_loop (build_id_map images) ([], []) classifications
          with
          | inr lists => inr lists
          | inl classification => inl (raised_text classification)
          end
      end
  end.

(** The reply for batch number [i]. *)
Variable reply_of : nat -> list FilteredImage -> Reply.

(** One turn of [for i, batch in enumerate(image_batches)] in [classify_all]. *)
Definition classify_all_step
    (acc : list ImageDescription * list ExcludedImage) (i : nat)
    (batch : list FilteredImage)
    : list ImageDescription * list ExcludedImage :=
  let '(all_included, all_excluded) := acc in
  match classify_batch batch (reply_of i batch) with
  | inr (included, excluded) =>
      (all_included ++ included, all_excluded ++ excluded)
  | inl message =>
      (all_included,
       all_excluded
       ++ map (fun img =>
                 {| x_image_id := image_id_of img;
                    x_local_path := fi_local_path img;
                    x_category := "error";
                    x_exclusion_reason := "Processing error: " +:+ message |})
              batch)
  end.

Fixpoint classify_all_loop
    (acc : list ImageDescription * list ExcludedImage) (i : nat)
    (image_batches : list (list FilteredImage))
    : list ImageDescription * list ExcludedImage :=
  match image_batches with
  | [] => acc
  | batch :: rest =>
      classify_all_loop (classify_all_step acc i batch) (S i) rest
  end.

(** [ImageClassifier.classify_all]: [included_images] and [excluded_images]
    of its result. *)
Definition classify_all (image_batches : list (list FilteredImage))
    : list ImageDescription * list ExcludedImage :=
  classify_all_loop ([], []) 0%nat image_batches.

End Classify.

(** The records of an image: its id and its path. *)
Definition describes (images : list FilteredImage) (d : ImageDescription)
    : Prop :=
  exists img, img ∈ images /\ d_image_id d = image_id_of img
              /\ d_local_path d = fi_local_path img.

Definition excludes (images : list FilteredImage) (x : ExcludedImage)
    : Prop :=
  exists img, img ∈ images /\ x_image_id x = image_id_of img
              /\ x_local_path x = fi_local_path img.

(** The record [classify_all] appends for an image of a batch whose
    classification raised [message]. *)
Definition error_record (img : FilteredImage) (message : string)
    : ExcludedImage :=
  {| x_image_id := image_id_of img;
     x_local_path := fi_local_path img;
     x_category := "error";
     x_exclusion_reason := "Processing error: " +:+ message |}.

End ImageClassifier.

(** ** Concrete inputs used in the examples of Part II *)

Module Examples.
Import PyStr PyData ImageFilter.

(** The sample list at the end of [image_filter.py]. *)
Definition sample_image (index : Z) (src alt : string) (width height : Z)
    (local_path : string) (file_size : Z) : RawImage := {|
  img_index := Some index; img_src := Some src; img_alt := Some alt;
  img_width := Val width; img_height := Val height;
  img_local_path := Some local_path; img_file_size := Some file_size
|}.

Definition sample_images : list RawImage :=
  [sample_image 0 "https://example.com/logo.svg" "logo" 100 50
     "images/img_000.svg" 1000;
   sample_image 1 "https://example.com/tracking.gif" "" 1 1
     "images/img_001.gif" 43;
   sample_image 2 "https://example.com/icn-close.svg" "" 20 20
     "images/img_002.svg" 500;
   sample_image 3 "https://example.com/hero-image.png" "Product dashboard"
     800 600 "images/img_003.png" 50000;
   sample_image 4 "https://example.com/feature-icon.svg" "Tax compliance"
     400 400 "images/img_004.svg" 15000;
   sample_image 5 "https://example.com/noext?id=123" "No extension" 300 200
     "images/img_005" 12000;
   sample_image 6 "https://example.com/photo.jpeg" "Valid jpeg" 640 480
     "images/img_006.jpeg" 42000].

(** A raster file whose source URL names an SVG. *)
Definition png_from_svg_url : RawImage := {|
  img_index := Some 7; img_src := Some "https://example.com/logo.svg";
  img_alt := Some "Company logo on white"; img_width := Val 640;
  img_height := Val 480; img_local_path := Some "images/img_007.png";
  img_file_size := Some 42000
|}.

(** The same kind of image, its dimensions unknown. *)
Definition unsized_from_svg_url : RawImage := {|
  img_index := Some 8; img_src := Some "https://example.com/Chart.SVG";
  img_alt := Some "Quarterly revenue chart"; img_width := Null;
  img_height := Missing; img_local_path := Some "images/img_008.png";
  img_file_size := Some 42000
|}.

(** An image of unknown dimensions with an ordinary source URL. *)
Definition unsized_photo : RawImage := {|
  img_index := Some 9; img_src := Some "https://example.com/team.jpg";
  img_alt := Some "The support team"; img_width := Null;
  img_height := Val 0; img_local_path := Some "images/img_009.jpg";
  img_file_size := Some 42000
|}.

(** A wide banner stored under an icon name: 200 by 50 pixels. *)
Definition wide_icon : RawImage := {|
  img_index := Some 4; img_src := Some "https://example.com/banner.png";
  img_alt := Some "Payroll overview banner"; img_width := Val 200;
  img_height := Val 50; img_local_path := Some "images/icn-banner.png";
  img_file_size := Some 42000
|}.

(** A small decorative icon: 60 by 60 pixels. *)
Definition small_icon : RawImage := {|
  img_index := Some 5; img_src := Some "https://example.com/check.png";
  img_alt := Some "Green check mark"; img_width := Val 60;
  img_height := Val 60; img_local_path := Some "images/icon-check.png";
  img_file_size := Some 42000
|}.


(** Two batches of one section each; the first call fails, and the reply to
    the second call describes a section under the id of the first. *)
Definition flat (id title : string) : KBGenerator.FlatSection := {|
  KBGenerator.f_id := Some id; KBGenerator.f_title := Some title;
  KBGenerator.f_level := Some 2; KBGenerator.f_type := Some "standalone";
  KBGenerator.f_section_type := None; KBGenerator.f_category := None;
  KBGenerator.f_extraction_hint := None; KBGenerator.f_parent_id := None
|}.

Definition overview_section : KBGenerator.KBSection :=
  KBGenerator.mkSection "overview" "Overview" 2
    "Payroll in one place." None [] [] [] None.

Definition two_batches : list (list KBGenerator.FlatSection) :=
  [[flat "overview" "Overview"]; [flat "pricing" "Pricing"]].

Definition first_fails (i : nat) (batch : list KBGenerator.FlatSection)
    : KBGenerator.BatchResult :=
  match i with
  | O => KBGenerator.Raised "Rate limit exceeded"
  | _ => KBGenerator.Extracted [overview_section]
  end.

Definition pricing_section : KBGenerator.KBSection :=
  KBGenerator.mkSection "pricing" "Pricing" 2
    "Plans start at ten dollars." None [] [] [] None.

Definition first_fails_only (i : nat) (batch : list KBGenerator.FlatSection)
    : KBGenerator.BatchResult :=
  match i with
  | O => KBGenerator.Raised "Rate limit exceeded"
  | _ => KBGenerator.Extracted [pricing_section]
  end.

(** A parent group with one child annotated [pricing], and an extracted
    child whose data already has a category. *)
Definition plans_child : KBGenerator.Child := {|
  KBGenerator.c_id := Some "plans"; KBGenerator.c_title := Some "Plans";
  KBGenerator.c_level := Some 3; KBGenerator.c_category := Some "pricing";
  KBGenerator.c_section_type := None
|}.

Definition plans_group : KBGenerator.Group := {|
  KBGenerator.g_id := Some "offer"; KBGenerator.g_title := Some "Offer";
  KBGenerator.g_level := Some 2; KBGenerator.g_type := Some "parent";
  KBGenerator.g_section_type := None; KBGenerator.g_category := None;
  KBGenerator.g_extraction_hint := None;
  KBGenerator.g_children := Some [plans_child]
|}.

Definition plans_section : KBGenerator.KBSection :=
  KBGenerator.mkSection "plans" "Plans" 3 "Three plans." None [] [] []
    (Some (<["category" := Json.JStr "packages"]>
             {["type" := Json.JStr "packages"]})).

Definition plans_extracted : dict KBGenerator.KBSection :=
  [("plans", plans_section)].


(** One batch of one image, and a reply that files it under [product_ui]
    while asking to leave it out. *)
Definition dashboard_image : FilteredImage := {|
  fi_index := 3; fi_local_path := "images/img_003.png";
  fi_src := "https://example.com/dashboard.png";
  fi_alt := "Payroll dashboard"; fi_width := Some 800;
  fi_height := Some 600; fi_file_size := 50000; fi_file_type := "png"
|}.

Definition dashboard_verdict : ImageClassifier.Classification := {|
  ImageClassifier.cl_image_id := Val "img_003";
  ImageClassifier.cl_include := Val false;
  ImageClassifier.cl_category := Val "product_ui";
  ImageClassifier.cl_description := Val "The payroll dashboard";
  ImageClassifier.cl_extracted_text := Missing;
  ImageClassifier.cl_stats := Missing;
  ImageClassifier.cl_exclusion_reason := Val "Looks decorative";
  ImageClassifier.cl_suggested_section := Missing
|}.

Definition dashboard_reply (i : nat) (batch : list FilteredImage)
    : ImageClassifier.Reply :=
  ImageClassifier.Parsed [dashboard_verdict].

End Examples.

(** ** [llm/client.py]: the retry loop of the API calls *)

Module ClientCalls.
Import PyStr.

(** What the body of the [try] in [call_text_only] and [call_with_images]
    does at one attempt: it returns the text of the reply, or it raises
    [anthropic.RateLimitError], another [anthropic.APIError], or an
    exception of another class. *)
Inductive Attempt : Type :=
  | Replied (text : string)
  | RateLimitError (message : string)
  | APIError (message : string)
  | OtherException (message : string).

(** How the call ends: with the reply, with the exception of an attempt, or
    with the [Exception] raised below the loop. *)
Inductive CallOutcome : Type :=
  | Returned (text : string)
  | Propagated (e : Attempt)
  | GaveUp (message : string).

(** [config.MAX_RETRIES] *)
Definition MAX_RETRIES : Z := 5.

(** The exceptions after which the loop may go on. *)
Definition retryable (a : Attempt) : Prop :=
  match a with
  | RateLimitError _ | APIError _ => True
  | _ => False
  end.

Section Call.

(** The attempt number [attempt] of [self.client.messages.create]. *)
Variable create : nat -> Attempt.
Variable max_retries : Z.

(** [for attempt in range(self.max_retries)] from turn [attempt] on, with
    [turns] turns left, and the [raise] below it.  The second component
    counts the calls of [time.sleep(RETRY_DELAY_SECONDS)]. *)
Fixpoint attempts (turns attempt : nat) : CallOutcome * nat :=
  match turns with
  | O =>
      (GaveUp ("Failed after " +:+ str_of_int max_retries +:+ " attempts"),
       0%nat)
  | S turns' =>
      match create attempt with
      | Replied text => (Returned text, 0%nat)
      | RateLimitError _ =>
          let '(outcome, sleeps) := attempts turns' (S attempt) in
          (outcome, S sleeps)
      | APIError message =>
          if Z.of_nat attempt <? max_retries - 1 then
            let '(outcome, sleeps) := attempts turns' (S attempt) in
            (outcome, S sleeps)
          else (Propagated (APIError message), 0%nat)
      | OtherException message => (Propagated (OtherException message), 0%nat)
      end
  end.

(** [ClaudeClient.call_text_only]; [call_with_images] runs the same loop. *)
Definition call_text_only : CallOutcome * nat :=
  attempts (Z.to_nat max_retries) 0%nat.

End Call.

End ClientCalls.

(** ** [main.py]: the progress report and the loop over the folders *)

Module Main.
Import PyStr PyData.

(** The entries of the dictionary [HTMLKnowledgeBaseExtractor.process]
    returns that the report reads. *)
Record ProcessResult := {
  pr_source_url : string;
  pr_page_title : string;
  pr_sections : Z;
  pr_images_included : Z;
  pr_kb_path : string
}.

(** One entry of [data["folders"]]. *)
Record FolderEntry := {
  fe_status : option string;
  fe_started_at : option string;
  fe_completed_at : option string;
  fe_error : option string;
  fe_result : option ProcessResult
}.

(** [data["summary"]] *)
Record Summary := {
  sm_total_folders : Z;
  sm_processed : Z;
  sm_failed : Z;
  sm_skipped : Z;
  sm_pending : Z
}.

(** [ProgressReport.data], without its two time stamps. *)
Record ProgressReport := {
  rp_summary : Summary;
  rp_folders : dict FolderEntry
}.

(** The report [_load_or_create] makes when there is no file. *)
Definition new_report : ProgressReport := {|
  rp_summary := {| sm_total_folders := 0; sm_processed := 0; sm_failed := 0;
                   sm_skipped := 0; sm_pending := 0 |};
  rp_folders := []
|}.

(** [ProgressReport.is_processed] *)
Definition is_processed (report : ProgressReport) (folder_name : string)
    : bool :=
  match dict_get folder_name (rp_folders report) with
  | Some folder_data => bool_decide (fe_status folder_data = Some "success")
  | None => false
  end.

(** [self.data["folders"].get(folder_name, {}).get("started_at")] *)
Definition started_at_of (report : ProgressReport) (folder_name : string)
    : option string :=
  match dict_get folder_name (rp_folders report) with
  | Some folder_data => fe_started_at folder_data
  | None => None
  end.

(** [statuses.count(x)] *)
Fixpoint py_count (x : option string) (statuses : list (option string)) : Z :=
  match statuses with
  | [] => 0
  | s :: rest => (if bool_decide (s = x) then 1 else 0) + py_count x rest
  end.

(** [ProgressReport._update_summary] *)
Definition _update_summary (report : ProgressReport) : ProgressReport :=
  let statuses := map (fun entry => fe_status entry.2) (rp_folders report) in
  {| rp_summary :=
       {| sm_total_folders := Z.of_nat (length statuses);
          sm_processed := py_count (Some "success") statuses;
          sm_failed := py_count (Some "failed") statuses;
          sm_skipped := py_count (Some "skipped") statuses;
          sm_pending :=
            py_count (Some "processing") statuses + py_count None statuses |};
     rp_folders := rp_folders report |}.

(** [ProgressReport.mark_started]; [now] is what [datetime.now()] gives. *)
Definition mark_started (report : ProgressReport) (folder_name now : string)
    : ProgressReport :=
  {| rp_summary := rp_summary report;
     rp_folders :=
       dict_set folder_name
         {| fe_status := Some "processing"; fe_started_at := Some now;
            fe_completed_at := None; fe_error := None; fe_result := None |}
         (rp_folders report) |}.

(** [ProgressReport.mark_success] *)
Definition mark_success (report : ProgressReport) (folder_name : string)
    (result : ProcessResult) (now : string) : ProgressReport :=
  _update_summary
    {| rp_summary := rp_summary report;
       rp_folders :=
         dict_set folder_name
           {| fe_status := Some "success";
              fe_started_at := started_at_of report folder_name;
              fe_completed_at := Some now; fe_error := None;
              fe_result := Some result |}
           (rp_folders report) |}.

(** [ProgressReport.mark_failed] *)
Definition mark_failed (report : ProgressReport) (folder_name error now : string)
    : ProgressReport :=
  _update_summary
    {| rp_summary := rp_summary report;
       rp_folders :=
         dict_set folder_name
           {| fe_status := Some "failed";
              fe_started_at := started_at_of report folder_name;
              fe_completed_at := Some now; fe_error := Some error;
              fe_result := None |}
           (rp_folders report) |}.

(** [ProgressReport.mark_skipped] *)
Definition mark_skipped (report : ProgressReport)
    (folder_name reason now : string) : ProgressReport :=
  _update_summary
    {| rp_summary := rp_summary report;
       rp_folders :=
         dict_set folder_name
           {| fe_status := Some "skipped"; fe_started_at := None;
              fe_completed_at := Some now; fe_error := Some reason;
              fe_result := None |}
           (rp_folders report) |}.

(** [ProgressReport.set_total_folders] *)
Definition set_total_folders (report : ProgressReport) (count : Z)
    : ProgressReport :=
  {| rp_summary :=
       {| sm_total_folders := count;
          sm_processed := sm_processed (rp_summary report);
          sm_failed := sm_failed (rp_summary report);
          sm_skipped := sm_skipped (rp_summary report);
          sm_pending := sm_pending (rp_summary report) |};
     rp_folders := rp_folders report |}.

(** [ProgressReport.get_summary_string] *)
Definition get_summary_string (report : ProgressReport) : string :=
  let s := rp_summary report in
  "Processed: " +:+ str_of_int (sm_processed s) +:+ "/"
  +:+ str_of_int (sm_total_folders s) +:+ " | Failed: "
  +:+ str_of_int (sm_failed s) +:+ " | Skipped: " +:+ str_of_int (sm_skipped s).

(** An exception: whether its class is [FileNotFoundError], and [str(e)]. *)
Record Exc := {
  exc_file_not_found : bool;
  exc_message : string
}.

(** What one call of [extractor.process] does. *)
Inductive ProcessAttempt : Type :=
  | Processed (result : ProcessResult)
  | Threw (e : Exc).

Inductive RetryOutcome : Type :=
  | Done (result : ProcessResult)
  | Reraised (e : Exc)
  | RetriesExhausted (message : string).

(** The test on [error_str] in [process_with_rate_limit_retry]. *)
Definition looks_rate_limited (e : Exc) : bool :=
  let error_str := lower (exc_message e) in
  contains "rate" error_str || contains "limit" error_str
  || contains "429" error_str || contains "token" error_str.

Section Retry.

(** The attempt number [attempt] of [extractor.process] on the folder. *)
Variable process : nat -> ProcessAttempt.
Variable max_retries : Z.

(** [for attempt in range(max_retries)] from turn [attempt] on, with
    [turns] turns left, and the [raise] below it; the second component
    counts the calls of [time.sleep(rate_limit_wait)]. *)
Fixpoint retry_from (turns attempt : nat) : RetryOutcome * nat :=
  match turns with
  | O =>
      (RetriesExhausted ("Failed after " +:+ str_of_int max_retries
                         +:+ " retries due to rate limiting"), 0%nat)
  | S turns' =>
      match process attempt with
      | Processed result => (Done result, 0%nat)
      | Threw e =>
          if looks_rate_limited e && (Z.of_nat attempt <? max_retries - 1)
          then
            let '(outcome, sleeps) := retry_from turns' (S attempt) in
            (outcome, S sleeps)
          else (Reraised e, 0%nat)
      end
  end.

(** [process_with_rate_limit_retry] *)
Definition process_with_rate_limit_retry : RetryOutcome * nat :=
  retry_from (Z.to_nat max_retries) 0%nat.

End Retry.

Section ProcessAll.

(** The attempt number [attempt] of [extractor.process] on the folder at
    place [i] of the list. *)
Variable process : nat -> nat -> ProcessAttempt.

(** The reading number [n] of the clock. *)
Variable clock : nat -> string.

Variable skip_processed : bool.

(** One turn of [for i, folder in enumerate(folders, 1)]: the report, and
    the number of clock readings so far. *)
Definition folder_step (state : ProgressReport * nat) (i : nat)
    (folder_name : string) : ProgressReport * nat :=
  let '(report, ticks) := state in
  if skip_processed && is_processed report folder_name then (report, ticks)
  else
    let report := mark_started report folder_name (clock ticks) in
    let now := clock (S ticks) in
    let report :=
      match (process_with_rate_limit_retry (process i) 3).1 with
      | Done result => mark_success report folder_name result now
      | Reraised e =>
          if exc_file_not_found e
          then mark_skipped report folder_name (exc_message e) now
          else mark_failed report folder_name (exc_message e) now
      | RetriesExhausted message => mark_failed report folder_name message now
      end in
    (report, S (S ticks)).

Fixpoint folder_loop (state : ProgressReport * nat) (i : nat)
    (folders : list string) : ProgressReport * nat :=
  match folders with
  | [] => state
  | folder_name :: rest =>
      folder_loop (folder_step state i folder_name) (S i) rest
  end.

(** [process_all_folders], from the list [discover_folders] found. *)
Definition process_all_folders (folders : list string)
    (report : ProgressReport) : ProgressReport :=
  match folders with
  | [] => report
  | _ =>
      (folder_loop (set_total_folders report (Z.of_nat (length folders)), 0%nat)
         1%nat folders).1
  end.

End ProcessAll.

(** The number of entries of the report once [folder_name] has one. *)
Definition entries_with (report : ProgressReport) (folder_name : string) : Z :=
  Z.of_nat (length (rp_folders report))
  + match dict_get folder_name (rp_folders report) with
    | Some _ => 0
    | None => 1
    end.

(** The summary counts [entries] folders, and its four other counts do not
    add up to more. *)
Definition summary_counts (report : ProgressReport) (entries : Z) : Prop :=
  sm_total_folders (rp_summary report) = entries
  /\ sm_processed (rp_summary report) + sm_failed (rp_summary report)
     + sm_skipped (rp_summary report) + sm_pending (rp_summary report)
     <= sm_total_folders (rp_summary report).

(** The statuses [mark_success], [mark_failed] and [mark_skipped] write. *)
Definition final_status (entry : FolderEntry) : Prop :=
  fe_status entry = Some "success" \/ fe_status entry = Some "failed"
  \/ fe_status entry = Some "skipped".

(** The report has an entry for the folder, with a final status. *)
Definition settled (report : ProgressReport) (folder_name : string) : Prop :=
  exists entry,
    dict_get folder_name (rp_folders report) = Some entry
    /\ final_status entry.

End Main.

(** ** Further sample data *)

Module Scenarios.
Import Main.

Definition pricing_result : ProcessResult := {|
  pr_source_url := "https://example.com/pricing";
  pr_page_title := "Pricing"; pr_sections := 4; pr_images_included := 1;
  pr_kb_path := "kb_pricing_knowledge_base.json"
|}.

(** The first attempt meets a rate limit, the next ones succeed. *)
Definition flaky_process (attempt : nat) : ProcessAttempt :=
  match attempt with
  | O => Threw {| exc_file_not_found := false;
                  exc_message := "Error 429: Rate limit" |}
  | _ => Processed pricing_result
  end.

(** Every folder lacks its HTML file. *)
Definition missing_files (i attempt : nat) : ProcessAttempt :=
  Threw {| exc_file_not_found := true;
           exc_message := "No *_dom.html file found" |}.

Definition midnight (reading : nat) : string := "2025-02-02T00:00:00".

(** The entry of a folder that succeeded in an earlier run. *)
Definition pricing_entry : FolderEntry := {|
  fe_status := Some "success";
  fe_started_at := Some "2025-01-01T00:00:00";
  fe_completed_at := Some "2025-01-01T00:05:00";
  fe_error := None; fe_result := Some pricing_result
|}.

Definition earlier_report : ProgressReport := {|
  rp_summary := {| sm_total_folders := 1; sm_processed := 1; sm_failed := 0;
                   sm_skipped := 0; sm_pending := 0 |};
  rp_folders := [("pricing", pricing_entry)]
|}.

(** A group as the reply of the model may hold it: the level is [null]. *)
Definition pricing_without_level : KBGenerator.RawGroup := {|
  KBGenerator.rg_id := ImageFilter.Val "pricing";
  KBGenerator.rg_title := ImageFilter.Val "Pricing";
  KBGenerator.rg_level := ImageFilter.Null;
  KBGenerator.rg_type := ImageFilter.Val "standalone";
  KBGenerator.rg_section_type := ImageFilter.Null;
  KBGenerator.rg_category := ImageFilter.Null;
  KBGenerator.rg_extraction_hint := ImageFilter.Missing;
  KBGenerator.rg_children := ImageFilter.Missing
|}.

(** A parent group without [null]: one child is extracted, the other is
    not. *)
Definition offer_group : KBGenerator.RawGroup := {|
  KBGenerator.rg_id := ImageFilter.Val "offer";
  KBGenerator.rg_title := ImageFilter.Val "Offer";
  KBGenerator.rg_level := ImageFilter.Val 2;
  KBGenerator.rg_type := ImageFilter.Val "parent";
  KBGenerator.rg_section_type := ImageFilter.Null;
  KBGenerator.rg_category := ImageFilter.Null;
  KBGenerator.rg_extraction_hint := ImageFilter.Missing;
  KBGenerator.rg_children :=
    ImageFilter.Val
      [ {| KBGenerator.rc_id := ImageFilter.Val "plans";
           KBGenerator.rc_title := ImageFilter.Val "Plans";
           KBGenerator.rc_level := ImageFilter.Val 3;
           KBGenerator.rc_category := ImageFilter.Val "pricing";
           KBGenerator.rc_section_type := ImageFilter.Null |};
        {| KBGenerator.rc_id := ImageFilter.Val "add_ons";
           KBGenerator.rc_title := ImageFilter.Val "Add-ons";
           KBGenerator.rc_level := ImageFilter.Null;
           KBGenerator.rc_category := ImageFilter.Null;
           KBGenerator.rc_section_type := ImageFilter.Null |} ]
|}.

(** Every extraction call times out. *)
Definition always_fails (i : nat) (batch : list KBGenerator.FlatSection)
    : KBGenerator.BatchResult :=
  KBGenerator.Raised "Request timed out".

(** A second file saved under the index of [dashboard_image], and an image
    with an index of its own. *)
Definition dashboard_retina : ImageFilter.FilteredImage := {|
  ImageFilter.fi_index := 3;
  ImageFilter.fi_local_path := "images/img_003@2x.png";
  ImageFilter.fi_src := "https://example.com/dashboard@2x.png";
  ImageFilter.fi_alt := "Payroll dashboard";
  ImageFilter.fi_width := Some 1600; ImageFilter.fi_height := Some 1200;
  ImageFilter.fi_file_size := 180000; ImageFilter.fi_file_type := "png"
|}.

Definition team_photo : ImageFilter.FilteredImage := {|
  ImageFilter.fi_index := 12;
  ImageFilter.fi_local_path := "images/img_012.jpg";
  ImageFilter.fi_src := "https://example.com/team.jpg";
  ImageFilter.fi_alt := "Our team";
  ImageFilter.fi_width := Some 640; ImageFilter.fi_height := Some 480;
  ImageFilter.fi_file_size := 42000; ImageFilter.fi_file_type := "jpg"
|}.

(** A reply as the classification prompt asks for it: the image is filed
    under [product_ui] with [include] false, and the entries the prompt
    wants "only if include=true" are [null]. *)
Definition prompted_verdict : ImageClassifier.Classification := {|
  ImageClassifier.cl_image_id := ImageFilter.Val "img_003";
  ImageClassifier.cl_include := ImageFilter.Val false;
  ImageClassifier.cl_category := ImageFilter.Val "product_ui";
  ImageClassifier.cl_description := ImageFilter.Null;
  ImageClassifier.cl_extracted_text := ImageFilter.Null;
  ImageClassifier.cl_stats := ImageFilter.Null;
  ImageClassifier.cl_exclusion_reason := ImageFilter.Val "Generic screenshot";
  ImageClassifier.cl_suggested_section := ImageFilter.Null
|}.

Definition prompted_reply (i : nat) (batch : list ImageFilter.FilteredImage)
    : ImageClassifier.Reply :=
  ImageClassifier.Parsed [prompted_verdict].

(** A reply whose [stats] are strings, not objects. *)
Definition loose_stats_verdict : ImageClassifier.Classification := {|
  ImageClassifier.cl_image_id := ImageFilter.Val "img_003";
  ImageClassifier.cl_include := ImageFilter.Val true;
  ImageClassifier.cl_category := ImageFilter.Val "stats_data";
  ImageClassifier.cl_description := ImageFilter.Val "Uptime figures";
  ImageClassifier.cl_extracted_text := ImageFilter.Missing;
  ImageClassifier.cl_stats := ImageFilter.Val [Json.JStr "95%"];
  ImageClassifier.cl_exclusion_reason := ImageFilter.Missing;
  ImageClassifier.cl_suggested_section := ImageFilter.Missing
|}.

(** A text for the exceptions raised inside [classify_batch]. *)
Definition validation_text (classification : ImageClassifier.Classification)
    : string :=
  "1 validation error for ImageDescription".

(** The classification of every batch fails. *)
Definition classifier_down (i : nat) (batch : list ImageFilter.FilteredImage)
    : ImageClassifier.Reply :=
  ImageClassifier.Failed "Overloaded".

End Scenarios.

(* ===================================================================== *)
(** * Part II: lemmas and theorems                                        *)
(* ===================================================================== *)

(** ** Facts about the string functions *)

Module PyStrFacts.
Import PyStr.

Lemma str_app_nil_l (s : string) : "" +:+ s = s.
Proof. reflexivity. Qed.

Lemma str_app_cons (c : ascii) (a b : string) :
  String c a +:+ b = String c (a +:+ b).
Proof. reflexivity. Qed.

Lemma str_app_nil_r (s : string) : s +:+ "" = s.
Proof. induction s as [|c s IH]; [done|]. by rewrite str_app_cons, IH. Qed.

Lemma str_app_assoc (a b c : string) : (a +:+ b) +:+ c = a +:+ (b +:+ c).
Proof. induction a as [|x a IH]; [done|]. by rewrite !str_app_cons, IH. Qed.

Lemma str_length_app (a b : string) :
  String.length (a +:+ b) = (String.length a + String.length b)%nat.
Proof. induction a as [|x a IH]; [done|]. rewrite str_app_cons. simpl. lia. Qed.

Lemma drop_app_length (a b : string) : drop (String.length a) (a +:+ b) = b.
Proof.
  induction a as [|x a IH]; [by destruct b|]. by rewrite str_app_cons.
Qed.

Lemma eqb_true (a b : string) : String.eqb a b = true <-> a = b.
Proof. apply String.eqb_eq. Qed.

(** [endswith] is the suffix relation. *)
Lemma endswith_spec (suf s : string) :
  endswith suf s = true <-> exists q, s = q +:+ suf.
Proof.
  induction s as [|c s IH]; simpl.
  - rewrite orb_false_r, eqb_true. split.
    + intros ->. by exists "".
    + intros [[|x q] Hq]; [by rewrite str_app_nil_l in Hq|].
      by rewrite str_app_cons in Hq.
  - rewrite orb_true_iff, eqb_true, IH. split.
    + intros [->|[q ->]]; [by exists ""|]. by exists (String c q).
    + intros [[|x q] Hq]; [left; by rewrite str_app_nil_l in Hq|].
      rewrite str_app_cons in Hq. injection Hq as -> ->. right. by exists q.
Qed.

(** [lower] works character by character. *)
Lemma lower_app (a b : string) : lower (a +:+ b) = lower a +:+ lower b.
Proof.
  induction a as [|x a IH]; [done|]. rewrite str_app_cons. simpl.
  by rewrite IH, str_app_cons.
Qed.

Lemma lower_app_inv (s a b : string) :
  lower s = a +:+ b ->
  exists q w, s = q +:+ w /\ lower q = a /\ lower w = b.
Proof.
  revert s. induction a as [|x a IH]; intros s Hs.
  - exists "", s. by rewrite str_app_nil_l in Hs.
  - destruct s as [|c s]; [done|]. rewrite str_app_cons in Hs. simpl in Hs.
    injection Hs as Hc Hs. destruct (IH _ Hs) as (q & w & -> & <- & <-).
    exists (String c q), w. rewrite str_app_cons. simpl. by rewrite Hc.
Qed.

Lemma startswith_lower (p s : string) :
  startswith p s = true -> startswith (lower p) (lower s) = true.
Proof.
  revert s. induction p as [|a p IH]; intros [|b s]; simpl; try done.
  rewrite !andb_true_iff, !Ascii.eqb_eq. intros [-> H]. auto.
Qed.

Lemma contains_lower (sub s : string) :
  contains sub s = true -> contains (lower sub) (lower s) = true.
Proof.
  induction s as [|c s IH]; simpl.
  - rewrite !orb_false_r. apply (startswith_lower sub "").
  - rewrite !orb_true_iff. intros [H|H]; [left|right; auto].
    apply (startswith_lower sub (String c s) H).
Qed.

(** Only a dot lowers to a dot, and a slash never appears by lowering. *)
Lemma lower_char_dot (c : ascii) : lower_char c = "."%char -> c = "."%char.
Proof. destruct c as [[] [] [] [] [] [] [] []]; by vm_compute. Qed.

Lemma lower_char_no_dot (c x : ascii) :
  lower_char c = x -> x <> "."%char -> Ascii.eqb c "." = false.
Proof.
  intros <- Hx. apply Ascii.eqb_neq. intros ->. by apply Hx.
Qed.

Lemma lower_char_letter (c x : ascii) :
  lower_char c = x -> (97 <= N_of_ascii x <= 122)%N ->
  Ascii.eqb c "/" = false /\ Ascii.eqb c "." = false
  /\ Ascii.eqb "." c = false.
Proof.
  intros <-. destruct c as [[] [] [] [] [] [] [] []]; vm_compute;
    intros [H1 H2]; try done; exfalso; (by apply H1 || by apply H2).
Qed.

(** [split_on] around a final stretch without separator. *)
Lemma split_on_no_sep (sep : ascii) (w : string) :
  has_char sep w = false -> split_on sep w = [w].
Proof.
  induction w as [|c w IH]; simpl; [done|].
  rewrite orb_false_iff. intros [Hc Hw].
  rewrite Ascii.eqb_sym, Hc. by rewrite (IH Hw).
Qed.

Lemma split_on_app_last (sep : ascii) (q w : string) :
  has_char sep w = false ->
  exists init r, split_on sep (q +:+ w) = init ++ [r +:+ w].
Proof.
  intros Hw. induction q as [|c q (init & r & IH)].
  - exists [], "". by rewrite str_app_nil_l, split_on_no_sep.
  - rewrite str_app_cons. simpl. destruct (Ascii.eqb c sep).
    + exists ("" :: init), r. by rewrite IH.
    + rewrite IH. destruct init as [|h t].
      * exists [], (String c r). by rewrite str_app_cons.
      * by exists (String c h :: t), r.
Qed.

Lemma rfind_none (c : ascii) (s : string) :
  has_char c s = false -> rfind c s = None.
Proof.
  induction s as [|d s IH]; simpl; [done|].
  rewrite orb_false_iff. intros [Hd Hs].
  by rewrite (IH Hs), Ascii.eqb_sym, Hd.
Qed.

Lemma rfind_app_last (c : ascii) (r t : string) :
  has_char c t = false ->
  rfind c (r +:+ String c t) = Some (String.length r).
Proof.
  intros Ht. induction r as [|d r IH].
  - rewrite str_app_nil_l. simpl. by rewrite (rfind_none _ _ Ht), Ascii.eqb_refl.
  - rewrite str_app_cons. simpl. by rewrite IH.
Qed.

End PyStrFacts.

(** ** The image filter *)

Module ImageFilterFacts.
Import PyStr PyData ImageFilter PyStrFacts.

(** *** The extension gate *)

Lemma lower_char_s (c : ascii) :
  lower_char c = "s"%char -> c = "s"%char \/ c = "S"%char.
Proof.
  destruct c as [[] [] [] [] [] [] [] []]; vm_compute; intros H;
    (discriminate H || auto).
Qed.

Lemma lower_char_v (c : ascii) :
  lower_char c = "v"%char -> c = "v"%char \/ c = "V"%char.
Proof.
  destruct c as [[] [] [] [] [] [] [] []]; vm_compute; intros H;
    (discriminate H || auto).
Qed.

Lemma lower_char_g (c : ascii) :
  lower_char c = "g"%char -> c = "g"%char \/ c = "G"%char.
Proof.
  destruct c as [[] [] [] [] [] [] [] []]; vm_compute; intros H;
    (discriminate H || auto).
Qed.

(** The texts that lower to [.svg]. *)
Lemma lower_is_svg (w : string) :
  lower w = ".svg" ->
  exists c2 c3 c4,
    w = String "." (String c2 (String c3 (String c4 "")))
    /\ (c2 = "s" \/ c2 = "S")%char /\ (c3 = "v" \/ c3 = "V")%char
    /\ (c4 = "g" \/ c4 = "G")%char.
Proof.
  destruct w as [|c1 [|c2 [|c3 [|c4 [|c5 w]]]]]; simpl; try discriminate.
  intros [= H1 H2 H3 H4]. apply lower_char_dot in H1 as ->.
  exists c2, c3, c4.
  auto using lower_char_s, lower_char_v, lower_char_g.
Qed.

(** The name of a path that ends in a stretch [w] free of slashes ends in
    [w] too. *)
Lemma path_name_app (q w : string) :
  has_char "/" w = false -> (2 <= String.length w)%nat ->
  exists r, path_name (q +:+ w) = r +:+ w.
Proof.
  intros Hw Hlen. destruct (split_on_app_last "/" q w Hw) as (init & r & Hs).
  exists r. unfold path_name. rewrite Hs, filter_app.
  assert (r +:+ w <> "" /\ r +:+ w <> ".") as Hkeep.
  { split; intros Heq; apply (f_equal String.length) in Heq;
      rewrite str_length_app in Heq; simpl in Heq; lia. }
  rewrite filter_cons_True by exact Hkeep. rewrite filter_nil.
  by rewrite last_snoc.
Qed.

(** A local path that ends in [.svg], in any case, has the file type [svg]
    or none at all. *)
Lemma svg_file_type (p : string) :
  endswith ".svg" (lower p) = true ->
  file_type_of p = "svg" \/ file_type_of p = "".
Proof.
  intros H. apply endswith_spec in H as [a Ha].
  apply lower_app_inv in Ha as (q & w & -> & _ & Hw).
  apply lower_is_svg in Hw as (c2 & c3 & c4 & -> & H2 & H3 & H4).
  set (t := String c2 (String c3 (String c4 ""))).
  assert (has_char "/" (String "." t) = false) as Hslash
    by (destruct H2 as [-> | ->], H3 as [-> | ->], H4 as [-> | ->]; done).
  assert (has_char "." t = false) as Hdot
    by (destruct H2 as [-> | ->], H3 as [-> | ->], H4 as [-> | ->]; done).
  assert (lower (lstrip (Ascii.eqb ".") (String "." t)) = "svg") as Hlow
    by (destruct H2 as [-> | ->], H3 as [-> | ->], H4 as [-> | ->]; done).
  destruct (path_name_app q (String "." t) Hslash) as [r Hname];
    [simpl; lia|].
  unfold file_type_of, path_suffix. rewrite Hname.
  rewrite (rfind_app_last "." r t Hdot), str_length_app, drop_app_length.
  destruct (truthy (q +:+ String "." t)); [|by right].
  replace (S (String.length r) <? String.length r
                                  + String.length (String "." t))%nat
    with true by (symmetry; apply Nat.ltb_lt; simpl; lia).
  destruct r as [|x r]; simpl Nat.ltb; simpl andb; [by right|].
  left. exact Hlow.
Qed.

(** Such a path never passes the extension check of [filter_images]. *)
Lemma svg_path_rejected (p : string) :
  endswith ".svg" (lower p) = true ->
  negb (truthy (file_type_of p))
  || negb (bool_decide (file_type_of p ∈ allowed_ext)) = true.
Proof.
  intros H. by destruct (svg_file_type p H) as [-> | ->].
Qed.

(** *** The loop of [filter_images] *)

Lemma filter_fold (config : FilterConfig) (images : list RawImage)
    (passed : list FilteredImage) (skipped : list SkippedImage) (st : Stats) :
  fst (fold_left (filter_step config) images (passed, skipped, st))
  = (passed ++ omap (passed_of config) images,
     skipped ++ omap (skipped_of config) images).
Proof.
  revert passed skipped st.
  induction images as [|img images IH]; intros passed skipped st; simpl.
  - by rewrite !app_nil_r.
  - unfold passed_of, skipped_of.
    destruct (loop_body config img) as [f|k]; rewrite IH; simpl;
      by rewrite <- ?app_assoc.
Qed.

(** [filter_images] sends each image's record to one of the two lists, in
    the order of the input. *)
Lemma filter_images_unfold (config : FilterConfig) (images : list RawImage) :
  filter_images config images
  = (omap (passed_of config) images, omap (skipped_of config) images).
Proof. unfold filter_images, filter_images_state. by rewrite filter_fold. Qed.

Lemma skipped_elem (config : FilterConfig) (images : list RawImage)
    (img : RawImage) (k : SkippedImage) :
  img ∈ images -> loop_body config img = inr k ->
  k ∈ (filter_images config images).2.
Proof.
  intros Hin Hk. rewrite filter_images_unfold. simpl.
  apply list_elem_of_omap. exists img. split; [done|].
  unfold skipped_of. by rewrite Hk.
Qed.

Lemma passed_elem (config : FilterConfig) (images : list RawImage)
    (img : RawImage) (f : FilteredImage) :
  img ∈ images -> loop_body config img = inl f ->
  f ∈ (filter_images config images).1.
Proof.
  intros Hin Hf. rewrite filter_images_unfold. simpl.
  apply list_elem_of_omap. exists img. split; [done|].
  unfold passed_of. by rewrite Hf.
Qed.

(** The sample list of the source file: the two raster images pass, the
    five others stop at the extension check. *)
Example sample_images_outcome :
  (map fi_index (filter_images IMAGE_FILTER_CONFIG Examples.sample_images).1,
   map (fun k => (si_index k, skip_reason k, pattern_matched k))
     (filter_images IMAGE_FILTER_CONFIG Examples.sample_images).2)
  = ([3; 6],
     [(0, "unsupported_format", Some "svg");
      (1, "unsupported_format", Some "gif");
      (2, "unsupported_format", Some "svg");
      (4, "unsupported_format", Some "svg");
      (5, "unsupported_format", Some "no_extension")]).
Proof. vm_compute. reflexivity. Qed.

(** *** What a skipped record says *)

Ltac in_list := apply (bool_decide_unpack _); vm_compute; exact I.

Lemma rules_reason (config : FilterConfig) (img : RawImage)
    (reason pattern : string) :
  rules_before_icon_path config img = Some (reason, pattern) ->
  reason ∈ ["svg_not_supported"; "tracking_pixel"; "tiny_icon"; "tiny_file";
            "ui_pattern"; "tracking_url"; "alt_pattern"].
Proof.
  unfold rules_before_icon_path.
  repeat case_match; intros [= <- <-]; in_list.
Qed.

Lemma should_skip_cases (config : FilterConfig) (img : RawImage) :
  _should_skip config img = (None, None)
  \/ exists reason pattern,
       _should_skip config img = (Some reason, Some pattern)
       /\ truthy reason = true /\ reason ∈ SKIP_REASONS.
Proof.
  unfold _should_skip.
  destruct (rules_before_icon_path config img) as [[reason pattern]|] eqn:Hr.
  - right. exists reason, pattern. apply rules_reason in Hr.
    repeat (apply elem_of_cons in Hr as [-> | Hr]);
      try (split; [done|split; [done|in_list]]).
    by apply elem_of_nil in Hr.
  - destruct (icon_loop _ _ _ _) as [pattern|]; [right|by left].
    exists "icon_path", pattern. split; [done|split; [done|in_list]].
Qed.

Lemma loop_body_reason (config : FilterConfig) (img : RawImage)
    (k : SkippedImage) :
  loop_body config img = inr k -> skip_reason k ∈ SKIP_REASONS.
Proof.
  unfold loop_body.
  destruct (negb (truthy _)); [intros [= <-]; in_list|].
  destruct (_ || _); [intros [= <-]; in_list|].
  destruct (should_skip_cases config img) as [-> | (r & p & -> & Ht & Hr)];
    simpl; [done|].
  rewrite Ht. by intros [= <-].
Qed.

Lemma loop_body_index (config : FilterConfig) (img : RawImage) :
  match loop_body config img with
  | inl f => fi_index f
  | inr k => si_index k
  end = default 0 (img_index img).
Proof.
  unfold loop_body.
  destruct (negb (truthy _)); [done|]. destruct (_ || _); [done|].
  destruct (_should_skip config img) as [reason pattern].
  by destruct (truthy (default "" reason)).
Qed.

Lemma allowed_passes (file_type : string) :
  file_type ∈ allowed_ext ->
  negb (truthy file_type)
  || negb (bool_decide (file_type ∈ allowed_ext)) = false.
Proof.
  intros H. unfold allowed_ext in H.
  repeat (apply elem_of_cons in H as [-> | H]); try done.
  by apply elem_of_nil in H.
Qed.

Lemma allowed_not_svg (local_path : string) :
  file_type_of local_path ∈ allowed_ext ->
  endswith ".svg" (lower local_path) = false.
Proof.
  intros Hext. destruct (endswith _ _) eqn:He; [|done].
  apply svg_path_rejected in He. by rewrite (allowed_passes _ Hext) in He.
Qed.

(** C7. [filter_images] partitions its input: every image contributes one
    record to exactly one of [passed] and [skipped], in input order, so the
    two lists together hold as many records as there are images and their
    [index] fields are those of the input; with pairwise distinct indices no
    index is in both lists; and every skipped record carries one of the ten
    documented reasons. *)
Theorem filter_images_partition (config : FilterConfig)
    (images : list RawImage) :
  (filter_images config images).1 = omap (passed_of config) images
  /\ (filter_images config images).2 = omap (skipped_of config) images
  /\ (forall img, is_Some (passed_of config img)
                  <-> skipped_of config img = None)
  /\ (length (filter_images config images).1
      + length (filter_images config images).2 = length images)%nat
  /\ map fi_index (filter_images config images).1
     ++ map si_index (filter_images config images).2
     ≡ₚ map (fun img => default 0 (img_index img)) images
  /\ (NoDup (map (fun img => default 0 (img_index img)) images) ->
      forall f k, f ∈ (filter_images config images).1 ->
                  k ∈ (filter_images config images).2 ->
                  fi_index f <> si_index k)
  /\ Forall (fun k => skip_reason k ∈ SKIP_REASONS)
       (filter_images config images).2.
Proof.
  rewrite filter_images_unfold. simpl.
  assert (map fi_index (omap (passed_of config) images)
          ++ map si_index (omap (skipped_of config) images)
          ≡ₚ map (fun img => default 0 (img_index img)) images) as Hperm.
  { induction images as [|img images IH]; simpl; [done|].
    pose proof (loop_body_index config img) as Hi.
    unfold passed_of, skipped_of.
    destruct (loop_body config img) as [f|k]; simpl; rewrite <- Hi.
    - by constructor.
    - rewrite <- IH. symmetry. apply Permutation_middle. }
  split; [done|]. split; [done|]. split.
  { intros img. unfold passed_of, skipped_of.
    destruct (loop_body config img); split; intros H; done. }
  split.
  { apply Permutation_length in Hperm.
    by rewrite length_app, !length_map in Hperm. }
  split; [exact Hperm|]. split.
  - intros Hnd f k Hf Hk Heq.
    rewrite <- Hperm in Hnd. apply NoDup_app in Hnd as (_ & Hdisj & _).
    apply (Hdisj (fi_index f)).
    + apply list_elem_of_fmap. by exists f.
    + rewrite Heq. apply list_elem_of_fmap. by exists k.
  - apply Forall_forall. intros k Hk.
    apply list_elem_of_omap in Hk as (img & _ & Hk).
    unfold skipped_of in Hk.
    destruct (loop_body config img) eqn:Hb; [done|].
    injection Hk as ->. by apply (loop_body_reason config img).
Qed.

(** *** The SVG rule *)

(** C6, as the code has it.  A skipped record with the reason
    [svg_not_supported] comes from an image whose local path passed the
    extension check, so does not end in [.svg], and whose source URL ends in
    [.svg] (in any case): the local-path half of the SVG rule never fires,
    the source-URL half does. *)
Theorem svg_reason_only_from_src (config : FilterConfig)
    (images : list RawImage) (k : SkippedImage) :
  k ∈ (filter_images config images).2 ->
  skip_reason k = "svg_not_supported" ->
  exists img,
    img ∈ images /\ loop_body config img = inr k
    /\ file_type_of (default "" (img_local_path img)) ∈ allowed_ext
    /\ endswith ".svg" (lower (default "" (img_local_path img))) = false
    /\ endswith ".svg" (lower (default "" (img_src img))) = true.
Proof.
  rewrite filter_images_unfold. simpl. intros Hk Hreason.
  apply list_elem_of_omap in Hk as (img & Hin & Hk).
  exists img. split; [done|]. unfold skipped_of in Hk.
  destruct (loop_body config img) as [f|k'] eqn:Hb; [done|].
  injection Hk as ->. split; [done|].
  revert Hb. unfold loop_body.
  destruct (negb (truthy _)); [by intros [= <-]|].
  destruct (_ || _) eqn:Hext; [by intros [= <-]|].
  apply orb_false_iff in Hext as [_ Hext].
  apply negb_false_iff, bool_decide_eq_true in Hext.
  pose proof (allowed_not_svg _ Hext) as Hpath.
  unfold _should_skip, rules_before_icon_path. rewrite Hpath. simpl orb.
  destruct (endswith ".svg" (lower (default "" (img_src img)))) eqn:Hsrc;
    [done|].
  intros Hb. exfalso. revert Hb.
  repeat case_match; simplify_eq/=; intros [= <-]; simplify_eq/=.
Qed.

(** The rule at work on an image list of one raster file served from an SVG
    address. *)
Lemma svg_reason_only_from_src_witness :
  exists img,
    img ∈ [Examples.png_from_svg_url]
    /\ loop_body IMAGE_FILTER_CONFIG img
       = inr {| si_index := 7; si_local_path := "images/img_007.png";
                skip_reason := "svg_not_supported";
                pattern_matched :=
                  Some "SVG format not supported by Vision API";
                dimensions := None |}
    /\ file_type_of (default "" (img_local_path img)) ∈ allowed_ext
    /\ endswith ".svg" (lower (default "" (img_local_path img))) = false
    /\ endswith ".svg" (lower (default "" (img_src img))) = true.
Proof.
  apply (svg_reason_only_from_src IMAGE_FILTER_CONFIG
           [Examples.png_from_svg_url]).
  - vm_compute. apply list_elem_of_here.
  - reflexivity.
Defined.

(** C6 as stated fails: on this one-image list [filter_images] returns a
    skipped record whose reason is [svg_not_supported]. *)
Lemma svg_reason_reachable :
  filter_images IMAGE_FILTER_CONFIG [Examples.png_from_svg_url]
  = ([], [{| si_index := 7; si_local_path := "images/img_007.png";
             skip_reason := "svg_not_supported";
             pattern_matched := Some "SVG format not supported by Vision API";
             dimensions := None |}]).
Proof. vm_compute. reflexivity. Qed.

(** *** The icon-path rule *)

Lemma large_icon_spec (width height : Z) :
  large_icon width height = true
  <-> width <> 0 /\ height <> 0 /\ (100 < width \/ 100 < height).
Proof.
  unfold large_icon, nonzero.
  rewrite !andb_true_iff, orb_true_iff, !negb_true_iff, !Z.eqb_neq,
    !Z.ltb_lt.
  tauto.
Qed.

Lemma icon_loop_large (local_path : string) (width height : Z)
    (patterns : list string) :
  large_icon width height = true ->
  icon_loop local_path width height patterns = None.
Proof.
  intros H. induction patterns as [|pattern rest IH]; simpl; [done|].
  rewrite H. by destruct (contains pattern local_path).
Qed.

Lemma icon_loop_small (local_path : string) (width height : Z)
    (patterns : list string) (marker : string) :
  large_icon width height = false ->
  marker ∈ patterns -> contains marker local_path = true ->
  exists pattern,
    icon_loop local_path width height patterns = Some pattern.
Proof.
  intros H Hin Hc. induction patterns as [|pattern rest IH]; simpl.
  - by apply elem_of_nil in Hin.
  - rewrite H. destruct (contains pattern local_path) eqn:Hp; [by eexists|].
    apply elem_of_cons in Hin as [-> | Hin]; [congruence|auto].
Qed.

(** C5, as the code has it.  For an image that no earlier rule skips and
    whose local path contains one of the markers [icn-], [icon-], [/icons/]:
    it is kept when both dimensions are known and non-zero and at least one
    of them exceeds 100 pixels; otherwise it is skipped with the reason
    [icon_path]. *)
Theorem icon_path_rule (config : FilterConfig) (img : RawImage)
    (marker : string) :
  truthy (default "" (img_local_path img)) = true ->
  file_type_of (default "" (img_local_path img)) ∈ allowed_ext ->
  rules_before_icon_path config img = None ->
  marker ∈ ["icn-"; "icon-"; "/icons/"] ->
  contains marker (default "" (img_local_path img)) = true ->
  (default 0 (get (img_width img)) <> 0
   /\ default 0 (get (img_height img)) <> 0
   /\ (100 < default 0 (get (img_width img))
       \/ 100 < default 0 (get (img_height img))) ->
   exists f, loop_body config img = inl f)
  /\ (~ (default 0 (get (img_width img)) <> 0
         /\ default 0 (get (img_height img)) <> 0
         /\ (100 < default 0 (get (img_width img))
             \/ 100 < default 0 (get (img_height img)))) ->
      exists k, loop_body config img = inr k /\ skip_reason k = "icon_path").
Proof.
  intros Hpath Hext Hrules Hmarker Hc.
  assert (marker ∈ icon_patterns /\ lower marker = marker) as [Hm Hlow].
  { repeat (apply elem_of_cons in Hmarker as [-> | Hmarker]);
      try (split; [in_list|done]).
    by apply elem_of_nil in Hmarker. }
  apply contains_lower in Hc. rewrite Hlow in Hc.
  unfold loop_body, _should_skip.
  rewrite Hpath, (allowed_passes _ Hext), Hrules. simpl negb. cbv iota.
  rewrite <- large_icon_spec. split; intros Hlarge.
  - rewrite (icon_loop_large _ _ _ _ Hlarge). simpl. by eexists.
  - apply not_true_is_false in Hlarge.
    destruct (icon_loop_small _ _ _ _ _ Hlarge Hm Hc) as [pattern ->].
    simpl. by eexists.
Qed.

(** The rule on two images with an icon marker in their path: the icon of
    60 by 60 pixels is skipped, the banner of 200 by 50 pixels is kept. *)
Lemma icon_path_rule_witness :
  (exists k, loop_body IMAGE_FILTER_CONFIG Examples.small_icon = inr k
             /\ skip_reason k = "icon_path")
  /\ (exists f, loop_body IMAGE_FILTER_CONFIG Examples.wide_icon = inl f).
Proof.
  split.
  - apply (icon_path_rule IMAGE_FILTER_CONFIG Examples.small_icon "icon-").
    + reflexivity.
    + vm_compute. apply list_elem_of_further, list_elem_of_further,
        list_elem_of_here.
    + reflexivity.
    + apply list_elem_of_further, list_elem_of_here.
    + reflexivity.
    + simpl. lia.
  - apply (icon_path_rule IMAGE_FILTER_CONFIG Examples.wide_icon "icn-").
    + reflexivity.
    + vm_compute. apply list_elem_of_further, list_elem_of_further,
        list_elem_of_here.
    + reflexivity.
    + apply list_elem_of_here.
    + reflexivity.
    + simpl. lia.
Defined.

(** C5 as stated fails: the banner of 200 by 50 pixels passes every earlier
    rule, has an icon marker in its local path, and its height does not
    exceed 100 pixels; yet [filter_images] keeps it. *)
Lemma icon_rule_needs_one_large_side :
  rules_before_icon_path IMAGE_FILTER_CONFIG Examples.wide_icon = None
  /\ contains "icn-" (default "" (img_local_path Examples.wide_icon)) = true
  /\ default 0 (get (img_height Examples.wide_icon)) <= 100
  /\ filter_images IMAGE_FILTER_CONFIG [Examples.wide_icon]
     = ([{| fi_index := 4; fi_local_path := "images/icn-banner.png";
            fi_src := "https://example.com/banner.png";
            fi_alt := "Payroll overview banner"; fi_width := Some 200;
            fi_height := Some 50; fi_file_size := 42000;
            fi_file_type := "png" |}], []).
Proof.
  split; [reflexivity|]. split; [reflexivity|]. split; [simpl; lia|].
  vm_compute. reflexivity.
Qed.

(** *** Images of unknown dimensions *)

(** C10, as the code has it.  An image with a local path and an allowed
    extension whose width and height are both missing, null or zero is
    skipped, whatever list it is part of: with the reason [tracking_pixel],
    unless its source URL ends in [.svg] (in any case), where the SVG rule
    comes first and the reason is [svg_not_supported]. *)
Theorem unknown_dimensions_skipped (config : FilterConfig)
    (images : list RawImage) (img : RawImage) :
  img ∈ images ->
  truthy (default "" (img_local_path img)) = true ->
  file_type_of (default "" (img_local_path img)) ∈ allowed_ext ->
  default 0 (get (img_width img)) = 0 ->
  default 0 (get (img_height img)) = 0 ->
  exists k,
    loop_body config img = inr k
    /\ k ∈ (filter_images config images).2
    /\ skip_reason k
       = if endswith ".svg" (lower (default "" (img_src img)))
         then "svg_not_supported" else "tracking_pixel".
Proof.
  intros Hin Hpath Hext Hw Hh.
  assert (exists k, loop_body config img = inr k
            /\ skip_reason k
               = if endswith ".svg" (lower (default "" (img_src img)))
                 then "svg_not_supported" else "tracking_pixel")
    as (k & Hk & Hreason).
  { unfold loop_body, _should_skip, rules_before_icon_path.
    rewrite Hpath, (allowed_passes _ Hext), Hw, Hh,
      (allowed_not_svg _ Hext).
    simpl negb. cbv iota.
    destruct (endswith ".svg" (lower (default "" (img_src img))));
      simpl; by eexists. }
  exists k. eauto using skipped_elem.
Qed.

(** The rule on a photo whose width is null and whose height is zero. *)
Lemma unknown_dimensions_skipped_witness :
  exists k,
    loop_body IMAGE_FILTER_CONFIG Examples.unsized_photo = inr k
    /\ k ∈ (filter_images IMAGE_FILTER_CONFIG [Examples.unsized_photo]).2
    /\ skip_reason k = "tracking_pixel".
Proof.
  apply (unknown_dimensions_skipped IMAGE_FILTER_CONFIG
           [Examples.unsized_photo] Examples.unsized_photo).
  - apply list_elem_of_here.
  - reflexivity.
  - vm_compute. apply list_elem_of_here.
  - reflexivity.
  - reflexivity.
Defined.

(** C10 as stated fails: this image has a local path, the extension [png]
    and no known dimension, and [filter_images] skips it with the reason
    [svg_not_supported], not [tracking_pixel]. *)
Lemma unknown_dimensions_svg_first :
  truthy (default "" (img_local_path Examples.unsized_from_svg_url)) = true
  /\ file_type_of (default "" (img_local_path Examples.unsized_from_svg_url))
     = "png"
  /\ get (img_width Examples.unsized_from_svg_url) = None
  /\ get (img_height Examples.unsized_from_svg_url) = None
  /\ filter_images IMAGE_FILTER_CONFIG [Examples.unsized_from_svg_url]
     = ([], [{| si_index := 8; si_local_path := "images/img_008.png";
                skip_reason := "svg_not_supported";
                pattern_matched :=
                  Some "SVG format not supported by Vision API";
                dimensions := None |}]).
Proof. repeat split; vm_compute; reflexivity. Qed.

End ImageFilterFacts.

(** ** Section ids *)

Module SectionParserFacts.
Import PyStr SectionParser PyStrFacts.

Lemma suffixed_inj (base_id : string) (j k : Z) :
  suffixed base_id j = suffixed base_id k -> j = k.
Proof.
  unfold suffixed, str_of_int. intros H.
  apply String.app_inj in H. apply (String.app_inj "_") in H.
  by apply (inj pretty) in H.
Qed.

Lemma suffixed_ne_base (base_id : string) (k : Z) :
  suffixed base_id k <> base_id.
Proof.
  unfold suffixed. intros H. apply (f_equal String.length) in H.
  rewrite !str_length_app in H. simpl in H. lia.
Qed.

(** The loop ends with fuel to spare as soon as the fuel covers the ids of
    [seen_ids] that were not tried yet; [tried] collects the candidates the
    loop has already found in [seen_ids].  Its result is new, and it is the
    first candidate or a suffixed one. *)
Lemma unique_loop_fresh (fuel : nat) (seen_ids tried : gset string)
    (base_id slug : string) (counter : Z) :
  tried ⊆ seen_ids -> slug ∉ tried ->
  (forall j, counter <= j -> suffixed base_id j ∉ tried) ->
  (forall j, counter <= j -> suffixed base_id j <> slug) ->
  (size seen_ids <= size tried + fuel)%nat ->
  exists r,
    unique_loop fuel seen_ids base_id slug counter = Some r
    /\ (r ∉ seen_ids)
    /\ (r = slug \/ exists j, counter <= j /\ r = suffixed base_id j).
Proof.
  revert tried slug counter.
  induction fuel as [|fuel IH]; intros tried slug counter Hsub Hslug Hnew
    Hdiff Hsize; simpl; case_bool_decide as Hin; try (by eauto).
  - exfalso.
    assert ({[slug]} ∪ tried ⊆ seen_ids) as Hsub' by set_solver.
    apply subseteq_size in Hsub'.
    rewrite size_union, size_singleton in Hsub' by set_solver. lia.
  - destruct (IH ({[slug]} ∪ tried) (suffixed base_id counter) (counter + 1))
      as (r & Hr & Hfresh & Hshape).
    + set_solver.
    + apply not_elem_of_union. split.
      * apply not_elem_of_singleton. apply Hdiff. lia.
      * apply Hnew. lia.
    + intros j Hj. apply not_elem_of_union. split.
      * apply not_elem_of_singleton. apply Hdiff. lia.
      * apply Hnew. lia.
    + intros j Hj Heq. apply suffixed_inj in Heq. lia.
    + rewrite size_union, size_singleton by set_solver. lia.
    + exists r. split; [done|]. split; [done|]. right.
      destruct Hshape as [-> | (j & Hj & ->)]; [exists counter|exists j];
        split; (lia || done).
Qed.

(** [_generate_unique_id] always returns, and what it returns is an id that
    was not seen before. *)
Lemma generate_unique_id_fresh (title : string) (seen_ids : gset string) :
  exists id,
    _generate_unique_id title seen_ids = Some (id, {[id]} ∪ seen_ids)
    /\ (id ∉ seen_ids)
    /\ (id = slugify title
        \/ exists j, 1 <= j /\ id = suffixed (slugify title) j).
Proof.
  unfold _generate_unique_id.
  destruct (unique_loop_fresh (size seen_ids) seen_ids ∅ (slugify title)
              (slugify title) 1) as (r & -> & Hfresh & Hshape).
  - set_solver.
  - set_solver.
  - set_solver.
  - intros j _. apply suffixed_ne_base.
  - rewrite size_empty. lia.
  - by exists r.
Qed.

(** A pass that draws its ids from [_generate_unique_id] returns sections
    whose ids are pairwise distinct, new with respect to the ids seen
    before, and recorded in the set it hands on. *)
Lemma heading_pass_ids (headings : list Heading) (seen_ids : gset string) :
  exists sections seen',
    _extract_heading_sections headings seen_ids = Some (sections, seen')
    /\ NoDup (ps_id <$> sections)
    /\ (forall s, s ∈ sections -> (ps_id s ∉ seen_ids) /\ ps_id s ∈ seen')
    /\ seen_ids ⊆ seen'.
Proof.
  revert seen_ids.
  induction headings as [|heading rest IH]; intros seen_ids; simpl.
  - exists [], seen_ids. split; [done|]. split; [constructor|].
    split; [|done]. intros s Hs. by apply elem_of_nil in Hs.
  - destruct (_ || _); [apply IH|].
    destruct (generate_unique_id_fresh (h_text heading) seen_ids)
      as (id & -> & Hfresh & _).
    destruct (IH ({[id]} ∪ seen_ids))
      as (sections & seen' & -> & Hnd & Hids & Hsub).
    eexists _, seen'. split; [done|]. split; [|split].
    + simpl. constructor; [|done].
      intros Hin. apply list_elem_of_fmap in Hin as (s & Hid & Hs).
      destruct (Hids s Hs) as [Hnew _]. set_solver.
    + intros s Hs. apply elem_of_cons in Hs as [-> | Hs]; simpl.
      * set_solver.
      * destruct (Hids s Hs). set_solver.
    + set_solver.
Qed.

Lemma synthetic_pass_ids (found : bool) (slug title kind : string)
    (seen_ids : gset string) :
  exists sections seen',
    _extract_synthetic found slug title kind seen_ids = Some (sections, seen')
    /\ NoDup (ps_id <$> sections)
    /\ (forall s, s ∈ sections -> (ps_id s ∉ seen_ids) /\ ps_id s ∈ seen')
    /\ seen_ids ⊆ seen'.
Proof.
  unfold _extract_synthetic. destruct found.
  - destruct (generate_unique_id_fresh slug seen_ids)
      as (id & -> & Hfresh & _).
    eexists _, _. split; [done|]. split; [|split].
    + simpl. apply NoDup_singleton.
    + intros s Hs. apply list_elem_of_singleton in Hs as ->. simpl.
      set_solver.
    + set_solver.
  - exists [], seen_ids. split; [done|]. split; [constructor|].
    split; [|done]. intros s Hs. by apply elem_of_nil in Hs.
Qed.

(** C8. [parse] returns for every document, and the ids of the sections it
    returns are pairwise distinct. *)
Theorem parse_ids_distinct (doc : Document) :
  exists sections,
    parse doc = Some sections /\ NoDup (ps_id <$> sections).
Proof.
  unfold parse.
  destruct (heading_pass_ids (doc_headings doc) ∅)
    as (hs & seen1 & -> & Hnd1 & Hids1 & _).
  destruct (synthetic_pass_ids (doc_has_cta doc) "contact_cta"
              "Contact & CTA Information" "cta" seen1)
    as (cs & seen2 & -> & Hnd2 & Hids2 & Hsub2).
  destruct (synthetic_pass_ids (doc_has_testimonials doc) "testimonials"
              "Testimonials & Quotes" "testimonial" seen2)
    as (ts & seen3 & -> & Hnd3 & Hids3 & _).
  eexists. split; [done|].
  rewrite !fmap_app. apply NoDup_app. split; [done|]. split.
  - intros id Hh Hin. apply list_elem_of_fmap in Hh as (h & -> & Hh).
    destruct (Hids1 h Hh) as [_ Hseen1].
    apply elem_of_app in Hin as [Hin | Hin];
      apply list_elem_of_fmap in Hin as (s & Heq & Hs).
    + destruct (Hids2 s Hs) as [Hnew _]. rewrite <- Heq in Hnew. done.
    + destruct (Hids3 s Hs) as [Hnew _]. rewrite <- Heq in Hnew. set_solver.
  - apply NoDup_app. split; [done|]. split; [|done].
    intros id Hc Hin. apply list_elem_of_fmap in Hc as (c & -> & Hc).
    destruct (Hids2 c Hc) as [_ Hseen2].
    apply list_elem_of_fmap in Hin as (s & Heq & Hs).
    destruct (Hids3 s Hs) as [Hnew _]. rewrite <- Heq in Hnew. done.
Qed.

(** The suffix at work: three headings with the same slug. *)
Example parse_suffixes :
  option_map (map ps_id)
    (parse {| doc_headings :=
                map (fun t => {| h_text := t; h_level := 2;
                                 h_inside_nav := false; h_has_faq := false;
                                 h_has_table := false |})
                  ["Payroll & Tax"; "Payroll  Tax"; "payroll-tax"];
              doc_has_cta := true; doc_has_testimonials := false |})
  = Some ["payroll_tax"; "payroll_tax_1"; "payroll_tax_2"; "contact_cta"].
Proof. vm_compute. reflexivity. Qed.

End SectionParserFacts.

(** ** Dictionaries *)

Module PyDataFacts.
Import PyData.

Lemma dict_get_set {V} (k k' : string) (v : V) (d : dict V) :
  dict_get k (dict_set k' v d)
  = if String.eqb k k' then Some v else dict_get k d.
Proof.
  induction d as [|[k0 v0] d IH]; simpl; [done|].
  destruct (String.eqb k' k0) eqn:E; simpl.
  - apply String.eqb_eq in E as ->. by destruct (String.eqb k k0).
  - rewrite IH. destruct (String.eqb k k0) eqn:E0; [|done].
    apply String.eqb_eq in E0 as ->.
    by rewrite String.eqb_sym, E.
Qed.

(** A run of assignments leaves the keys it does not name alone. *)
Lemma get_after_writes_other {V} (k : string) (ws : list (string * V))
    (d : dict V) :
  k ∉ ws.*1 ->
  dict_get k (fold_left (fun d kv => dict_set kv.1 kv.2 d) ws d)
  = dict_get k d.
Proof.
  revert d. induction ws as [|[k' v'] ws IH]; intros d Hk; simpl; [done|].
  rewrite fmap_cons in Hk. apply not_elem_of_cons in Hk as [Hne Hk].
  rewrite IH by done. rewrite dict_get_set.
  destruct (String.eqb k k') eqn:E; [|done].
  by apply String.eqb_eq in E.
Qed.

(** The last assignment to a key decides its value. *)
Lemma get_after_writes_last {V} (k : string) (v : V)
    (ws1 ws2 : list (string * V)) (d : dict V) :
  k ∉ ws2.*1 ->
  dict_get k
    (fold_left (fun d kv => dict_set kv.1 kv.2 d) (ws1 ++ (k, v) :: ws2) d)
  = Some v.
Proof.
  intros Hk. rewrite fold_left_app. simpl.
  rewrite get_after_writes_other by done.
  by rewrite dict_get_set, String.eqb_refl.
Qed.

End PyDataFacts.

(** ** Batched extraction and hierarchy reconstruction *)

Module KBGeneratorFacts.
Import PyStr PyData Json KBGenerator PyDataFacts.

(** *** The batch loop *)

Section BatchLoop.

Variable extract : nat -> list FlatSection -> BatchResult.

Lemma fold_left_map_writes {A} (g : A -> string * KBSection) (l : list A)
    (d : dict KBSection) :
  fold_left (fun d x => dict_set (g x).1 (g x).2 d) l d
  = fold_left (fun d kv => dict_set kv.1 kv.2 d) (map g l) d.
Proof. revert d. induction l as [|x l IH]; intros d; simpl; [done|]. apply IH. Qed.

Lemma batch_step_writes (d : dict KBSection) (i : nat)
    (batch : list FlatSection) :
  batch_step extract d i batch
  = fold_left (fun d kv => dict_set kv.1 kv.2 d) (batch_writes extract i batch) d.
Proof.
  unfold batch_step, batch_writes.
  destruct (extract i batch) as [message|sections];
    by rewrite <- fold_left_map_writes.
Qed.

Lemma batch_loop_writes (d : dict KBSection) (i : nat)
    (batches : list (list FlatSection)) :
  batch_loop extract d i batches
  = fold_left (fun d kv => dict_set kv.1 kv.2 d) (all_writes extract i batches) d.
Proof.
  revert d i. induction batches as [|batch rest IH]; intros d i; simpl;
    [done|].
  by rewrite IH, batch_step_writes, fold_left_app.
Qed.

(** The assignments of the loop, split around those of batch [j]. *)
Lemma all_writes_split (i j : nat) (batches : list (list FlatSection))
    (b : list FlatSection) :
  batches !! j = Some b ->
  exists before after,
    all_writes extract i batches
    = before ++ batch_writes extract (i + j) b ++ after
    /\ forall k, k ∈ after.*1 ->
         exists j' b', (j < j')%nat /\ batches !! j' = Some b'
                       /\ k ∈ (batch_writes extract (i + j') b').*1.
Proof.
  revert i j. induction batches as [|batch rest IH]; intros i j Hj;
    [done|].
  destruct j as [|j]; simpl in *.
  - injection Hj as ->. exists [], (all_writes extract (S i) rest).
    rewrite Nat.add_0_r. split; [done|].
    clear IH. revert i. induction rest as [|b' rest IH]; intros i k Hk;
      simpl in Hk; [by apply elem_of_nil in Hk|].
    rewrite fmap_app in Hk. apply elem_of_app in Hk as [Hk | Hk].
    + exists 1%nat, b'. split; [lia|]. split; [done|].
      by replace (i + 1)%nat with (S i) by lia.
    + destruct (IH (S i) k Hk) as (j' & b'' & Hlt & Hb & Hin).
      destruct j' as [|j']; [lia|].
      exists (S (S j')), b''. split; [lia|]. split; [done|].
      by replace (i + S (S j'))%nat with (S i + S j')%nat by lia.
  - destruct (IH (S i) j Hj) as (before & after & -> & Hafter).
    exists (batch_writes extract i batch ++ before), after.
    replace (i + S j)%nat with (S i + j)%nat by lia.
    split; [by rewrite <- app_assoc|].
    intros k Hk. destruct (Hafter k Hk) as (j' & b' & Hlt & Hb & Hin).
    exists (S j'), b'. split; [lia|]. split; [done|].
    by replace (i + S j')%nat with (S i + j')%nat by lia.
Qed.

(** An assignment that no later assignment overrides is what the final map
    holds. *)
Lemma last_write_wins (batches : list (list FlatSection)) (j : nat)
    (b : list FlatSection) (k : string) (v : KBSection)
    (ws1 ws2 : list (string * KBSection)) :
  batches !! j = Some b ->
  batch_writes extract j b = ws1 ++ (k, v) :: ws2 ->
  k ∉ ws2.*1 ->
  (forall j' b', (j < j')%nat -> batches !! j' = Some b' ->
                 k ∉ (batch_writes extract j' b').*1) ->
  dict_get k (extract_all extract batches) = Some v.
Proof.
  intros Hj Hws Hk Hlater. unfold extract_all. rewrite batch_loop_writes.
  destruct (all_writes_split 0 j batches b Hj)
    as (before & after & -> & Hafter).
  simpl in *. rewrite Hws.
  replace (before ++ (ws1 ++ (k, v) :: ws2) ++ after)
    with ((before ++ ws1) ++ (k, v) :: (ws2 ++ after))
    by (by rewrite <- !app_assoc).
  apply get_after_writes_last. rewrite fmap_app.
  apply not_elem_of_app. split; [done|].
  intros Hin. destruct (Hafter k Hin) as (j' & b' & Hlt & Hb & Hin').
  by apply (Hlater j' b').
Qed.

End BatchLoop.




(** *** Hierarchy reconstruction *)

Lemma title_loop_find (items : dict KBSection) (title : string) :
  title_loop items title
  = option_map snd
      (List.find
         (fun entry => String.eqb (lower (sec_title entry.2)) (lower title))
         items).
Proof.
  induction items as [|[ext_id ext_section] rest IH]; simpl; [done|].
  by destruct (String.eqb _ _).
Qed.

Lemma fold_append_map {A B} (f : A -> B) (l : list A) (acc : list B) :
  fold_left (fun acc x => acc ++ [f x]) l acc = acc ++ map f l.
Proof.
  revert acc. induction l as [|x l IH]; intros acc; simpl.
  - by rewrite app_nil_r.
  - by rewrite IH, <- app_assoc.
Qed.

Lemma data_falsy_default (data : option (gmap string json)) :
  data_truthy data = false -> default ∅ data = ∅.
Proof.
  destruct data as [m|]; simpl; [|done].
  intros H. apply negb_false_iff in H. by apply bool_decide_eq_true in H.
Qed.

Lemma reconstruct_child_resolved (extracted_sections : dict KBSection)
    (group : Group) (child : Child) :
  reconstruct_child extracted_sections group child
  = resolved_child extracted_sections group child.
Proof.
  unfold reconstruct_child, resolved_child, resolve_three_tier,
    lookup_or_title, annotate, empty_placeholder.
  rewrite <- title_loop_find.
  destruct (dict_get _ extracted_sections) as [section|]; simpl.
  - destruct (truthy (default "" (c_category child))) eqn:Hcat; [|done].
    rewrite orb_true_r.
    destruct (data_truthy (sec_data section)) eqn:Hdata; [done|].
    by rewrite (data_falsy_default _ Hdata).
  - destruct (title_loop _ _) as [section|]; simpl.
    + destruct (truthy (default "" (c_category child))) eqn:Hcat; [|done].
      rewrite orb_true_r.
      destruct (data_truthy (sec_data section)) eqn:Hdata; [done|].
      by rewrite (data_falsy_default _ Hdata).
    + destruct (truthy (default "" (c_category child))); [|done].
      simpl. by rewrite insert_empty.
Qed.

Lemma reconstruct_group_resolved (extracted_sections : dict KBSection)
    (group : Group) :
  reconstruct_group extracted_sections group
  = resolved_group extracted_sections group.
Proof.
  unfold reconstruct_group, resolved_group, resolve_three_tier,
    lookup_or_title, empty_placeholder.
  rewrite <- title_loop_find, fold_append_map. simpl.
  rewrite (map_ext _ _ (reconstruct_child_resolved extracted_sections group)).
  destruct (dict_get _ extracted_sections) as [section|]; simpl; [done|].
  by destruct (title_loop _ _).
Qed.

(** On dictionaries without [null], modelled as records of optional
    fields, [_reconstruct_hierarchy] returns one section per group, in
    order, each resolved through the three tiers: the entry stored under the
    group's id, else the first extracted section whose title equals the
    group's up to letter case, else a placeholder without content; the
    children of a parent group are resolved the same way (a child
    placeholder keeps the child's category as its only data) and become the
    parent's subsections. *)
Lemma reconstruct_hierarchy_three_tier (grouped_sections : list Group)
    (extracted_sections : dict KBSection) :
  _reconstruct_hierarchy grouped_sections extracted_sections
  = map (resolved_group extracted_sections) grouped_sections
  /\ length (_reconstruct_hierarchy grouped_sections extracted_sections)
     = length grouped_sections.
Proof.
  assert (_reconstruct_hierarchy grouped_sections extracted_sections
          = map (resolved_group extracted_sections) grouped_sections) as ->.
  { unfold _reconstruct_hierarchy. rewrite fold_append_map. simpl.
    apply map_ext, reconstruct_group_resolved. }
  by rewrite length_map.
Qed.

(** The three tiers on one list of groups: a hit by id, a hit by title in
    another letter case, and a miss. *)
Example three_tiers_at_work :
  map (fun section => (sec_id section, sec_summary section))
    (_reconstruct_hierarchy
       [ {| g_id := Some "pricing"; g_title := Some "Pricing";
            g_level := Some 2; g_type := Some "standalone";
            g_section_type := None; g_category := None;
            g_extraction_hint := None; g_children := None |};
         {| g_id := Some "summary"; g_title := Some "OVERVIEW";
            g_level := Some 2; g_type := Some "standalone";
            g_section_type := None; g_category := None;
            g_extraction_hint := None; g_children := None |};
         {| g_id := Some "faq"; g_title := Some "Questions";
            g_level := Some 2; g_type := Some "standalone";
            g_section_type := None; g_category := None;
            g_extraction_hint := None; g_children := None |} ]
       [("overview", Examples.overview_section);
        ("pricing", Examples.pricing_section)])
  = [("pricing", "Plans start at ten dollars.");
     ("overview", "Payroll in one place."); ("faq", "")].
Proof. vm_compute. reflexivity. Qed.

(** *** Dictionaries that may hold [null] *)

Lemma get_or_not_null {A} (f : ImageFilter.field A) (d : A) :
  f <> ImageFilter.Null ->
  ImageFilter.get_or f d = Some (default d (ImageFilter.get f)).
Proof. by destruct f. Qed.

Lemma find_section_strings (extracted_sections : dict KBSection)
    (id title : string) :
  find_section extracted_sections (Some id) (Some title)
  = inr match dict_get id extracted_sections with
        | Some _ => dict_get id extracted_sections
        | None => title_loop extracted_sections title
        end.
Proof.
  unfold find_section, lookup.
  destruct (dict_get id extracted_sections); [done|].
  by destruct extracted_sections.
Qed.

Lemma reconstruct_raw_child_typed (extracted_sections : dict KBSection)
    (group : RawGroup) (child : RawChild) :
  rg_level group <> ImageFilter.Null ->
  null_free_child child ->
  reconstruct_raw_child extracted_sections group child
  = inr (reconstruct_child extracted_sections (to_group group)
           (to_child child)).
Proof.
  intros Hlevel [Hid Htitle]. unfold reconstruct_raw_child, reconstruct_child.
  cbv zeta. cbn [to_child to_group c_id c_title c_category g_level].
  rewrite (get_or_not_null _ "unknown" Hid), (get_or_not_null _ "" Htitle),
    (get_or_not_null _ "Unknown" Htitle), (get_or_not_null _ 1 Hlevel),
    find_section_strings.
  destruct (match dict_get _ extracted_sections with
            | Some _ => _
            | None => _
            end); [done|].
  reflexivity.
Qed.

Lemma reconstruct_raw_children_typed (extracted_sections : dict KBSection)
    (group : RawGroup) (subsections : list KBSection)
    (children : list RawChild) :
  rg_level group <> ImageFilter.Null ->
  Forall null_free_child children ->
  reconstruct_raw_children extracted_sections group subsections children
  = inr (fold_left
           (fun subsections child =>
              subsections
              ++ [reconstruct_child extracted_sections (to_group group) child])
           (map to_child children) subsections).
Proof.
  intros Hlevel Hchildren. revert subsections.
  induction Hchildren as [|child rest Hchild Hrest IH]; intros subsections;
    [done|].
  cbn [reconstruct_raw_children map fold_left].
  by rewrite reconstruct_raw_child_typed, IH.
Qed.

Lemma reconstruct_raw_group_typed (extracted_sections : dict KBSection)
    (group : RawGroup) :
  null_free group ->
  reconstruct_raw_group extracted_sections group
  = inr (reconstruct_group extracted_sections (to_group group)).
Proof.
  intros (Hid & Htitle & Hlevel & Hchildren).
  unfold reconstruct_raw_group, reconstruct_group. cbv zeta.
  cbn [to_group g_id g_title g_level g_type g_children].
  rewrite (get_or_not_null _ "unknown" Hid), (get_or_not_null _ "" Htitle),
    (get_or_not_null _ "Unknown" Htitle), (get_or_not_null _ 1 Hlevel),
    find_section_strings.
  assert (has_children (to_group group) = has_raw_children group) as Hhas.
  { unfold has_children, has_raw_children. cbn [to_group g_children].
    by destruct (ImageFilter.get (rg_children group)) as [[|? ?]|]. }
  rewrite Hhas.
  set (section := match match dict_get _ extracted_sections with
                        | Some _ => _
                        | None => _
                        end with
                  | Some section => section
                  | None => _
                  end).
  assert (match match dict_get (default "unknown"
                                  (ImageFilter.get (rg_id group)))
                        extracted_sections with
                | Some _ =>
                    dict_get (default "unknown"
                                (ImageFilter.get (rg_id group)))
                      extracted_sections
                | None =>
                    title_loop extracted_sections
                      (default "" (ImageFilter.get (rg_title group)))
                end with
          | Some section => inr section
          | None =>
              placeholder_section
                (Some (default "unknown" (ImageFilter.get (rg_id group))))
                (Some (default "Unknown" (ImageFilter.get (rg_title group))))
                (Some (default 1 (ImageFilter.get (rg_level group)))) None
          end = (inr section : PyError + KBSection)) as ->.
  { unfold section. by destruct (match dict_get _ extracted_sections with
                                 | Some _ => _
                                 | None => _
                                 end). }
  case_bool_decide as Hparent; cbn [andb]; [|done].
  destruct (has_raw_children group); [|done].
  rewrite reconstruct_raw_children_typed by auto.
  by destruct (ImageFilter.get (rg_children group)).
Qed.

Lemma reconstruct_raw_groups_typed (extracted_sections : dict KBSection)
    (result : list KBSection) (grouped_sections : list RawGroup) :
  Forall null_free grouped_sections ->
  reconstruct_raw_groups extracted_sections result grouped_sections
  = inr (fold_left
           (fun result group =>
              result ++ [reconstruct_group extracted_sections group])
           (map to_group grouped_sections) result).
Proof.
  intros Hgroups. revert result.
  induction Hgroups as [|group rest Hgroup Hrest IH]; intros result; [done|].
  cbn [reconstruct_raw_groups map fold_left].
  by rewrite reconstruct_raw_group_typed, IH.
Qed.

(** C3, as the code has it.  For every list of grouped sections that holds
    no [null] in [id], [title] or [level] of a group, nor in [id] or [title]
    of a child of a parent group, and for every map of extracted sections,
    [_reconstruct_hierarchy] raises nothing and returns one section per
    group, in order.  Each is resolved through the three tiers: the entry
    stored under the group's id, else the first extracted section whose
    title equals the group's up to letter case, else a placeholder without
    content; the children of a parent group are resolved the same way and
    become the parent's subsections. *)
Theorem reconstruct_hierarchy_without_null (grouped_sections : list RawGroup)
    (extracted_sections : dict KBSection) :
  Forall null_free grouped_sections ->
  _reconstruct_hierarchy_raw grouped_sections extracted_sections
  = inr (map (resolved_group extracted_sections)
           (map to_group grouped_sections)).
Proof.
  intros Hgroups. unfold _reconstruct_hierarchy_raw.
  rewrite reconstruct_raw_groups_typed by done.
  rewrite fold_append_map, app_nil_l. f_equal.
  apply map_ext, reconstruct_group_resolved.
Qed.

(** A parent group with an extracted child and a child that is not, and a
    map that holds the first child only. *)
Lemma reconstruct_hierarchy_without_null_witness :
  _reconstruct_hierarchy_raw [Scenarios.offer_group] Examples.plans_extracted
  = inr (map (resolved_group Examples.plans_extracted)
           (map to_group [Scenarios.offer_group])).
Proof.
  apply (reconstruct_hierarchy_without_null [Scenarios.offer_group]
           Examples.plans_extracted).
  apply Forall_cons. split; [|apply Forall_nil_2].
  repeat split; try done.
  intros _. apply Forall_cons. split; [by split|].
  apply Forall_cons. split; [by split|apply Forall_nil_2].
Defined.

(** A group whose [level] is [null], and whose id and title match no
    extracted section: the third tier builds the placeholder with
    [Section(level=None)], and pydantic raises. *)
Lemma null_level_raises :
  _reconstruct_hierarchy_raw [Scenarios.pricing_without_level]
    Examples.plans_extracted
  = inl ValidationError.
Proof. reflexivity. Qed.

Lemma get_or_some {A} (f : ImageFilter.field A) (d a : A) :
  ImageFilter.get_or f d = Some a -> f <> ImageFilter.Null.
Proof. by destruct f. Qed.

Lemma placeholder_section_returns (id title : option string)
    (level : option Z) (data : option (gmap string json))
    (section : KBSection) :
  placeholder_section id title level data = inr section ->
  exists i t l, id = Some i /\ title = Some t /\ level = Some l.
Proof.
  destruct id as [i|], title as [t|], level as [l|]; try done.
  intros _. by exists i, t, l.
Qed.

Lemma find_section_nothing (id title : option string) :
  find_section [] id title = inr None.
Proof. by destruct id. Qed.

Lemma raw_child_returns (group : RawGroup) (child : RawChild)
    (section : KBSection) :
  reconstruct_raw_child [] group child = inr section ->
  null_free_child child.
Proof.
  unfold reconstruct_raw_child. cbv zeta. rewrite find_section_nothing.
  destruct (ImageFilter.get_or (rg_level group) 1); [|done].
  intros H. apply placeholder_section_returns in H
    as (i & t & l & Hid & Htitle & _).
  split; [by apply (get_or_some _ _ _ Hid)|by apply (get_or_some _ _ _ Htitle)].
Qed.

Lemma raw_children_return (group : RawGroup) (children : list RawChild)
    (acc subsections : list KBSection) :
  reconstruct_raw_children [] group acc children = inr subsections ->
  Forall null_free_child children.
Proof.
  revert acc. induction children as [|child rest IH]; intros acc; [done|].
  cbn [reconstruct_raw_children].
  destruct (reconstruct_raw_child [] group child) as [e|cs] eqn:Hchild;
    [done|].
  intros Hrest. apply Forall_cons. split.
  - by apply (raw_child_returns group child cs).
  - by apply (IH _ Hrest).
Qed.

Lemma raw_group_returns (group : RawGroup) (section : KBSection) :
  reconstruct_raw_group [] group = inr section -> null_free group.
Proof.
  unfold reconstruct_raw_group. cbv zeta. rewrite find_section_nothing.
  destruct (placeholder_section _ _ _ None) as [e|placeholder] eqn:Hp;
    [done|].
  apply placeholder_section_returns in Hp
    as (i & t & l & Hid & Htitle & Hlevel).
  intros Hloop.
  split; [by apply (get_or_some _ _ _ Hid)|].
  split; [by apply (get_or_some _ _ _ Htitle)|].
  split; [by apply (get_or_some _ _ _ Hlevel)|].
  intros Hparent. revert Hloop. rewrite bool_decide_eq_true_2 by done.
  cbn [andb]. destruct (has_raw_children group) eqn:Hhas.
  - destruct (reconstruct_raw_children [] group [] _) as [e|subs] eqn:Hsubs;
      [done|].
    intros _. by apply (raw_children_return group _ [] subs).
  - intros _. unfold has_raw_children in Hhas.
    by destruct (ImageFilter.get (rg_children group)) as [[|? ?]|].
Qed.

(** The condition cannot be dropped: with nothing extracted, the function
    returns only for lists without such a [null]. *)
Lemma reconstruct_hierarchy_null_raises (grouped_sections : list RawGroup)
    (sections : list KBSection) :
  _reconstruct_hierarchy_raw grouped_sections [] = inr sections ->
  Forall null_free grouped_sections.
Proof.
  unfold _reconstruct_hierarchy_raw. generalize (@nil KBSection) as result.
  induction grouped_sections as [|group rest IH]; intros result; [done|].
  cbn [reconstruct_raw_groups].
  destruct (reconstruct_raw_group [] group) as [e|section] eqn:Hgroup;
    [done|].
  intros Hrest. apply Forall_cons. split.
  - by apply (raw_group_returns group section).
  - by apply (IH _ Hrest).
Qed.

(** *** The category annotation *)

Lemma resolved_group_subsections (extracted_sections : dict KBSection)
    (group : Group) (children : list Child) (j : nat) (child : Child) :
  g_type group = Some "parent" ->
  g_children group = Some children ->
  children !! j = Some child ->
  sec_subsections (reconstruct_group extracted_sections group) !! j
  = Some (resolved_child extracted_sections group child).
Proof.
  intros Htype Hchildren Hj. rewrite reconstruct_group_resolved.
  unfold resolved_group, has_children. rewrite Htype, Hchildren.
  rewrite bool_decide_eq_true_2 by done.
  destruct children as [|c0 rest]; [done|]. simpl andb. cbv iota.
  simpl sec_subsections. simpl default.
  change (resolved_child extracted_sections group c0
          :: map (resolved_child extracted_sections group) rest)
    with (resolved_child extracted_sections group <$> c0 :: rest).
  by rewrite list_lookup_fmap, Hj.
Qed.

(** C2, as the code has it.  For a child of a parent group that carries a
    category and resolves to an extracted section, the subsection rebuilt for
    it has that section's data with the entry [category] set to the group's
    category: every other entry of the data is unchanged, an entry
    [category] that was there is replaced; all other fields are those of the
    resolved section. *)
Theorem category_annotation (extracted_sections : dict KBSection)
    (group : Group) (children : list Child) (j : nat) (child : Child)
    (cat : string) (child_section : KBSection) :
  g_type group = Some "parent" ->
  g_children group = Some children ->
  children !! j = Some child ->
  c_category child = Some cat ->
  truthy cat = true ->
  lookup_or_title extracted_sections (default "unknown" (c_id child))
    (default "" (c_title child)) = Some child_section ->
  exists rebuilt data,
    sec_subsections (reconstruct_group extracted_sections group) !! j
    = Some rebuilt
    /\ sec_data rebuilt = Some data
    /\ data !! "category" = Some (JStr cat)
    /\ (forall key, key <> "category" ->
          data !! key = default ∅ (sec_data child_section) !! key)
    /\ sec_id rebuilt = sec_id child_section
    /\ sec_title rebuilt = sec_title child_section
    /\ sec_level rebuilt = sec_level child_section
    /\ sec_summary rebuilt = sec_summary child_section
    /\ sec_content rebuilt = sec_content child_section
    /\ sec_key_points rebuilt = sec_key_points child_section
    /\ sec_images rebuilt = sec_images child_section
    /\ sec_subsections rebuilt = sec_subsections child_section.
Proof.
  intros Htype Hchildren Hj Hcat Htruthy Hresolved.
  eexists _, _. split.
  { by apply (resolved_group_subsections _ _ children). }
  unfold resolved_child, resolve_three_tier, annotate.
  rewrite Hresolved, Hcat. simpl default. rewrite Htruthy. simpl.
  split; [done|]. split; [apply lookup_insert_eq|].
  split; [|done].
  intros key Hkey. by rewrite lookup_insert_ne.
Qed.

(** The annotation on the example group: the child [plans] is found by id,
    its data entry [type] is kept and its category becomes [pricing]. *)
Lemma category_annotation_witness :
  exists rebuilt data,
    sec_subsections
      (reconstruct_group Examples.plans_extracted Examples.plans_group)
      !! 0%nat = Some rebuilt
    /\ sec_data rebuilt = Some data
    /\ data !! "category" = Some (JStr "pricing")
    /\ (forall key, key <> "category" ->
          data !! key = default ∅ (sec_data Examples.plans_section) !! key)
    /\ sec_id rebuilt = sec_id Examples.plans_section
    /\ sec_title rebuilt = sec_title Examples.plans_section
    /\ sec_level rebuilt = sec_level Examples.plans_section
    /\ sec_summary rebuilt = sec_summary Examples.plans_section
    /\ sec_content rebuilt = sec_content Examples.plans_section
    /\ sec_key_points rebuilt = sec_key_points Examples.plans_section
    /\ sec_images rebuilt = sec_images Examples.plans_section
    /\ sec_subsections rebuilt = sec_subsections Examples.plans_section.
Proof.
  apply (category_annotation Examples.plans_extracted Examples.plans_group
           [Examples.plans_child] 0 Examples.plans_child "pricing"
           Examples.plans_section); reflexivity.
Defined.

(** C2 as stated fails: the extracted child's data had the entry
    [category = packages]; in the rebuilt subsection the entry reads
    [pricing]. *)
Lemma existing_category_overwritten :
  default ∅ (sec_data Examples.plans_section) !! "category"
  = Some (JStr "packages")
  /\ exists rebuilt,
       sec_subsections
         (reconstruct_group Examples.plans_extracted Examples.plans_group)
         !! 0%nat = Some rebuilt
       /\ default ∅ (sec_data rebuilt) !! "category" = Some (JStr "pricing").
Proof.
  split; [vm_compute; reflexivity|].
  eexists. split; [reflexivity|]. vm_compute. reflexivity.
Qed.

End KBGeneratorFacts.

(** ** JSON repair *)

Module JsonRepairFacts.
Import PyStr Json JsonRepair.

(** The truncated input has no backtick and no closing brace, so neither
    search of [parse_json_response] finds a JSON text in it. *)
Lemma truncated_input_not_found :
  search_fenced truncated_input = None
  /\ search_braces truncated_input = None.
Proof. split; vm_compute; reflexivity. Qed.

(** C1, on the code.  Whatever [json.loads] does, [parse_json_response]
    raises [ValueError] on the truncated input: no parse is ever tried. *)
Theorem parse_truncated_input_raises (loads : string -> option json) :
  parse_json_response loads truncated_input
  = Raise (ValueError ("No JSON found in response: " +:+ truncated_input
                       +:+ "...")).
Proof.
  unfold parse_json_response.
  destruct truncated_input_not_found as [-> ->].
  vm_compute. reflexivity.
Qed.

(** Called on the truncated input directly, [_truncate_to_valid_json] cuts
    the half-open object and then appends the closers counted before the
    cut: one bracket and two braces.  The text it returns closes one brace
    more than it opens. *)
Lemma truncate_closes_too_much :
  _truncate_to_valid_json truncated_input = Some (json_text "{'a': [1, 2]}}")
  /\ depth_brace (scan scan_start 0 (json_text "{'a': [1, 2]}}")) = -1
  /\ depth_bracket (scan scan_start 0 (json_text "{'a': [1, 2]}}")) = 0.
Proof. repeat split; vm_compute; reflexivity. Qed.

(** A reply in a fenced block is found and handed to [json.loads] as is. *)
Example fenced_reply_found :
  search_fenced
    (json_text ("Here you go:" +:+ String LF "```json" +:+ String LF
                "{'x':1}" +:+ String LF "```" +:+ String LF "Thanks"))
  = Some (json_text "{'x':1}").
Proof. vm_compute. reflexivity. Qed.

End JsonRepairFacts.

(** ** Image classification *)

Module ImageClassifierFacts.
Import PyStr PyData Json ImageFilter ImageClassifier.

(** *** The loop over the classifications of a batch *)

Lemma classify_step_keeps (image_id_map : dict FilteredImage)
    (acc acc' : list ImageDescription * list ExcludedImage)
    (classification : Classification) (d : ImageDescription) :
  classify_step image_id_map acc classification = Some acc' ->
  d ∈ acc.1 -> d ∈ acc'.1.
Proof.
  destruct acc as [included excluded]. unfold classify_step.
  destruct (get_or (cl_image_id classification) "") as [image_id|].
  - destruct (match_image image_id_map image_id) as [img|];
      [|by intros [= <-]].
    destruct (if valuable _ then true else _).
    + destruct (describe _ _ _); [|done]. intros [= <-] Hd.
      apply elem_of_app. by left.
    + destruct (exclude _ _ _); [|done]. by intros [= <-].
  - destruct image_id_map; [|done]. by intros [= <-].
Qed.

Lemma classify_loop_keeps (image_id_map : dict FilteredImage)
    (classifications : list Classification)
    (acc lists : list ImageDescription * list ExcludedImage)
    (d : ImageDescription) :
  classify_loop image_id_map acc classifications = inr lists ->
  d ∈ acc.1 -> d ∈ lists.1.
Proof.
  revert acc. induction classifications as [|c rest IH]; intros acc;
    cbn [classify_loop]; [by intros [= <-]|].
  destruct (classify_step image_id_map acc c) as [acc'|] eqn:Hstep; [|done].
  intros Hloop Hd. apply (IH acc' Hloop).
  by apply (classify_step_keeps _ _ _ _ _ Hstep).
Qed.

(** When the loop of a batch ends without an exception, a matched
    classification with a valuable category has put a description of its
    image, with that category, into [included]. *)
Lemma classify_loop_override (image_id_map : dict FilteredImage)
    (classifications : list Classification)
    (acc lists : list ImageDescription * list ExcludedImage)
    (classification : Classification) (image_id : string)
    (img : FilteredImage) (category : string) :
  classify_loop image_id_map acc classifications = inr lists ->
  classification ∈ classifications ->
  get_or (cl_image_id classification) "" = Some image_id ->
  match_image image_id_map image_id = Some img ->
  cl_category classification = Val category ->
  category ∈ INCLUDE_CATEGORIES ->
  exists description,
    get_or (cl_description classification) "" = Some description
    /\ {| d_image_id := image_id_of img;
          d_local_path := fi_local_path img;
          d_category := category;
          d_description := description;
          d_extracted_text := get (cl_extracted_text classification);
          d_stats := get (cl_stats classification);
          d_suggested_section := get (cl_suggested_section classification) |}
       ∈ lists.1.
Proof.
  intros Hloop Hin Hid Hmatch Hcat Hvaluable. revert acc Hloop.
  induction classifications as [|c rest IH]; intros [included excluded];
    [by apply elem_of_nil in Hin|].
  cbn [classify_loop].
  destruct (classify_step image_id_map (included, excluded) c)
    as [acc'|] eqn:Hstep; [|done].
  intros Hloop. apply elem_of_cons in Hin as [<-|Hin]; [|by apply (IH Hin acc')].
  revert Hstep. unfold classify_step. rewrite Hid, Hmatch, Hcat.
  cbn [get_or valuable]. rewrite bool_decide_eq_true_2 by done.
  unfold describe.
  destruct (get_or (cl_description classification) "") as [description|];
    [|done].
  destruct (valid_stats _); [|done]. intros [= <-].
  exists description. split; [done|].
  apply (classify_loop_keeps _ _ _ _ _ Hloop). cbn [fst].
  apply elem_of_app. right. apply list_elem_of_here.
Qed.

Section ClassifyAllFacts.

Variable raised_text : Classification -> string.
Variable reply_of : nat -> list FilteredImage -> Reply.

Lemma classify_all_loop_mono (batches : list (list FilteredImage)) (i : nat)
    (acc : list ImageDescription * list ExcludedImage) (d : ImageDescription) :
  d ∈ acc.1 -> d ∈ (classify_all_loop raised_text reply_of acc i batches).1.
Proof.
  revert i acc.
  induction batches as [|batch rest IH]; intros i [included excluded] Hd;
    simpl; [done|].
  apply IH. destruct (classify_batch _ _ _) as [message|[inc exc]];
    simpl in *; [done|].
  apply elem_of_app. by left.
Qed.

Lemma classify_all_loop_batch (batches : list (list FilteredImage))
    (i j : nat) (acc : list ImageDescription * list ExcludedImage)
    (batch : list FilteredImage) (included : list ImageDescription)
    (excluded : list ExcludedImage) (d : ImageDescription) :
  batches !! j = Some batch ->
  classify_batch raised_text batch (reply_of (i + j) batch)
  = inr (included, excluded) ->
  d ∈ included ->
  d ∈ (classify_all_loop raised_text reply_of acc i batches).1.
Proof.
  revert i j acc.
  induction batches as [|b rest IH]; intros i j [all_inc all_exc] Hj Hb Hd;
    [done|].
  destruct j as [|j]; simpl in *.
  - injection Hj as ->. rewrite Nat.add_0_r in Hb. rewrite Hb.
    apply classify_all_loop_mono. simpl. apply elem_of_app. by right.
  - apply (IH (S i) j); [done| |done].
    by replace (S i + j)%nat with (i + S j)%nat by lia.
Qed.

End ClassifyAllFacts.

(** Where the override does hold: when [classify_batch] returns for the
    batch, that is when no classification of the reply makes it raise, a
    matched classification with a category of [INCLUDE_CATEGORIES] has the
    description of its image among the included images of [classify_all],
    whatever its [include] says. *)
Lemma category_override_if_batch_returns
    (raised_text : Classification -> string)
    (reply_of : nat -> list FilteredImage -> Reply)
    (batches : list (list FilteredImage)) (i : nat)
    (batch : list FilteredImage) (classifications : list Classification)
    (lists : list ImageDescription * list ExcludedImage)
    (classification : Classification) (image_id : string)
    (img : FilteredImage) (category : string) :
  batches !! i = Some batch ->
  reply_of i batch = Parsed classifications ->
  classify_batch raised_text batch (Parsed classifications) = inr lists ->
  classification ∈ classifications ->
  get_or (cl_image_id classification) "" = Some image_id ->
  match_image (build_id_map batch) image_id = Some img ->
  cl_category classification = Val category ->
  category ∈ INCLUDE_CATEGORIES ->
  exists description,
    get_or (cl_description classification) "" = Some description
    /\ {| d_image_id := image_id_of img;
          d_local_path := fi_local_path img;
          d_category := category;
          d_description := description;
          d_extracted_text := get (cl_extracted_text classification);
          d_stats := get (cl_stats classification);
          d_suggested_section := get (cl_suggested_section classification) |}
       ∈ (classify_all raised_text reply_of batches).1.
Proof.
  intros Hi Hreply Hbatch Hin Hid Hmatch Hcat Hvaluable. unfold classify_all.
  destruct batch as [|img0 batch']; [done|].
  assert (classify_loop (build_id_map (img0 :: batch')) ([], [])
            classifications = inr lists) as Hloop.
  { revert Hbatch. unfold classify_batch.
    by destruct (classify_loop _ _ _) as [c|l]; intros [= ->]. }
  destruct (classify_loop_override _ _ _ _ _ _ _ _ Hloop Hin Hid Hmatch Hcat
              Hvaluable) as (description & Hdescription & Hd).
  exists description. split; [done|]. destruct lists as [included excluded].
  apply (classify_all_loop_batch raised_text reply_of batches 0 i _
           (img0 :: batch') included excluded); [done| |done].
  simpl Nat.add. by rewrite Hreply.
Qed.

(** C9.  The override is lost on the reply the prompt asks for.  The image
    [img_003] is filed under [product_ui] with [include] false, and, as the
    prompt wants a description "only if include=true", with [null] for its
    description.  The category forces [include] to [True], but
    [ImageDescription(description=None)] then raises [ValidationError],
    [classify_batch] lets it through, and [classify_all] files the image of
    the batch under the excluded images with the category [error]: nothing
    is included. *)
Theorem valuable_image_lost_on_null_description
    (raised_text : Classification -> string) :
  classify_all raised_text Scenarios.prompted_reply
    [[Examples.dashboard_image]]
  = ([],
     [{| x_image_id := "img_003";
         x_local_path := "images/img_003.png";
         x_category := "error";
         x_exclusion_reason :=
           "Processing error: " +:+ raised_text Scenarios.prompted_verdict |}]).
Proof. by vm_compute. Qed.

(** The same happens to a whole batch when the [stats] of one included
    image are not objects. *)
Example loose_stats_fail_batch (raised_text : Classification -> string) :
  classify_all raised_text
    (fun _ _ => Parsed [Examples.dashboard_verdict;
                        Scenarios.loose_stats_verdict])
    [[Examples.dashboard_image]]
  = ([], [error_record Examples.dashboard_image
            (raised_text Scenarios.loose_stats_verdict)]).
Proof. by vm_compute. Qed.

(** With a description that is a string, the same reply is honoured. *)
Example override_with_description (raised_text : Classification -> string) :
  (classify_all raised_text Examples.dashboard_reply
     [[Examples.dashboard_image]]).1
  = [{| d_image_id := "img_003"; d_local_path := "images/img_003.png";
        d_category := "product_ui";
        d_description := "The payroll dashboard";
        d_extracted_text := None; d_stats := None;
        d_suggested_section := None |}].
Proof. by vm_compute. Qed.

End ImageClassifierFacts.

(* ===================================================================== *)
(** * Part II, continued: further properties of the code                  *)
(* ===================================================================== *)

(** ** Slices *)

Module PyDataMore.
Import PyData.

Lemma chunks_from_concat {A} (fuel size : nat) (l : list A) :
  (0 < size)%nat -> (length l <= fuel)%nat ->
  concat (chunks_from fuel size l) = l.
Proof.
  intros Hsize. revert l.
  induction fuel as [|fuel IH]; intros l Hlen.
  - destruct l; [done|simpl in Hlen; lia].
  - destruct l as [|x l]; [done|].
    change (concat (firstn size (x :: l)
                    :: chunks_from fuel size (skipn size (x :: l)))
            = x :: l).
    rewrite concat_cons, IH; [apply firstn_skipn|].
    rewrite length_skipn. simpl in *. lia.
Qed.

Lemma chunks_from_sizes {A} (fuel size : nat) (l : list A) :
  (0 < size)%nat -> (length l <= fuel)%nat ->
  Forall (fun b => 0 < length b <= size)%nat (chunks_from fuel size l).
Proof.
  intros Hsize. revert l.
  induction fuel as [|fuel IH]; intros l Hlen.
  - destruct l; [constructor|simpl in Hlen; lia].
  - destruct l as [|x l]; [constructor|].
    change (Forall (fun b => 0 < length b <= size)%nat
              (firstn size (x :: l)
               :: chunks_from fuel size (skipn size (x :: l)))).
    constructor.
    + rewrite length_firstn. simpl. lia.
    + apply IH. rewrite length_skipn. simpl in *. lia.
Qed.

Lemma chunks_from_full {A} (fuel size : nat) (l : list A) (i : nat)
    (b : list A) :
  (0 < size)%nat -> (length l <= fuel)%nat ->
  chunks_from fuel size l !! i = Some b ->
  (S i < length (chunks_from fuel size l))%nat ->
  length b = size.
Proof.
  intros Hsize. revert l i.
  induction fuel as [|fuel IH]; intros l i Hlen Hi Hlast.
  - by destruct l.
  - destruct l as [|x l]; [done|].
    change (chunks_from (S fuel) size (x :: l))
      with (firstn size (x :: l)
            :: chunks_from fuel size (skipn size (x :: l))) in *.
    destruct i as [|i]; simpl in Hi, Hlast.
    + injection Hi as <-. rewrite length_firstn.
      destruct (skipn size (x :: l)) as [|y rest] eqn:Hskip.
      * destruct fuel; simpl in Hlast; lia.
      * apply (f_equal length) in Hskip. rewrite length_skipn in Hskip.
        simpl in *. lia.
    + apply (IH (skipn size (x :: l)) i); [|done|lia].
      rewrite length_skipn. simpl in *. lia.
Qed.

Lemma dict_get_elem {V} (k : string) (v : V) (d : dict V) :
  dict_get k d = Some v -> (k, v) ∈ d.
Proof.
  induction d as [|[k' v'] d IH]; [done|]. cbn [dict_get].
  destruct (String.eqb k k') eqn:Heq.
  - apply String.eqb_eq in Heq as ->. intros [= ->]. apply list_elem_of_here.
  - intros H. apply list_elem_of_further. auto.
Qed.

End PyDataMore.

(** ** The image filter, continued *)

Module ImageFilterMore.
Import PyStr PyData ImageFilter PyStrFacts ImageFilterFacts PyDataMore.

Lemma filter_step_passed (config : FilterConfig) (img : RawImage)
    (f : FilteredImage) (passed : list FilteredImage)
    (skipped : list SkippedImage) (st : Stats) :
  loop_body config img = inl f ->
  filter_step config (passed, skipped, st) img
  = (passed ++ [f], skipped, count_pass st).
Proof. intros H. unfold filter_step. by rewrite H. Qed.

Lemma filter_step_skipped (config : FilterConfig) (img : RawImage)
    (k : SkippedImage) (passed : list FilteredImage)
    (skipped : list SkippedImage) (st : Stats) :
  loop_body config img = inr k ->
  filter_step config (passed, skipped, st) img
  = (passed, skipped ++ [k], count_skip (skip_reason k) st).
Proof. intros H. unfold filter_step. by rewrite H. Qed.

Lemma omap_cons_passed (config : FilterConfig) (img : RawImage)
    (f : FilteredImage) (images : list RawImage) :
  loop_body config img = inl f ->
  omap (passed_of config) (img :: images)
  = f :: omap (passed_of config) images
  /\ omap (skipped_of config) (img :: images)
     = omap (skipped_of config) images.
Proof. intros H. simpl. unfold passed_of, skipped_of. by rewrite H. Qed.

Lemma omap_cons_skipped (config : FilterConfig) (img : RawImage)
    (k : SkippedImage) (images : list RawImage) :
  loop_body config img = inr k ->
  omap (passed_of config) (img :: images)
  = omap (passed_of config) images
  /\ omap (skipped_of config) (img :: images)
     = k :: omap (skipped_of config) images.
Proof. intros H. simpl. unfold passed_of, skipped_of. by rewrite H. Qed.

(** The counters after a run of the loop, from the counters before it. *)
Lemma filter_fold_stats (config : FilterConfig) (images : list RawImage)
    (passed : list FilteredImage) (skipped : list SkippedImage) (st : Stats) :
  let st' := snd (fold_left (filter_step config) images (passed, skipped, st)) in
  st_total st' = st_total st
  /\ st_passed st'
     = st_passed st + Z.of_nat (length (omap (passed_of config) images))
  /\ st_skipped st'
     = st_skipped st + Z.of_nat (length (omap (skipped_of config) images))
  /\ forall reason,
       default 0 (st_skip_reasons st' !! reason)
       = default 0 (st_skip_reasons st !! reason)
         + Z.of_nat (length (filter (fun k => skip_reason k = reason)
                               (omap (skipped_of config) images))).
Proof.
  revert passed skipped st.
  induction images as [|img images IH]; intros passed skipped st.
  - simpl. split; [done|]. split; [lia|]. split; [lia|]. intros reason. lia.
  - change (fold_left (filter_step config) (img :: images)
              (passed, skipped, st))
      with (fold_left (filter_step config) images
              (filter_step config (passed, skipped, st) img)).
    destruct (loop_body config img) as [f|k] eqn:Hb.
    + rewrite (filter_step_passed _ _ _ _ _ _ Hb).
      destruct (omap_cons_passed config img f images Hb) as [-> ->].
      destruct (IH (passed ++ [f]) skipped (count_pass st))
        as (Ht & Hp & Hs & Hr).
      cbv zeta. rewrite Ht, Hp, Hs. cbn [length count_pass st_total st_passed
                                          st_skipped].
      split; [done|]. split; [lia|]. split; [lia|].
      intros reason. by rewrite Hr.
    + rewrite (filter_step_skipped _ _ _ _ _ _ Hb).
      destruct (omap_cons_skipped config img k images Hb) as [-> ->].
      destruct (IH passed (skipped ++ [k]) (count_skip (skip_reason k) st))
        as (Ht & Hp & Hs & Hr).
      cbv zeta. rewrite Ht, Hp, Hs. cbn [length count_skip st_total st_passed
                                          st_skipped].
      split; [done|]. split; [lia|]. split; [lia|].
      intros reason. rewrite Hr. cbn [count_skip st_skip_reasons].
      destruct (decide (skip_reason k = reason)) as [<- | Hne].
      * rewrite lookup_insert_eq, filter_cons_True by done.
        cbn [length from_option]. unfold id. lia.
      * rewrite lookup_insert_ne, filter_cons_False by done. done.
Qed.

(** X1. The statistics kept by [filter_images] describe the lists it
    returns: [total] is the number of input images, [passed] and [skipped]
    are the lengths of the two lists (so they add up to [total]), and the
    count stored for a reason is the number of skipped records that carry
    it (zero for a reason that has no entry). *)
Theorem filter_stats_match_result (config : FilterConfig)
    (images : list RawImage) :
  st_total (get_stats config images) = Z.of_nat (length images)
  /\ st_passed (get_stats config images)
     = Z.of_nat (length (filter_images config images).1)
  /\ st_skipped (get_stats config images)
     = Z.of_nat (length (filter_images config images).2)
  /\ st_passed (get_stats config images) + st_skipped (get_stats config images)
     = st_total (get_stats config images)
  /\ forall reason,
       default 0 (st_skip_reasons (get_stats config images) !! reason)
       = Z.of_nat (length (filter (fun k => skip_reason k = reason)
                             (filter_images config images).2)).
Proof.
  rewrite filter_images_unfold. unfold get_stats, filter_images_state.
  destruct (filter_fold_stats config images [] []
              {| st_total := Z.of_nat (length images); st_passed := 0;
                 st_skipped := 0; st_skip_reasons := ∅ |})
    as (Ht & Hpass & Hskip & Hr).
  cbv zeta in Ht, Hpass, Hskip, Hr.
  cbn [fst snd st_total st_passed st_skipped st_skip_reasons] in *.
  assert (length (omap (passed_of config) images)
          + length (omap (skipped_of config) images) = length images)%nat
    as Hlen.
  { clear. induction images as [|img images IH]; [done|].
    destruct (loop_body config img) as [f|k] eqn:Hb.
    - destruct (omap_cons_passed config img f images Hb) as [-> ->].
      cbn [length]. lia.
    - destruct (omap_cons_skipped config img k images Hb) as [-> ->].
      cbn [length]. lia. }
  split; [done|]. split; [lia|]. split; [lia|]. split; [lia|].
  intros reason. rewrite Hr, lookup_empty. cbn [from_option]. lia.
Qed.

(** X2. The extension check comes before every other rule: an image whose
    local path ends in [.svg], in any letter case, is skipped with the reason
    [unsupported_format], whatever its dimensions, source URL or alt text
    are; the record keeps the local path and names [svg] (or
    [no_extension], when the whole file name is [.svg]) as what matched. *)
Theorem svg_path_unsupported (config : FilterConfig)
    (images : list RawImage) (img : RawImage) (local_path : string) :
  img ∈ images ->
  img_local_path img = Some local_path ->
  endswith ".svg" (lower local_path) = true ->
  exists k,
    k ∈ (filter_images config images).2
    /\ loop_body config img = inr k
    /\ skip_reason k = "unsupported_format"
    /\ si_local_path k = local_path
    /\ (pattern_matched k = Some "svg"
        \/ pattern_matched k = Some "no_extension").
Proof.
  intros Hin Hpath Hsvg.
  assert (truthy local_path = true) as Htruthy.
  { destruct local_path; [|done]. by vm_compute in Hsvg. }
  pose proof (svg_path_rejected _ Hsvg) as Hrej.
  pose proof (svg_file_type _ Hsvg) as Hft.
  assert (exists k, loop_body config img = inr k
            /\ skip_reason k = "unsupported_format"
            /\ si_local_path k = local_path
            /\ (pattern_matched k = Some "svg"
                \/ pattern_matched k = Some "no_extension"))
    as (k & Hk & Hrest).
  { unfold loop_body. rewrite Hpath. simpl default.
    rewrite Htruthy, Hrej. simpl negb. cbv iota.
    eexists. split; [done|]. split; [done|]. split; [done|].
    simpl. destruct Hft as [-> | ->]; [by left|by right]. }
  exists k. split; [by apply (skipped_elem config images img)|done].
Qed.

(** An SVG logo of usable size is stopped by the extension check. *)
Lemma svg_path_unsupported_witness :
  exists k,
    k ∈ (filter_images IMAGE_FILTER_CONFIG Examples.sample_images).2
    /\ loop_body IMAGE_FILTER_CONFIG
         (Examples.sample_image 4 "https://example.com/feature-icon.svg"
            "Tax compliance" 400 400 "images/img_004.svg" 15000) = inr k
    /\ skip_reason k = "unsupported_format"
    /\ si_local_path k = "images/img_004.svg"
    /\ (pattern_matched k = Some "svg"
        \/ pattern_matched k = Some "no_extension").
Proof.
  apply (svg_path_unsupported IMAGE_FILTER_CONFIG Examples.sample_images
           (Examples.sample_image 4 "https://example.com/feature-icon.svg"
              "Tax compliance" 400 400 "images/img_004.svg" 15000)).
  - do 4 apply list_elem_of_further. apply list_elem_of_here.
  - reflexivity.
  - reflexivity.
Defined.

Lemma icon_loop_none (local_path : string) (width height : Z)
    (patterns : list string) (marker : string) :
  icon_loop local_path width height patterns = None ->
  marker ∈ patterns -> contains marker local_path = true ->
  large_icon width height = true.
Proof.
  intros Hloop Hin Hc. destruct (large_icon width height) eqn:Hl; [done|].
  destruct (icon_loop_small _ _ _ _ _ Hl Hin Hc) as [p Hp]. congruence.
Qed.

(** An image that reaches [passed] went by every rule. *)
Lemma passed_survived_rules (config : FilterConfig) (img : RawImage)
    (f : FilteredImage) :
  loop_body config img = inl f ->
  truthy (default "" (img_local_path img)) = true
  /\ file_type_of (default "" (img_local_path img)) ∈ allowed_ext
  /\ rules_before_icon_path config img = None
  /\ icon_loop (lower (default "" (img_local_path img)))
       (default 0 (get (img_width img))) (default 0 (get (img_height img)))
       icon_patterns = None
  /\ f = {| fi_index := default 0 (img_index img);
            fi_local_path := default "" (img_local_path img);
            fi_src := default "" (img_src img);
            fi_alt := default "" (img_alt img);
            fi_width := get (img_width img);
            fi_height := get (img_height img);
            fi_file_size := default 0 (img_file_size img);
            fi_file_type := file_type_of (default "" (img_local_path img)) |}.
Proof.
  set (found := icon_loop _ _ _ icon_patterns).
  unfold loop_body.
  destruct (truthy (default "" (img_local_path img))) eqn:Hpath; [|done].
  simpl negb. cbv iota.
  destruct (negb (truthy _) || negb (bool_decide _)) eqn:Hext; [done|].
  apply orb_false_iff in Hext as [_ Hext].
  apply negb_false_iff, bool_decide_eq_true in Hext.
  destruct (should_skip_cases config img) as [Hs | (r & p & Hs & Ht & _)];
    rewrite Hs; simpl; [|by rewrite Ht].
  intros [= <-]. split; [done|]. split; [done|].
  revert Hs. unfold _should_skip. fold found.
  destruct (rules_before_icon_path config img) as [[r p]|]; [done|].
  destruct found; [done|]. intros _. by repeat split.
Qed.

(** X3. What [filter_images] never lets through: every passed image has a
    local path whose extension is [jpg], [jpeg] or [png] (recorded as its
    file type), is larger than 2 pixels in at least one dimension, has a
    source URL that does not end in [.svg] and contains none of the built-in
    tracking domains and none of the configured URL patterns (all compared
    in lower case), and has an icon marker in its local path only if it is
    a large icon. *)
Theorem passed_images_are_clean (config : FilterConfig)
    (images : list RawImage) (f : FilteredImage) :
  f ∈ (filter_images config images).1 ->
  truthy (fi_local_path f) = true
  /\ fi_file_type f = file_type_of (fi_local_path f)
  /\ fi_file_type f ∈ allowed_ext
  /\ (2 < default 0 (fi_width f) \/ 2 < default 0 (fi_height f))
  /\ endswith ".svg" (lower (fi_src f)) = false
  /\ (forall domain, domain ∈ tracking_domains ->
        contains domain (lower (fi_src f)) = false)
  /\ (forall pattern, pattern ∈ default [] (skip_url_patterns config) ->
        contains (lower pattern) (lower (fi_src f)) = false)
  /\ (forall marker, marker ∈ icon_patterns ->
        contains marker (lower (fi_local_path f)) = true ->
        large_icon (default 0 (fi_width f)) (default 0 (fi_height f)) = true).
Proof.
  rewrite filter_images_unfold. simpl. intros Hf.
  apply list_elem_of_omap in Hf as (img & _ & Hf). unfold passed_of in Hf.
  destruct (loop_body config img) as [f'|] eqn:Hb; [|done].
  injection Hf as ->.
  apply passed_survived_rules in Hb as (Hpath & Hext & Hrules & Hicon & ->).
  simpl. split; [done|]. split; [done|]. split; [done|].
  revert Hrules. unfold rules_before_icon_path.
  destruct (endswith ".svg" (lower (default "" (img_local_path img))));
    [done|].
  destruct (endswith ".svg" (lower (default "" (img_src img)))); [done|].
  simpl orb. cbv iota.
  destruct ((default 0 (get (img_width img)) <=? 2)
            && (default 0 (get (img_height img)) <=? 2)) eqn:Htiny; [done|].
  destruct (nonzero _ && nonzero _ && _ && _); [done|].
  destruct ((0 <? _) && _); [done|].
  destruct (List.find _ (default [] (skip_url_patterns config))) eqn:Hurl;
    [done|].
  destruct (List.find _ tracking_domains) eqn:Hdom; [done|].
  intros _. split; [|split; [done|split; [|split]]].
  - apply andb_false_iff in Htiny as [H | H]; apply Z.leb_gt in H; lia.
  - intros domain Hd.
    apply (find_none _ _ Hdom). by apply list_elem_of_In.
  - intros pattern Hp.
    apply (find_none _ _ Hurl). by apply list_elem_of_In.
  - intros marker Hm Hc. by apply (icon_loop_none _ _ _ _ marker Hicon).
Qed.

(** The sample list: the hero image is among the passed ones and has the
    properties above. *)
Lemma passed_images_are_clean_witness :
  let f := {| fi_index := 3; fi_local_path := "images/img_003.png";
              fi_src := "https://example.com/hero-image.png";
              fi_alt := "Product dashboard"; fi_width := Some 800;
              fi_height := Some 600; fi_file_size := 50000;
              fi_file_type := "png" |} in
  truthy (fi_local_path f) = true
  /\ fi_file_type f = file_type_of (fi_local_path f)
  /\ fi_file_type f ∈ allowed_ext
  /\ (2 < default 0 (fi_width f) \/ 2 < default 0 (fi_height f))
  /\ endswith ".svg" (lower (fi_src f)) = false
  /\ (forall domain, domain ∈ tracking_domains ->
        contains domain (lower (fi_src f)) = false)
  /\ (forall pattern,
        pattern ∈ default [] (skip_url_patterns IMAGE_FILTER_CONFIG) ->
        contains (lower pattern) (lower (fi_src f)) = false)
  /\ (forall marker, marker ∈ icon_patterns ->
        contains marker (lower (fi_local_path f)) = true ->
        large_icon (default 0 (fi_width f)) (default 0 (fi_height f)) = true).
Proof.
  apply (passed_images_are_clean IMAGE_FILTER_CONFIG Examples.sample_images).
  vm_compute. apply list_elem_of_here.
Defined.

(** X4. [batch_images] with a positive size cuts the list into consecutive
    batches: joined again they give the list back, no batch is empty or
    longer than the size, and every batch but the last has exactly the size.
    A size of zero or no size at all stands for ten, and a negative size
    yields no batch at all. *)
Theorem batch_images_partition {A} (images : list A) (n : Z) :
  (0 < n ->
   concat (batch_images images (Some n)) = images
   /\ Forall (fun b => 0 < length b <= Z.to_nat n)%nat
        (batch_images images (Some n))
   /\ forall i b, batch_images images (Some n) !! i = Some b ->
                  (S i < length (batch_images images (Some n)))%nat ->
                  length b = Z.to_nat n)
  /\ batch_images images None = batch_images images (Some 10)
  /\ batch_images images (Some 0) = batch_images images (Some 10)
  /\ (n < 0 -> batch_images images (Some n) = []).
Proof.
  split; [|split; [done|split; [done|]]].
  - intros Hn. unfold batch_images, nonzero.
    rewrite (proj2 (Z.eqb_neq n 0)) by lia. simpl negb. cbv iota.
    rewrite (proj2 (Z.ltb_ge n 0)) by lia. unfold chunks.
    split; [|split].
    + apply chunks_from_concat; lia.
    + apply chunks_from_sizes; lia.
    + intros i b. apply chunks_from_full; lia.
  - intros Hn. unfold batch_images, nonzero.
    rewrite (proj2 (Z.eqb_neq n 0)) by lia. simpl negb. cbv iota.
    by rewrite (proj2 (Z.ltb_lt n 0)) by lia.
Qed.

End ImageFilterMore.

(** ** Section ids and the outline, continued *)

Module SectionParserMore.
Import PyStr SectionParser PyStrFacts SectionParserFacts.

(** *** The shape of a slug *)

Lemma str_forall_lstrip (P Q : ascii -> bool) (s : string) :
  str_forall P s = true -> str_forall P (lstrip Q s) = true.
Proof.
  induction s as [|c s IH]; simpl; [done|].
  intros H. destruct (Q c); [|done].
  apply andb_true_iff in H as [_ H]. auto.
Qed.

Lemma str_forall_rstrip (P Q : ascii -> bool) (s : string) :
  str_forall P s = true -> str_forall P (rstrip Q s) = true.
Proof.
  induction s as [|c s IH]; simpl; [done|].
  intros H. apply andb_true_iff in H as [Hc H]. specialize (IH H).
  destruct (rstrip Q s) as [|d r]; [destruct (Q c)|]; simpl in *;
    by rewrite ?Hc, ?IH.
Qed.

Lemma str_forall_take (P : ascii -> bool) (n : nat) (s : string) :
  str_forall P s = true -> str_forall P (take n s) = true.
Proof.
  revert s. induction n as [|n IH]; intros [|c s]; simpl; try done.
  intros H. apply andb_true_iff in H as [Hc H]. by rewrite Hc, IH.
Qed.

Lemma length_take (n : nat) (s : string) :
  (String.length (take n s) <= n)%nat.
Proof.
  revert s. induction n as [|n IH]; intros [|c s]; simpl; try lia.
  specialize (IH s). lia.
Qed.

Lemma str_forall_remove (P : ascii -> bool) (s : string) :
  str_forall (fun c => negb (P c)) (remove_chars P s) = true.
Proof.
  induction s as [|c s IH]; simpl; [done|].
  destruct (P c) eqn:Hc; [done|]. simpl. by rewrite Hc.
Qed.

Lemma str_forall_ext (P Q : ascii -> bool) (s : string) :
  (forall c, P c = Q c) -> str_forall P s = str_forall Q s.
Proof.
  intros H. induction s as [|c s IH]; simpl; [done|]. by rewrite H, IH.
Qed.

Lemma isword_underscore : isword "_" = true.
Proof. reflexivity. Qed.

Lemma str_forall_collapse (inrun : bool) (s : string) :
  str_forall (fun c => isword c || isspace c || Ascii.eqb c "-") s = true ->
  str_forall isword (collapse_runs inrun s) = true.
Proof.
  revert inrun. induction s as [|c s IH]; intros inrun; simpl; [done|].
  intros H. apply andb_true_iff in H as [Hc H].
  destruct (isspace c || Ascii.eqb c "-") eqn:Hsep.
  - destruct inrun; [by apply IH|].
    change (isword "_" && str_forall isword (collapse_runs true s) = true).
    by rewrite isword_underscore, IH.
  - simpl. apply orb_false_iff in Hsep as [Hs Hh].
    rewrite Hs, Hh, !orb_false_r in Hc. by rewrite Hc, IH.
Qed.

Lemma lstrip_head (Q : ascii -> bool) (s : string) (c : ascii) (r : string) :
  lstrip Q s = String c r -> Q c = false.
Proof.
  induction s as [|d s IH]; simpl; [done|].
  destruct (Q d) eqn:Hd; [done|]. by intros [= <- _].
Qed.

(** X5. The slug of a title is never empty, has at most 50 characters, is
    made of word characters only (letters, digits and underscores: no white
    space, no hyphen, no punctuation) and does not begin with an
    underscore. *)
Theorem slugify_shape (title : string) :
  truthy (slugify title) = true
  /\ (String.length (slugify title) <= 50)%nat
  /\ str_forall isword (slugify title) = true
  /\ startswith "_" (slugify title) = false.
Proof.
  unfold slugify.
  set (cleaned := remove_chars
                    (fun c => negb (isword c || isspace c || Ascii.eqb c "-"))
                    _).
  assert (str_forall isword (collapse_runs false cleaned) = true) as Hword.
  { apply str_forall_collapse. subst cleaned.
    rewrite (str_forall_ext _
               (fun c => negb (negb (isword c || isspace c
                                     || Ascii.eqb c "-"))))
      by (intros c; by rewrite negb_involutive).
    apply (str_forall_remove
             (fun c => negb (isword c || isspace c || Ascii.eqb c "-"))). }
  set (stripped := strip (Ascii.eqb "_") (collapse_runs false cleaned)).
  assert (str_forall isword stripped = true) as Hstripped
    by (by apply str_forall_lstrip, str_forall_rstrip).
  destruct (truthy (take 50 stripped)) eqn:Hempty;
    [|repeat split; try done; simpl; lia].
  split; [done|]. split; [apply length_take|].
  split; [by apply str_forall_take|].
  destruct stripped as [|c r] eqn:Hs; [done|].
  unfold strip in Hs. apply lstrip_head in Hs.
  cbn [take startswith]. by rewrite Hs.
Qed.

(** *** Which candidate the loop returns *)

Lemma unique_loop_first (fuel : nat) (seen_ids : gset string)
    (base_id slug : string) (counter : Z) (r : string) :
  unique_loop fuel seen_ids base_id slug counter = Some r ->
  (r = slug /\ slug ∉ seen_ids)
  \/ (slug ∈ seen_ids
      /\ exists k, counter <= k /\ r = suffixed base_id k
           /\ forall j, counter <= j < k -> suffixed base_id j ∈ seen_ids).
Proof.
  revert slug counter.
  induction fuel as [|fuel IH]; intros slug counter; simpl;
    case_bool_decide as Hin; try done; try (intros [= <-]; by left).
  intros Hr. right. split; [done|].
  destruct (IH _ _ Hr) as [[-> Hfree] | (Hseen & k & Hk & -> & Hbelow)].
  - exists counter. split; [lia|]. split; [done|]. intros j Hj. lia.
  - exists k. split; [lia|]. split; [done|]. intros j Hj.
    destruct (decide (j = counter)) as [-> | Hne]; [done|].
    apply Hbelow. lia.
Qed.

(** X6. [_generate_unique_id] returns the first free candidate of the
    sequence slug, slug_1, slug_2, ...: the slug itself when it was not
    seen, otherwise slug_k for the least [k >= 1] whose candidate was not
    seen; the id is added to the set of seen ids. *)
Theorem generate_unique_id_first_free (title : string)
    (seen_ids : gset string) :
  exists id,
    _generate_unique_id title seen_ids = Some (id, {[id]} ∪ seen_ids)
    /\ (id ∉ seen_ids)
    /\ ((id = slugify title)
        \/ (slugify title ∈ seen_ids
            /\ exists k, 1 <= k /\ id = suffixed (slugify title) k
                 /\ forall j, 1 <= j < k ->
                      suffixed (slugify title) j ∈ seen_ids)).
Proof.
  destruct (generate_unique_id_fresh title seen_ids) as (id & Hid & Hfresh & _).
  exists id. split; [done|]. split; [done|].
  unfold _generate_unique_id in Hid.
  destruct (unique_loop _ _ _ _ _) as [r|] eqn:Hloop; [|done].
  injection Hid as ->.
  destruct (unique_loop_first _ _ _ _ _ _ Hloop) as [[-> _] | Hsuffixed];
    [by left|by right].
Qed.

(** *** The outline [parse] returns *)

(** The test that lets a heading through in [_extract_heading_sections]. *)
Lemma heading_pass_titles (headings : list Heading) (seen_ids : gset string)
    (sections : list ParsedSection) (seen' : gset string) :
  _extract_heading_sections headings seen_ids = Some (sections, seen') ->
  map (fun s => (ps_title s, ps_level s, ps_section_type s)) sections
  = map (fun h => (h_text h, h_level h,
                   if h_has_faq h then "faq"
                   else if h_has_table h then "table" else "heading"))
      (List.filter
         (fun h => negb (negb (truthy (h_text h))
                         || (String.length (h_text h) <? 2)%nat
                         || _is_navigation_heading (h_text h) h))
         headings).
Proof.
  revert seen_ids sections seen'.
  induction headings as [|h rest IH]; intros seen_ids sections seen'; simpl.
  - by intros [= <- _].
  - destruct (_ || _ || _); simpl; [apply IH|].
    destruct (_generate_unique_id _ _) as [[id seen1]|]; [|done].
    destruct (_extract_heading_sections rest seen1) as [[secs seen2]|] eqn:Hr;
      [|done].
    intros [= <- _]. simpl. f_equal. by apply (IH seen1 secs seen2).
Qed.

Lemma parse_outline_shape (doc : Document) :
  exists sections,
    parse doc = Some sections
    /\ map (fun s => (ps_title s, ps_level s, ps_section_type s)) sections
       = map (fun h => (h_text h, h_level h,
                        if h_has_faq h then "faq"
                        else if h_has_table h then "table" else "heading"))
           (List.filter
              (fun h => negb (negb (truthy (h_text h))
                              || (String.length (h_text h) <? 2)%nat
                              || _is_navigation_heading (h_text h) h))
              (doc_headings doc))
         ++ (if doc_has_cta doc
             then [("Contact & CTA Information", 2, "cta")] else [])
         ++ (if doc_has_testimonials doc
             then [("Testimonials & Quotes", 2, "testimonial")] else []).
Proof.
  unfold parse.
  destruct (heading_pass_ids (doc_headings doc) ∅)
    as (hs & seen1 & Hh & _).
  rewrite Hh. apply heading_pass_titles in Hh.
  unfold _extract_synthetic.
  destruct (doc_has_cta doc).
  - destruct (generate_unique_id_fresh "contact_cta" seen1)
      as (id1 & -> & _).
    destruct (doc_has_testimonials doc).
    + destruct (generate_unique_id_fresh "testimonials" ({[id1]} ∪ seen1))
        as (id2 & -> & _).
      eexists. split; [done|]. by rewrite !map_app, Hh.
    + eexists. split; [done|]. by rewrite !map_app, Hh.
  - destruct (doc_has_testimonials doc).
    + destruct (generate_unique_id_fresh "testimonials" seen1)
        as (id2 & -> & _).
      eexists. split; [done|]. by rewrite !map_app, Hh.
    + eexists. split; [done|]. by rewrite !map_app, Hh.
Qed.

(** X7. [parse] returns the outline in document order: one section for
    every heading that has a title of at least two characters and is not a
    navigation heading, with that heading's title and level and the type
    [faq], [table] or [heading]; then the contact section if a phone link or
    a contact form was found; then the testimonial section if a testimonial
    was found.  So the outline never has more than two sections more than
    the document has headings. *)
Theorem parse_outline (doc : Document) :
  exists sections,
    parse doc = Some sections
    /\ map (fun s => (ps_title s, ps_level s, ps_section_type s)) sections
       = map (fun h => (h_text h, h_level h,
                        if h_has_faq h then "faq"
                        else if h_has_table h then "table" else "heading"))
           (List.filter
              (fun h => negb (negb (truthy (h_text h))
                              || (String.length (h_text h) <? 2)%nat
                              || _is_navigation_heading (h_text h) h))
              (doc_headings doc))
         ++ (if doc_has_cta doc
             then [("Contact & CTA Information", 2, "cta")] else [])
         ++ (if doc_has_testimonials doc
             then [("Testimonials & Quotes", 2, "testimonial")] else [])
    /\ (length sections <= length (doc_headings doc) + 2)%nat.
Proof.
  destruct (parse_outline_shape doc) as (sections & Hparse & Hshape).
  exists sections. split; [done|]. split; [done|].
  apply (f_equal length) in Hshape.
  rewrite !length_app, !length_map in Hshape. rewrite Hshape.
  pose proof (filter_length_le
                (fun h => negb (negb (truthy (h_text h))
                                || (String.length (h_text h) <? 2)%nat
                                || _is_navigation_heading (h_text h) h))
                (doc_headings doc)) as Hle.
  destruct (doc_has_cta doc), (doc_has_testimonials doc); simpl; lia.
Qed.

(** X8. No section of the outline has a short or navigation-like title:
    every title has at least four characters and contains, in lower case,
    none of the navigation words ([menu], [nav], [open], [close], [expand],
    [search], ...), not even as part of a longer word. *)
Theorem outline_titles_not_navigation (doc : Document)
    (sections : list ParsedSection) (s : ParsedSection) :
  parse doc = Some sections -> s ∈ sections ->
  (4 <= String.length (ps_title s))%nat
  /\ forall pattern, pattern ∈ nav_patterns ->
       contains pattern (lower (ps_title s)) = false.
Proof.
  intros Hparse Hs.
  destruct (parse_outline_shape doc) as (sections' & Hparse' & Htitles).
  rewrite Hparse in Hparse'. injection Hparse' as <-.
  assert ((ps_title s, ps_level s, ps_section_type s)
          ∈ map (fun s => (ps_title s, ps_level s, ps_section_type s))
              sections) as Ht
    by (apply list_elem_of_fmap; by exists s).
  rewrite Htitles in Ht.
  apply elem_of_app in Ht as [Ht | Ht].
  - apply list_elem_of_fmap in Ht as (h & Heq & Hh).
    injection Heq as -> _ _.
    apply list_elem_of_In, filter_In in Hh as [_ Hkeep].
    apply negb_true_iff in Hkeep.
    apply orb_false_iff in Hkeep as [_ Hnav].
    unfold _is_navigation_heading in Hnav.
    apply orb_false_iff in Hnav as [Hnav _].
    apply orb_false_iff in Hnav as [Hlen Hpat].
    apply Nat.leb_gt in Hlen. split; [lia|].
    intros pattern Hp.
    destruct (contains pattern (lower (h_text h))) eqn:Hc; [|done].
    assert (existsb (fun pattern => contains pattern (lower (h_text h)))
              nav_patterns = true); [|congruence].
    apply existsb_exists. exists pattern. split; [|done].
    by apply list_elem_of_In.
  - assert (ps_title s = "Contact & CTA Information"
            \/ ps_title s = "Testimonials & Quotes") as [-> | ->].
    { destruct (doc_has_cta doc), (doc_has_testimonials doc); simpl in Ht;
        repeat (apply elem_of_cons in Ht as [[= -> _ _] | Ht]; [by auto|]);
        by apply elem_of_nil in Ht. }
    + split; [simpl; lia|]. intros pattern Hp. unfold nav_patterns in Hp.
      repeat (apply elem_of_cons in Hp as [-> | Hp]; [by vm_compute|]).
      by apply elem_of_nil in Hp.
    + split; [simpl; lia|]. intros pattern Hp. unfold nav_patterns in Hp.
      repeat (apply elem_of_cons in Hp as [-> | Hp]; [by vm_compute|]).
      by apply elem_of_nil in Hp.
Qed.

(** Of three headings, [FAQ] is too short and [Open enrollment] contains
    a navigation word; the one section left has a title that passes. *)
Lemma outline_titles_not_navigation_witness :
  (4 <= String.length "Payroll services")%nat
  /\ forall pattern, pattern ∈ nav_patterns ->
       contains pattern (lower "Payroll services") = false.
Proof.
  apply (outline_titles_not_navigation
           {| doc_headings :=
                map (fun t => {| h_text := t; h_level := 2;
                                 h_inside_nav := false; h_has_faq := false;
                                 h_has_table := false |})
                  ["FAQ"; "Open enrollment"; "Payroll services"];
              doc_has_cta := false; doc_has_testimonials := false |}
           [{| ps_id := "payroll_services"; ps_title := "Payroll services";
               ps_level := 2; ps_section_type := "heading";
               ps_tag := "h2" |}]
           {| ps_id := "payroll_services"; ps_title := "Payroll services";
              ps_level := 2; ps_section_type := "heading"; ps_tag := "h2" |}).
  - vm_compute. reflexivity.
  - apply list_elem_of_here.
Defined.

End SectionParserMore.

(** ** JSON repair, continued *)

Module JsonRepairMore.
Import PyStr Json JsonRepair PyStrFacts.

(** *** Finding the JSON text *)

Lemma search_fenced_none (s : string) :
  contains "```" s = false -> search_fenced s = None.
Proof.
  induction s as [|c s IH]; [done|].
  change (contains "```" (String c s))
    with (startswith "```" (String c s) || contains "```" s).
  intros H. apply orb_false_iff in H as [Hhere Hrest].
  change (search_fenced (String c s))
    with (match match_fence (String c s) with
          | Some g => Some g
          | None => search_fenced s
          end).
  unfold match_fence. rewrite Hhere. auto.
Qed.

Lemma upto_last_none (c : ascii) (s : string) :
  has_char c s = false -> upto_last c s = None.
Proof.
  induction s as [|d s IH]; simpl; [done|].
  intros H. apply orb_false_iff in H as [Hd Hs].
  by rewrite (IH Hs), Ascii.eqb_sym, Hd.
Qed.

Lemma search_braces_none (s : string) :
  has_char "}" s = false -> search_braces s = None.
Proof.
  induction s as [|c s IH]; simpl; [done|].
  intros H. apply orb_false_iff in H as [_ Hs].
  rewrite (upto_last_none _ _ Hs), (IH Hs). by destruct (Ascii.eqb c "{").
Qed.

(** X9. A reply that holds no code fence and no closing brace has no JSON
    text to offer: [parse_json_response] raises [ValueError] with the
    message [No JSON found in response:] followed by the first 500
    characters of the reply, and [json.loads] is never called.  Every reply
    that was cut off before its first closing brace is of this kind. *)
Theorem no_json_found (loads : string -> option json) (response : string) :
  contains "```" response = false ->
  has_char "}" response = false ->
  parse_json_response loads response
  = Raise (ValueError ("No JSON found in response: " +:+ take 500 response
                       +:+ "...")).
Proof.
  intros Hfence Hbrace. unfold parse_json_response.
  by rewrite (search_fenced_none _ Hfence), (search_braces_none _ Hbrace).
Qed.

(** A reply cut off inside an array. *)
Lemma no_json_found_witness :
  parse_json_response (fun _ => Some JNull) "{sections: [1, 2"
  = Raise (ValueError ("No JSON found in response: "
                       +:+ take 500 "{sections: [1, 2" +:+ "...")).
Proof.
  apply (no_json_found (fun _ => Some JNull) "{sections: [1, 2");
    reflexivity.
Defined.

Lemma upto_last_app (c : ascii) (body after : string) :
  has_char c after = false ->
  upto_last c (body +:+ String c after) = Some (body +:+ String c "").
Proof.
  intros Hafter. induction body as [|d body IH].
  - rewrite !str_app_nil_l. simpl.
    by rewrite (upto_last_none _ _ Hafter), Ascii.eqb_refl.
  - rewrite !str_app_cons. simpl. by rewrite IH.
Qed.

Lemma search_braces_skip (before s : string) :
  has_char "{" before = false ->
  search_braces (before +:+ s) = search_braces s.
Proof.
  induction before as [|c before IH]; [done|].
  rewrite str_app_cons. cbn [search_braces has_char]. intros H.
  apply orb_false_iff in H as [Hc Hrest].
  rewrite Ascii.eqb_sym, Hc. auto.
Qed.

Lemma rstrip_keeps_end (P : ascii -> bool) (s : string) (c : ascii) :
  P c = false -> rstrip P (s +:+ String c "") = s +:+ String c "".
Proof.
  intros Hc. induction s as [|d s IH].
  - rewrite str_app_nil_l. simpl. by rewrite Hc.
  - rewrite str_app_cons. simpl. rewrite IH.
    destruct s; by rewrite ?str_app_nil_l, ?str_app_cons.
Qed.

(** X10. Prose around a JSON object does not matter.  When a reply has no
    code fence, the text from its first opening brace to its last closing
    brace is what [json.loads] gets; if [json.loads] accepts it,
    [parse_json_response] returns that value and no repair is tried. *)
Theorem object_in_prose_parsed (loads : string -> option json)
    (before body after : string) (v : json) :
  contains "```" (before +:+ String "{" (body +:+ String "}" after)) = false ->
  has_char "{" before = false ->
  has_char "}" after = false ->
  loads (String "{" (body +:+ String "}" "")) = Some v ->
  parse_json_response loads
    (before +:+ String "{" (body +:+ String "}" after))
  = Ok v.
Proof.
  intros Hfence Hbefore Hafter Hloads. unfold parse_json_response.
  rewrite (search_fenced_none _ Hfence), (search_braces_skip _ _ Hbefore).
  cbn [search_braces]. rewrite Ascii.eqb_refl, (upto_last_app _ _ _ Hafter).
  assert (strip isspace (String "{" (body +:+ String "}" ""))
          = String "{" (body +:+ String "}" "")) as ->.
  { unfold strip.
    change (String "{" (body +:+ String "}" ""))
      with (String "{" body +:+ String "}" "").
    by rewrite rstrip_keeps_end. }
  by rewrite Hloads.
Qed.

(** A reply with a sentence before and after the object. *)
Lemma object_in_prose_parsed_witness :
  parse_json_response
    (fun text => if String.eqb text "{x: 1}" then Some (JNum "1") else None)
    ("Here you go: " +:+ String "{" ("x: 1" +:+ String "}" " Thanks."))
  = Ok (JNum "1").
Proof.
  apply (object_in_prose_parsed
           (fun text => if String.eqb text "{x: 1}" then Some (JNum "1")
                        else None)
           "Here you go: " "x: 1" " Thanks." (JNum "1")); reflexivity.
Defined.

(** *** The repair of trailing commas *)

Lemma drop_trailing_commas_erased (close : ascii) (skipping : bool)
    (s : string) :
  SectionParser.remove_chars comma_or_space
    (drop_trailing_commas close skipping s)
  = SectionParser.remove_chars comma_or_space s.
Proof.
  revert skipping. induction s as [|c s IH]; intros skipping; [done|].
  cbn [drop_trailing_commas SectionParser.remove_chars].
  destruct skipping.
  - destruct (isspace c) eqn:Hs.
    + unfold comma_or_space at 2. rewrite Hs, orb_true_r. apply IH.
    + cbn [SectionParser.remove_chars]. by rewrite IH.
  - destruct (Ascii.eqb c "," && closes_next close s) eqn:Hc.
    + apply andb_true_iff in Hc as [Hc _].
      unfold comma_or_space at 2. rewrite Hc. apply IH.
    + cbn [SectionParser.remove_chars]. by rewrite IH.
Qed.

Lemma drop_trailing_commas_length (close : ascii) (skipping : bool)
    (s : string) :
  (String.length (drop_trailing_commas close skipping s)
   <= String.length s)%nat.
Proof.
  revert skipping. induction s as [|c s IH]; intros skipping; [done|].
  cbn [drop_trailing_commas].
  pose proof (IH true). pose proof (IH false).
  destruct skipping; [destruct (isspace c)|destruct (_ && _)]; simpl; lia.
Qed.

Lemma drop_trailing_commas_id (close : ascii) (s : string) :
  has_char "," s = false -> drop_trailing_commas close false s = s.
Proof.
  induction s as [|c s IH]; [done|]. cbn [drop_trailing_commas has_char].
  intros H. apply orb_false_iff in H as [Hc Hs].
  rewrite Ascii.eqb_sym, Hc. simpl. by rewrite IH.
Qed.

(** X11. [_repair_json] only ever deletes commas and white space: erasing
    all commas and white space from its result and from its argument gives
    the same text; the result is never longer than the argument; and a text
    without a comma comes back unchanged. *)
Theorem repair_json_only_deletes (json_str : string) :
  SectionParser.remove_chars comma_or_space (_repair_json json_str)
  = SectionParser.remove_chars comma_or_space json_str
  /\ (String.length (_repair_json json_str) <= String.length json_str)%nat
  /\ (has_char "," json_str = false -> _repair_json json_str = json_str).
Proof.
  unfold _repair_json. split; [|split].
  - by rewrite !drop_trailing_commas_erased.
  - pose proof (drop_trailing_commas_length "]" false
                  (drop_trailing_commas "}" false json_str)).
    pose proof (drop_trailing_commas_length "}" false json_str). lia.
  - intros H. by rewrite (drop_trailing_commas_id "}" _ H),
      (drop_trailing_commas_id "]" _ H).
Qed.

(** *** Cutting a reply at its last complete object *)

Lemma scan_step_last_valid_pos (st : Scan) (i : Z) (char : ascii) :
  last_valid_pos (scan_step st i char) = last_valid_pos st
  \/ (last_valid_pos (scan_step st i char) = i + 1 /\ char = "}"%char
      /\ balanced (scan_step st i char)).
Proof.
  unfold scan_step.
  destruct (escape_next st) eqn:Hesc; [by left|].
  destruct (Ascii.eqb char BSLASH); [by left|].
  destruct (Ascii.eqb char DQ); [by left|].
  destruct (in_string st) eqn:Hstr; [by left|].
  destruct (Ascii.eqb char "{"); [by left|].
  destruct (Ascii.eqb char "}") eqn:Hclose.
  - apply Ascii.eqb_eq in Hclose as ->. cbn [last_valid_pos].
    destruct ((depth_brace st - 1 =? 0) && (depth_bracket st =? 0)) eqn:Hd;
      [right|by left].
    apply andb_true_iff in Hd as [Hb Hk].
    apply Z.eqb_eq in Hb, Hk. by repeat split.
  - destruct (Ascii.eqb char "["); [by left|].
    destruct (Ascii.eqb char "]"); by left.
Qed.

(** Where [last_valid_pos] ends up: untouched, or just after a closing
    brace at which the scan was balanced. *)
Lemma scan_last_valid_pos (st : Scan) (i : Z) (s : string) :
  last_valid_pos (scan st i s) = last_valid_pos st
  \/ exists p rest,
       s = p +:+ String "}" rest
       /\ last_valid_pos (scan st i s) = i + Z.of_nat (String.length p) + 1
       /\ balanced (scan st i (p +:+ String "}" "")).
Proof.
  revert st i. induction s as [|c s IH]; intros st i; [by left|].
  cbn [scan].
  destruct (IH (scan_step st i c) (i + 1)) as [Hkeep|(p & rest & -> & Hpos & Hbal)].
  - rewrite Hkeep.
    destruct (scan_step_last_valid_pos st i c) as [Hsame|(Hpos & -> & Hbal)];
      [by left|right].
    exists "", s. rewrite !str_app_nil_l. cbn [scan String.length].
    repeat split; try apply Hbal. lia.
  - right. exists (String c p), rest. rewrite !str_app_cons.
    cbn [scan String.length]. repeat split; try apply Hbal. lia.
Qed.

Lemma take_app_length (a b : string) : take (String.length a) (a +:+ b) = a.
Proof.
  induction a as [|x a IH]; [by destruct b|].
  rewrite str_app_cons. cbn [String.length take]. by rewrite IH.
Qed.

(** The first branch of [_truncate_to_valid_json]. *)
Lemma truncate_first_branch (json_str : string) :
  0 < last_valid_pos (scan scan_start 0 json_str) ->
  exists p rest,
    json_str = p +:+ String "}" rest
    /\ _truncate_to_valid_json json_str = Some (p +:+ String "}" "")
    /\ balanced (scan scan_start 0 (p +:+ String "}" "")).
Proof.
  intros Hpos. unfold _truncate_to_valid_json. cbv zeta.
  destruct (scan_last_valid_pos scan_start 0 json_str)
    as [Hkeep|(p & rest & Hs & Hlast & Hbal)].
  - rewrite Hkeep in Hpos. simpl in Hpos. lia.
  - exists p, rest. split; [done|]. split; [|done].
    destruct (Z.ltb_spec 0 (last_valid_pos (scan scan_start 0 json_str)));
      [|lia].
    rewrite Hlast.
    replace (Z.to_nat (0 + Z.of_nat (String.length p) + 1))
      with (String.length (p +:+ String "}" ""))
      by (rewrite str_length_app; simpl; lia).
    rewrite Hs.
    replace (p +:+ String "}" rest) with ((p +:+ String "}" "") +:+ rest)
      by (by rewrite str_app_assoc).
    by rewrite take_app_length.
Qed.

(** X12. When the scan of [_truncate_to_valid_json] has seen a closing brace
    that brought both depths back to zero, the function returns a prefix of
    its argument that ends with a closing brace, and the scan of that prefix
    alone ends outside every object, array and string: the cut is at a
    complete top-level object, whatever follows it. *)
Theorem truncate_cuts_at_complete_object (json_str : string) :
  0 < last_valid_pos (scan scan_start 0 json_str) ->
  exists truncated rest,
    _truncate_to_valid_json json_str = Some truncated
    /\ json_str = truncated +:+ rest
    /\ endswith "}" truncated = true
    /\ balanced (scan scan_start 0 truncated).
Proof.
  intros Hpos.
  destruct (truncate_first_branch json_str Hpos) as (p & rest & Hs & Ht & Hbal).
  exists (p +:+ String "}" ""), rest. repeat split; try apply Hbal; try done.
  - by rewrite Hs, str_app_assoc.
  - apply endswith_spec. by exists p.
Qed.

(** An object followed by the start of a second one. *)
Lemma truncate_cuts_at_complete_object_witness :
  exists truncated rest,
    _truncate_to_valid_json "{a: [1, 2]}, {b: [3" = Some truncated
    /\ "{a: [1, 2]}, {b: [3" = truncated +:+ rest
    /\ endswith "}" truncated = true
    /\ balanced (scan scan_start 0 truncated).
Proof.
  apply (truncate_cuts_at_complete_object "{a: [1, 2]}, {b: [3").
  vm_compute. reflexivity.
Defined.

Lemma truthy_app (a b : string) : truthy (a +:+ b) = truthy a || truthy b.
Proof. destruct a; [by rewrite str_app_nil_l|by rewrite str_app_cons]. Qed.

Lemma truthy_repeat_char (c : ascii) (n : Z) :
  0 < n -> truthy (repeat_char c n) = true.
Proof.
  intros Hn. unfold repeat_char.
  destruct (Z.to_nat n) as [|k] eqn:Hk; [lia|done].
Qed.

(** X13. [_truncate_to_valid_json] never returns an empty text: whenever it
    returns a text at all, the test [if truncated] of [parse_json_response]
    succeeds and [json.loads] is tried on it. *)
Theorem truncate_never_empty (json_str truncated : string) :
  _truncate_to_valid_json json_str = Some truncated ->
  truthy truncated = true.
Proof.
  intros Ht.
  destruct (Z.ltb_spec 0 (last_valid_pos (scan scan_start 0 json_str)))
    as [Hpos|Hpos].
  - destruct (truncate_first_branch json_str Hpos) as (p & rest & _ & Ht' & _).
    rewrite Ht' in Ht. injection Ht as <-.
    by rewrite truthy_app, orb_true_r.
  - revert Ht. unfold _truncate_to_valid_json. cbv zeta.
    destruct (Z.ltb_spec 0 (last_valid_pos (scan scan_start 0 json_str)));
      [lia|].
    destruct ((0 <? depth_brace (scan scan_start 0 json_str))
              || (0 <? depth_bracket (scan scan_start 0 json_str))) eqn:Hd;
      [|done].
    intros [= <-]. rewrite !truthy_app.
    apply orb_true_iff in Hd as [Hd|Hd]; apply Z.ltb_lt in Hd.
    + by rewrite (truthy_repeat_char "}" _ Hd), orb_true_r.
    + by rewrite (truthy_repeat_char "]" _ Hd), !orb_true_r.
Qed.

(** A reply cut off inside its only object. *)
Lemma truncate_never_empty_witness : truthy "{a: [1]}" = true.
Proof.
  apply (truncate_never_empty "{a: [1" "{a: [1]}"). vm_compute. reflexivity.
Defined.

(** *** A reply in a code fence *)

Lemma search_fenced_skip (before s : string) :
  has_char "`" before = false ->
  search_fenced (before +:+ s) = search_fenced s.
Proof.
  induction before as [|c before IH]; [done|].
  rewrite str_app_cons. cbn [has_char]. intros H.
  apply orb_false_iff in H as [Hc Hrest].
  change (search_fenced (String c (before +:+ s)))
    with (match match_fence (String c (before +:+ s)) with
          | Some g => Some g
          | None => search_fenced (before +:+ s)
          end).
  unfold match_fence. cbn [startswith]. rewrite Hc. cbn [andb]. auto.
Qed.

Lemma lstrip_spaces (ws s : string) :
  str_forall isspace ws = true ->
  lstrip isspace (ws +:+ s) = lstrip isspace s.
Proof.
  induction ws as [|c ws IH]; [done|].
  rewrite str_app_cons. cbn [str_forall lstrip]. intros H.
  apply andb_true_iff in H as [-> Hws]. auto.
Qed.

Lemma rstrip_all_space (s : string) :
  str_forall isspace s = true -> rstrip isspace s = "".
Proof.
  induction s as [|c s IH]; [done|]. cbn [str_forall rstrip]. intros H.
  apply andb_true_iff in H as [-> Hs]. by rewrite IH.
Qed.

Lemma rstrip_fixed_tail (c : ascii) (b : string) :
  rstrip isspace (String c b) = String c b -> rstrip isspace b = b.
Proof.
  cbn [rstrip]. destruct (rstrip isspace b) as [|d r] eqn:Hr.
  - destruct (isspace c); [done|]. by intros [= <-].
  - by intros [= <-].
Qed.

Lemma no_fence_after_text (s rest : string) :
  has_char "`" s = false ->
  str_forall isspace s = false ->
  startswith "```" (lstrip isspace (s +:+ rest)) = false.
Proof.
  induction s as [|c s IH]; [done|].
  rewrite str_app_cons. cbn [has_char str_forall lstrip]. intros Hq Hs.
  apply orb_false_iff in Hq as [Hc Hq].
  destruct (isspace c); [by apply IH|].
  cbn [startswith]. by rewrite Hc.
Qed.

Lemma lazy_group_unfold (s : string) :
  lazy_group s
  = if startswith "```" (lstrip isspace s) then Some ""
    else match s with
         | "" => None
         | String c r => option_map (String c) (lazy_group r)
         end.
Proof. by destruct s. Qed.

(** The lazy group stops at the end of a text that has no backquote and no
    white space at its end. *)
Lemma lazy_group_body (body ws after : string) :
  has_char "`" body = false ->
  rstrip isspace body = body ->
  str_forall isspace ws = true ->
  lazy_group (body +:+ ws +:+ "```" +:+ after) = Some body.
Proof.
  intros Hq Hr Hws. induction body as [|c b IH].
  - rewrite str_app_nil_l, lazy_group_unfold, lstrip_spaces by done.
    by change ("```" +:+ after)
      with (String "`" (String "`" (String "`" after))).
  - rewrite str_app_cons, lazy_group_unfold, <- str_app_cons.
    rewrite no_fence_after_text; [|done|].
    + rewrite IH; [done| |by apply (rstrip_fixed_tail c)].
      cbn [has_char] in Hq. by apply orb_false_iff in Hq as [_ Hq].
    + destruct (str_forall isspace (String c b)) eqn:Hall; [|done].
      by rewrite (rstrip_all_space _ Hall) in Hr.
Qed.

Lemma match_fence_tagged (s g : string) :
  lazy_group (lstrip isspace s) = Some g ->
  match_fence ("```json" +:+ s) = Some g.
Proof.
  intros H.
  change ("```json" +:+ s)
    with (String "`" (String "`" (String "`"
            (String "j" (String "s" (String "o" (String "n" s))))))).
  unfold match_fence. cbn [startswith drop]. rewrite !Ascii.eqb_refl.
  cbn [andb]. by rewrite H.
Qed.

Lemma match_fence_plain (s g : string) :
  startswith "json" s = false ->
  lazy_group (lstrip isspace s) = Some g ->
  match_fence ("```" +:+ s) = Some g.
Proof.
  intros Htag H.
  change ("```" +:+ s) with (String "`" (String "`" (String "`" s))).
  unfold match_fence.
  change (startswith "```" (String "`" (String "`" (String "`" s))))
    with true.
  cbn [drop]. by rewrite Htag, H.
Qed.

Lemma no_tag_before_object (ws rest : string) :
  str_forall isspace ws = true ->
  startswith "json" (ws +:+ String "{" rest) = false.
Proof.
  destruct ws as [|c ws]; [done|].
  rewrite str_app_cons. cbn [str_forall startswith]. intros H.
  apply andb_true_iff in H as [Hc _].
  destruct (Ascii.eqb_spec "j" c) as [<-|]; [|done]. by vm_compute in Hc.
Qed.

(** X14. A JSON object in a code fence is found, with the tag [json] or
    without it, whatever surrounds the fence: when no backquote stands
    before the fence or inside the object, and only white space separates
    the object from the two fences, [json.loads] gets exactly the object,
    and what it decodes is the result of [parse_json_response]. *)
Theorem fenced_object_parsed (loads : string -> option json) (tagged : bool)
    (before ws1 inner ws2 after : string) (v : json) :
  has_char "`" before = false ->
  str_forall isspace ws1 = true ->
  str_forall isspace ws2 = true ->
  has_char "`" inner = false ->
  rstrip isspace (String "{" inner) = String "{" inner ->
  loads (String "{" inner) = Some v ->
  parse_json_response loads
    (before +:+ "```" +:+ (if tagged then "json" else "") +:+ ws1
     +:+ String "{" inner +:+ ws2 +:+ "```" +:+ after)
  = Ok v.
Proof.
  intros Hbefore Hws1 Hws2 Hinner Hend Hloads.
  assert (lazy_group
            (lstrip isspace
               (ws1 +:+ String "{" inner +:+ ws2 +:+ "```" +:+ after))
          = Some (String "{" inner)) as Hgroup.
  { rewrite lstrip_spaces by done.
    change (lstrip isspace (String "{" inner +:+ ws2 +:+ "```" +:+ after))
      with (String "{" inner +:+ ws2 +:+ "```" +:+ after).
    by apply lazy_group_body. }
  assert (match_fence
            ("```" +:+ (if tagged then "json" else "") +:+ ws1
             +:+ String "{" inner +:+ ws2 +:+ "```" +:+ after)
          = Some (String "{" inner)) as Hfence.
  { destruct tagged.
    - by apply match_fence_tagged.
    - rewrite (str_app_nil_l (ws1 +:+ _)).
      apply match_fence_plain; [|done].
      rewrite (str_app_cons "{"). by apply no_tag_before_object. }
  unfold parse_json_response. rewrite search_fenced_skip by done.
  assert (search_fenced
            ("```" +:+ (if tagged then "json" else "") +:+ ws1
             +:+ String "{" inner +:+ ws2 +:+ "```" +:+ after)
          = Some (String "{" inner)) as ->.
  { change ("```" +:+ (if tagged then "json" else "") +:+ ws1
            +:+ String "{" inner +:+ ws2 +:+ "```" +:+ after)
      with (String "`" ("``" +:+ (if tagged then "json" else "") +:+ ws1
            +:+ String "{" inner +:+ ws2 +:+ "```" +:+ after)) in *.
    cbn [search_fenced]. by rewrite Hfence. }
  unfold strip. rewrite Hend.
  change (lstrip isspace (String "{" inner)) with (String "{" inner).
  by rewrite Hloads.
Qed.

(** A tagged fence between two sentences. *)
Lemma fenced_object_parsed_witness :
  parse_json_response
    (fun text => if String.eqb text "{x: 1}" then Some (JNum "1") else None)
    ("Here is the result: " +:+ "```" +:+ "json" +:+ String LF ""
     +:+ String "{" "x: 1}" +:+ String LF "" +:+ "```" +:+ " Done.")
  = Ok (JNum "1").
Proof.
  apply (fenced_object_parsed
           (fun text => if String.eqb text "{x: 1}" then Some (JNum "1")
                        else None)
           true "Here is the result: " (String LF "") "x: 1}" (String LF "")
           " Done." (JNum "1")); reflexivity.
Defined.

End JsonRepairMore.

(** ** The retry loop of the API calls *)

Module ClientCallsFacts.
Import PyStr ClientCalls.

Section Call.

Variable create : nat -> Attempt.
Variable max_retries : Z.

Lemma attempts_returned (turns a k : nat) (text : string) :
  ((0 < turns)%nat -> Z.of_nat (a + turns) = max_retries) ->
  attempts create max_retries turns a = (Returned text, k)
  <-> (k < turns)%nat /\ create (a + k)%nat = Replied text
      /\ forall j, (j < k)%nat -> retryable (create (a + j)%nat).
Proof.
  revert a k. induction turns as [|turns IH]; intros a k Hmax.
  - simpl. split; [done|]. intros [? _]. lia.
  - assert ((0 < turns)%nat -> Z.of_nat (S a + turns) = max_retries) as Hmax'
      by (intros; rewrite <- Hmax; lia).
    assert (forall k',
      attempts create max_retries turns (S a) = (Returned text, k')
      <-> (S k' < S turns)%nat /\ create (a + S k')%nat = Replied text
          /\ forall j, (j < S k')%nat -> retryable (create (a + j)%nat)
                       \/ j = 0%nat) as Hrest.
    { intros k'. rewrite (IH (S a) k' Hmax').
      replace (a + S k')%nat with (S a + k')%nat by lia.
      split; intros (Hk & Hreply & Hretry); (split; [lia|split; [done|]]).
      - intros [|j] Hj; [by right|left].
        replace (a + S j)%nat with (S a + j)%nat by lia. apply Hretry. lia.
      - intros j Hj. destruct (Hretry (S j)) as [H|H]; [lia| |done].
        by replace (S a + j)%nat with (a + S j)%nat by lia. }
    cbn [attempts].
    destruct (create a) as [text'|m|m|m] eqn:Ha.
    + split.
      * intros [= -> <-]. rewrite Nat.add_0_r.
        split; [lia|split; [done|]]. intros j Hj. lia.
      * intros (Hk & Hreply & Hretry). destruct k as [|k].
        -- rewrite Nat.add_0_r, Ha in Hreply. by injection Hreply as ->.
        -- specialize (Hretry 0%nat). rewrite Nat.add_0_r, Ha in Hretry.
           destruct Hretry. lia.
    + destruct (attempts create max_retries turns (S a)) as [outcome sleeps]
        eqn:Hgo.
      split.
      * intros [= -> <-]. destruct (Hrest sleeps) as [(Hk & Hreply & Hretry) _];
          [done|].
        split; [done|split; [done|]]. intros j Hj.
        destruct (Hretry j Hj) as [H| ->]; [done|].
        by rewrite Nat.add_0_r, Ha.
      * intros (Hk & Hreply & Hretry). destruct k as [|k].
        -- by rewrite Nat.add_0_r, Ha in Hreply.
        -- destruct (Hrest k) as [_ Hback].
           assert ((outcome, sleeps) = (Returned text, k)) as [= -> ->];
             [apply Hback|done].
           split; [done|split; [done|]]. intros j Hj. left. by apply Hretry.
    + destruct (Z.ltb_spec (Z.of_nat a) (max_retries - 1)) as [Hlt|Hge].
      * destruct (attempts create max_retries turns (S a))
          as [outcome sleeps] eqn:Hgo.
        split.
        -- intros [= -> <-].
           destruct (Hrest sleeps) as [(Hk & Hreply & Hretry) _]; [done|].
           split; [done|split; [done|]]. intros j Hj.
           destruct (Hretry j Hj) as [H| ->]; [done|].
           by rewrite Nat.add_0_r, Ha.
        -- intros (Hk & Hreply & Hretry). destruct k as [|k].
           ++ by rewrite Nat.add_0_r, Ha in Hreply.
           ++ destruct (Hrest k) as [_ Hback].
              assert ((outcome, sleeps) = (Returned text, k)) as [= -> ->];
                [apply Hback|done].
              split; [done|split; [done|]]. intros j Hj. left.
              by apply Hretry.
      * split; [done|]. intros (Hk & Hreply & _).
        assert (turns = 0%nat) as -> by lia.
        assert (k = 0%nat) as -> by lia.
        by rewrite Nat.add_0_r, Ha in Hreply.
    + split; [done|]. intros (Hk & Hreply & Hretry). destruct k as [|k].
      * by rewrite Nat.add_0_r, Ha in Hreply.
      * specialize (Hretry 0%nat). rewrite Nat.add_0_r, Ha in Hretry.
        destruct Hretry. lia.
Qed.

Lemma attempts_gave_up (turns a sleeps : nat) (message : string) :
  ((0 < turns)%nat -> Z.of_nat (a + turns) = max_retries) ->
  attempts create max_retries turns a = (GaveUp message, sleeps) ->
  sleeps = turns
  /\ message = "Failed after " +:+ str_of_int max_retries +:+ " attempts"
  /\ ((0 < turns)%nat ->
      exists m, create (a + turns - 1)%nat = RateLimitError m).
Proof.
  revert a sleeps. induction turns as [|turns IH]; intros a sleeps Hmax.
  - simpl. intros [= <- <-]. split; [done|split; [done|lia]].
  - assert ((0 < turns)%nat -> Z.of_nat (S a + turns) = max_retries) as Hmax'
      by (intros; rewrite <- Hmax; lia).
    cbn [attempts]. destruct (create a) as [text'|m|m|m] eqn:Ha; try done.
    + destruct (attempts create max_retries turns (S a)) as [outcome n]
        eqn:Hgo.
      intros [= -> <-].
      destruct (IH (S a) n Hmax' Hgo) as (-> & Hm & Hlast).
      split; [done|split; [done|]]. intros _.
      destruct turns as [|turns].
      * exists m. by replace (a + 1 - 1)%nat with a by lia.
      * destruct Hlast as [m' Hm']; [lia|]. exists m'.
        by replace (a + S (S turns) - 1)%nat
          with (S a + S turns - 1)%nat by lia.
    + destruct (Z.ltb_spec (Z.of_nat a) (max_retries - 1)) as [Hlt|Hge];
        [|done].
      destruct (attempts create max_retries turns (S a)) as [outcome n]
        eqn:Hgo.
      intros [= -> <-].
      destruct (IH (S a) n Hmax' Hgo) as (-> & Hm & Hlast).
      split; [done|split; [done|]]. intros _.
      destruct turns as [|turns]; [lia|].
      destruct Hlast as [m' Hm']; [lia|]. exists m'.
      by replace (a + S (S turns) - 1)%nat
        with (S a + S turns - 1)%nat by lia.
Qed.

End Call.

(** X15. [call_text_only] (and [call_with_images], which runs the same
    loop) returns a text after [k] waits exactly when attempt number [k] is
    among the [max_retries] allowed ones and is the first to get a reply,
    every attempt before it having failed with a rate limit or another API
    error.  An exception of another class at an earlier attempt, or a reply
    that only comes at attempt [max_retries] or later, never gives a
    result. *)
Theorem call_returns_first_reply (create : nat -> Attempt) (max_retries : Z)
    (text : string) (k : nat) :
  call_text_only create max_retries = (Returned text, k)
  <-> Z.of_nat k < max_retries /\ create k = Replied text
      /\ forall j, (j < k)%nat -> retryable (create j).
Proof.
  unfold call_text_only.
  rewrite (attempts_returned create max_retries (Z.to_nat max_retries) 0 k text)
    by (intros; lia).
  simpl. split; intros (Hk & Hreply & Hretry); (split; [lia|done]).
Qed.

(** X16. The exception [Failed after N attempts] is only raised when the
    last attempt hit the rate limit (or when no attempt is allowed): the
    call has then waited [max_retries] times, once after every attempt and
    so also after the last one, although nothing is tried after that
    wait. *)
Theorem gave_up_after_rate_limit (create : nat -> Attempt) (max_retries : Z)
    (message : string) (sleeps : nat) :
  call_text_only create max_retries = (GaveUp message, sleeps) ->
  sleeps = Z.to_nat max_retries
  /\ message = "Failed after " +:+ str_of_int max_retries +:+ " attempts"
  /\ (0 < max_retries ->
      exists m, create (Z.to_nat max_retries - 1)%nat = RateLimitError m).
Proof.
  unfold call_text_only. intros Hcall.
  destruct (attempts_gave_up create max_retries (Z.to_nat max_retries) 0
              sleeps message) as (Hs & Hm & Hlast); [intros; lia|done|].
  split; [done|split; [done|]]. intros Hpos. apply Hlast. lia.
Qed.

(** Two attempts, both rate limited: two waits, then the exception. *)
Lemma gave_up_after_rate_limit_witness :
  2%nat = Z.to_nat 2
  /\ "Failed after 2 attempts" = "Failed after " +:+ str_of_int 2 +:+ " attempts"
  /\ (0 < 2 ->
      exists m, (fun _ => RateLimitError "429") (Z.to_nat 2 - 1)%nat
                = RateLimitError m).
Proof.
  apply (gave_up_after_rate_limit (fun _ => RateLimitError "429") 2
           "Failed after 2 attempts" 2).
  vm_compute. reflexivity.
Defined.

End ClientCallsFacts.

(** ** The progress report and the loop over the folders *)

Module MainFacts.
Import PyStr PyData Main PyDataFacts.

Section Retry.

Variable process : nat -> ProcessAttempt.
Variable max_retries : Z.

Lemma retry_from_spec (turns a : nat) :
  (0 < turns)%nat ->
  Z.of_nat (a + turns) = max_retries ->
  exists k,
    (k < turns)%nat
    /\ (retry_from process max_retries turns a).2 = k
    /\ (forall j, (j < k)%nat ->
          exists e, process (a + j)%nat = Threw e
                    /\ looks_rate_limited e = true)
    /\ match process (a + k)%nat with
       | Processed result =>
           (retry_from process max_retries turns a).1 = Done result
       | Threw e =>
           (retry_from process max_retries turns a).1 = Reraised e
           /\ (looks_rate_limited e = false \/ S k = turns)
       end.
Proof.
  revert a. induction turns as [|turns IH]; intros a Hpos Hmax; [lia|].
  cbn [retry_from]. destruct (process a) as [result|e] eqn:Ha.
  - exists 0%nat. rewrite Nat.add_0_r, Ha. simpl.
    split; [lia|split; [done|split; [|done]]]. intros j Hj. lia.
  - destruct (looks_rate_limited e) eqn:Hrate; cbn [andb];
      [destruct (Z.ltb_spec (Z.of_nat a) (max_retries - 1)) as [Hlt|Hge]|].
    + destruct (IH (S a)) as (k & Hk & Hsleeps & Hbefore & Hlast);
        [lia|lia|].
      exists (S k).
      destruct (retry_from process max_retries turns (S a))
        as [outcome sleeps].
      replace (a + S k)%nat with (S a + k)%nat by lia.
      simpl in *. split; [lia|split; [by rewrite Hsleeps|split]].
      * intros [|j] Hj.
        -- exists e. by rewrite Nat.add_0_r.
        -- replace (a + S j)%nat with (S (a + j)) by lia. apply Hbefore. lia.
      * destruct (process (S (a + k))); [done|].
        destruct Hlast as [-> [Hl|Hl]]; (split; [done|]); [by left|right; lia].
    + exists 0%nat. rewrite Nat.add_0_r, Ha. simpl.
      split; [lia|split; [done|split; [intros j Hj; lia|]]].
      split; [done|right; lia].
    + exists 0%nat. rewrite Nat.add_0_r, Ha. simpl.
      split; [lia|split; [done|split; [intros j Hj; lia|]]].
      split; [done|by left].
Qed.

End Retry.

(** X17. With a positive [max_retries], [process_with_rate_limit_retry]
    always ends at one of its attempts, number [k] say: every attempt before
    it raised an exception whose text looks like a rate limit, the function
    has waited [k] times, and it returns the result of attempt [k] or raises
    the very exception of attempt [k], which either does not look like a
    rate limit or belongs to the last attempt allowed.  So the exception
    below the loop ([Failed after N retries due to rate limiting]) is never
    raised. *)
Theorem retry_ends_at_an_attempt (process : nat -> ProcessAttempt)
    (max_retries : Z) :
  0 < max_retries ->
  exists k,
    Z.of_nat k < max_retries
    /\ (process_with_rate_limit_retry process max_retries).2 = k
    /\ (forall j, (j < k)%nat ->
          exists e, process j = Threw e /\ looks_rate_limited e = true)
    /\ match process k with
       | Processed result =>
           (process_with_rate_limit_retry process max_retries).1 = Done result
       | Threw e =>
           (process_with_rate_limit_retry process max_retries).1 = Reraised e
           /\ (looks_rate_limited e = false
               \/ Z.of_nat k = max_retries - 1)
       end.
Proof.
  intros Hpos. unfold process_with_rate_limit_retry.
  destruct (retry_from_spec process max_retries (Z.to_nat max_retries) 0)
    as (k & Hk & Hsleeps & Hbefore & Hlast); [lia|lia|].
  exists k. simpl in Hlast. split; [lia|split; [done|split; [done|]]].
  destruct (process k); [done|].
  destruct Hlast as [-> [Hl|Hl]]; (split; [done|]); [by left|right; lia].
Qed.

(** The first attempt meets a rate limit, the second one succeeds. *)
Lemma retry_ends_at_an_attempt_witness :
  exists k,
    Z.of_nat k < 3
    /\ (process_with_rate_limit_retry Scenarios.flaky_process 3).2 = k
    /\ (forall j, (j < k)%nat ->
          exists e, Scenarios.flaky_process j = Threw e
                    /\ looks_rate_limited e = true)
    /\ match Scenarios.flaky_process k with
       | Processed result =>
           (process_with_rate_limit_retry Scenarios.flaky_process 3).1
           = Done result
       | Threw e =>
           (process_with_rate_limit_retry Scenarios.flaky_process 3).1
           = Reraised e
           /\ (looks_rate_limited e = false \/ Z.of_nat k = 3 - 1)
       end.
Proof. apply (retry_ends_at_an_attempt Scenarios.flaky_process 3). lia. Defined.

(** *** The summary of the report *)

Lemma dict_set_length {V} (k : string) (v : V) (d : dict V) :
  length (dict_set k v d)
  = (length d + match dict_get k d with Some _ => 0 | None => 1 end)%nat.
Proof.
  induction d as [|[k' v'] d IH]; [done|]. cbn [dict_set dict_get].
  destruct (String.eqb k k'); cbn [length]; [lia|]. rewrite IH. lia.
Qed.

Lemma py_count_bounds (statuses : list (option string)) :
  0 <= py_count (Some "success") statuses
  /\ 0 <= py_count (Some "failed") statuses
  /\ 0 <= py_count (Some "skipped") statuses
  /\ 0 <= py_count (Some "processing") statuses
  /\ 0 <= py_count None statuses
  /\ py_count (Some "success") statuses + py_count (Some "failed") statuses
     + py_count (Some "skipped") statuses
     + (py_count (Some "processing") statuses + py_count None statuses)
     <= Z.of_nat (length statuses).
Proof.
  induction statuses as [|s statuses IH]; [simpl; lia|].
  cbn [py_count length]. repeat case_bool_decide; simplify_eq; lia.
Qed.

Lemma marked_summary (summary : Summary) (folders : dict FolderEntry)
    (folder_name : string) (entry : FolderEntry) :
  let report :=
    _update_summary
      {| rp_summary := summary;
         rp_folders := dict_set folder_name entry folders |} in
  sm_total_folders (rp_summary report)
  = Z.of_nat (length folders)
    + match dict_get folder_name folders with Some _ => 0 | None => 1 end
  /\ sm_processed (rp_summary report) + sm_failed (rp_summary report)
     + sm_skipped (rp_summary report) + sm_pending (rp_summary report)
     <= sm_total_folders (rp_summary report).
Proof.
  cbn. split.
  - rewrite length_map, dict_set_length.
    destruct (dict_get folder_name folders); lia.
  - apply py_count_bounds.
Qed.

(** X18. After [mark_success], [mark_failed] or [mark_skipped] the field
    [total_folders] of the summary is the number of folders the report has
    an entry for: the number of entries before, plus one when the folder is
    new.  The count that [set_total_folders] wrote before is lost, whatever
    it was, and entries of earlier runs are counted.  The four other counts
    of the summary never add up to more than [total_folders]. *)
Theorem total_folders_counts_entries (report : ProgressReport) (count : Z)
    (folder_name text now : string) (result : ProcessResult) :
  summary_counts
    (mark_success (set_total_folders report count) folder_name result now)
    (entries_with report folder_name)
  /\ summary_counts
       (mark_failed (set_total_folders report count) folder_name text now)
       (entries_with report folder_name)
  /\ summary_counts
       (mark_skipped (set_total_folders report count) folder_name text now)
       (entries_with report folder_name).
Proof. split; [|split]; apply marked_summary. Qed.

(** *** The loop over the folders *)

Section ProcessAll.

Variable process : nat -> nat -> ProcessAttempt.
Variable clock : nat -> string.
Variable skip_processed : bool.

Lemma folder_step_cases (state : ProgressReport * nat) (i : nat)
    (folder_name : string) :
  ((folder_step process clock skip_processed state i folder_name).1 = state.1
   /\ skip_processed = true /\ is_processed state.1 folder_name = true)
  \/ (skip_processed && is_processed state.1 folder_name = false
      /\ exists entry started,
           final_status entry
           /\ rp_folders
                (folder_step process clock skip_processed state i
                   folder_name).1
              = dict_set folder_name entry
                  (dict_set folder_name started (rp_folders state.1))).
Proof.
  destruct state as [report ticks]. unfold folder_step. cbn [fst].
  destruct (skip_processed && is_processed report folder_name) eqn:Hskip.
  - left. apply andb_true_iff in Hskip as [-> ->]. done.
  - right. split; [done|].
    destruct ((process_with_rate_limit_retry (process i) 3).1) as [res|e|m];
      [|destruct (exc_file_not_found e)|];
      eexists _, _; (split; [|reflexivity]); unfold final_status; cbn; auto.
Qed.

Lemma is_processed_settled (report : ProgressReport) (folder_name : string) :
  is_processed report folder_name = true -> settled report folder_name.
Proof.
  unfold is_processed, settled.
  destruct (dict_get folder_name (rp_folders report)) as [entry|]; [|done].
  intros H. apply bool_decide_eq_true in H. exists entry.
  split; [done|by left].
Qed.

Lemma folder_step_settles (state : ProgressReport * nat) (i : nat)
    (folder_name : string) :
  settled (folder_step process clock skip_processed state i folder_name).1
    folder_name.
Proof.
  destruct (folder_step_cases state i folder_name)
    as [(-> & _ & Hdone)|(_ & entry & started & Hfinal & Hfolders)].
  - by apply is_processed_settled.
  - exists entry. by rewrite Hfolders, dict_get_set, String.eqb_refl.
Qed.

Lemma folder_step_keeps_settled (state : ProgressReport * nat) (i : nat)
    (folder_name name : string) :
  settled state.1 name ->
  settled (folder_step process clock skip_processed state i folder_name).1
    name.
Proof.
  intros Hname.
  destruct (String.eqb name folder_name) eqn:Heq.
  - apply String.eqb_eq in Heq as ->. apply folder_step_settles.
  - destruct (folder_step_cases state i folder_name)
      as [(-> & _ & _)|(_ & entry & started & _ & Hfolders)]; [done|].
    unfold settled. by rewrite Hfolders, !dict_get_set, Heq.
Qed.

Lemma folder_loop_settles (folders : list string)
    (state : ProgressReport * nat) (i : nat) (name : string) :
  settled state.1 name \/ name ∈ folders ->
  settled (folder_loop process clock skip_processed state i folders).1 name.
Proof.
  revert state i. induction folders as [|folder_name folders IH];
    intros state i [Hname|Hin]; cbn [folder_loop].
  - done.
  - by apply elem_of_nil in Hin.
  - apply IH. left. by apply folder_step_keeps_settled.
  - apply IH. apply elem_of_cons in Hin as [->|Hin]; [left|by right].
    apply folder_step_settles.
Qed.

End ProcessAll.

(** X19. When [process_all_folders] ends, the report has an entry with the
    status [success], [failed] or [skipped] for every folder of the list:
    no folder of the run is left without an entry or with the status
    [processing], whatever [extractor.process] returned or raised and
    whatever the report held before. *)
Theorem every_listed_folder_settled (process : nat -> nat -> ProcessAttempt)
    (clock : nat -> string) (skip_processed : bool) (folders : list string)
    (report : ProgressReport) (name : string) :
  name ∈ folders ->
  settled (process_all_folders process clock skip_processed folders report)
    name.
Proof.
  intros Hin. unfold process_all_folders.
  destruct folders as [|folder_name folders]; [by apply elem_of_nil in Hin|].
  apply folder_loop_settles. by right.
Qed.

(** Two folders; the extraction of both fails with a missing file. *)
Lemma every_listed_folder_settled_witness :
  settled
    (process_all_folders Scenarios.missing_files Scenarios.midnight true
       ["pricing"; "payroll"] new_report)
    "payroll".
Proof.
  apply (every_listed_folder_settled Scenarios.missing_files
           Scenarios.midnight true ["pricing"; "payroll"] new_report
           "payroll").
  apply list_elem_of_further, list_elem_of_here.
Defined.

(** X20. With [skip_processed], a run of [process_all_folders] leaves the
    entry of a folder that had the status [success] exactly as it was, time
    stamps and result included, whether the folder is in the list or not
    and however the other folders fare. *)
Theorem successful_folder_untouched (process : nat -> nat -> ProcessAttempt)
    (clock : nat -> string) (folders : list string)
    (report : ProgressReport) (name : string) (entry : FolderEntry) :
  dict_get name (rp_folders report) = Some entry ->
  fe_status entry = Some "success" ->
  dict_get name
    (rp_folders (process_all_folders process clock true folders report))
  = Some entry.
Proof.
  intros Hentry Hstatus. unfold process_all_folders.
  assert (forall folders state i,
            dict_get name (rp_folders state.1) = Some entry ->
            dict_get name
              (rp_folders (folder_loop process clock true state i folders).1)
            = Some entry) as Hloop.
  { clear folders Hentry. intros folders.
    induction folders as [|folder_name folders IH]; intros state i Hstate;
      cbn [folder_loop]; [done|].
    apply IH.
    destruct (folder_step_cases process clock true state i folder_name)
      as [(-> & _ & _)|(Hnot & new & started & _ & Hfolders)]; [done|].
    rewrite Hfolders, !dict_get_set.
    destruct (String.eqb name folder_name) eqn:Heq; [|done].
    apply String.eqb_eq in Heq as <-. exfalso. revert Hnot.
    unfold is_processed. rewrite Hstate. cbn [andb].
    by rewrite bool_decide_eq_true_2. }
  destruct folders as [|folder_name folders]; [done|]. by apply Hloop.
Qed.

(** A second run, over a new folder and one that succeeded before. *)
Lemma successful_folder_untouched_witness :
  dict_get "pricing"
    (rp_folders
       (process_all_folders Scenarios.missing_files Scenarios.midnight true
          ["payroll"; "pricing"] Scenarios.earlier_report))
  = Some Scenarios.pricing_entry.
Proof.
  apply (successful_folder_untouched Scenarios.missing_files
           Scenarios.midnight ["payroll"; "pricing"]
           Scenarios.earlier_report "pricing" Scenarios.pricing_entry);
    reflexivity.
Defined.

End MainFacts.

(** ** The knowledge base generator, continued *)

Module KBGeneratorMore.
Import PyStr PyData Json KBGenerator PyDataFacts KBGeneratorFacts PyDataMore.

(** *** Counting the sections *)

Lemma list_sum_cons (n : nat) (l : list nat) :
  list_sum (n :: l) = (n + list_sum l)%nat.
Proof. reflexivity. Qed.

Lemma count_fold (sections : list KBSection) (count : nat) :
  fold_left (fun count section => (count + count_within section)%nat)
    sections count
  = (count + list_sum (map count_within sections))%nat.
Proof.
  revert count. induction sections as [|s rest IH]; intros count;
    cbn [fold_left map]; [simpl; lia|].
  rewrite IH, list_sum_cons. lia.
Qed.

Lemma count_sections_sum (sections : list KBSection) :
  _count_sections sections
  = (length sections + list_sum (map count_within sections))%nat.
Proof. apply count_fold. Qed.

(** The equation of the source: the count inside a section is the count of
    its subsections. *)
Lemma count_within_subsections (section : KBSection) :
  count_within section = _count_sections (sec_subsections section).
Proof.
  destruct section as [? ? ? ? ? ? ? subsections ?].
  rewrite count_sections_sum. cbn [count_within sec_subsections].
  f_equal. induction subsections as [|s rest IH]; [done|].
  cbn [map]. by rewrite list_sum_cons, IH.
Qed.

Lemma title_loop_elem (items : dict KBSection) (title : string)
    (section : KBSection) :
  title_loop items title = Some section ->
  exists ext_id, (ext_id, section) ∈ items.
Proof.
  induction items as [|[ext_id ext_section] rest IH]; [done|].
  cbn [title_loop]. destruct (String.eqb _ _).
  - intros [= ->]. exists ext_id. apply list_elem_of_here.
  - intros H. destruct (IH H) as [k Hk]. exists k.
    by apply list_elem_of_further.
Qed.

(** The number of entries [_flatten_grouped_sections] makes of the children
    of a group. *)
Lemma flatten_length (grouped_sections : list Group) :
  length (_flatten_grouped_sections grouped_sections)
  = (length grouped_sections
     + list_sum
         (map (fun group =>
                 if bool_decide (g_type group = Some "parent")
                 then length (default [] (g_children group)) else 0%nat)
            grouped_sections))%nat.
Proof.
  unfold _flatten_grouped_sections.
  induction grouped_sections as [|group rest IH]; [done|].
  cbn [flat_map map length]. rewrite list_sum_cons, length_app, IH.
  cbn [length]. case_bool_decide; rewrite ?length_map; cbn [length]; lia.
Qed.

Lemma has_children_false (group : Group) :
  has_children group = false -> length (default [] (g_children group)) = 0%nat.
Proof. unfold has_children. by destruct (g_children group) as [[|? ?]|]. Qed.

(** What the first two tiers find is an entry of the map. *)
Lemma found_elem (extracted_sections : dict KBSection) (id title : string)
    (section : KBSection) :
  match dict_get id extracted_sections with
  | Some _ => dict_get id extracted_sections
  | None => title_loop extracted_sections title
  end = Some section ->
  exists ext_id, (ext_id, section) ∈ extracted_sections.
Proof.
  destruct (dict_get id extracted_sections) as [s|] eqn:Hget.
  - intros [= <-]. exists id. by apply dict_get_elem.
  - apply title_loop_elem.
Qed.

Lemma found_flat (extracted_sections : dict KBSection) (id title : string)
    (section : KBSection) :
  Forall (fun entry => sec_subsections entry.2 = []) extracted_sections ->
  match dict_get id extracted_sections with
  | Some _ => dict_get id extracted_sections
  | None => title_loop extracted_sections title
  end = Some section ->
  sec_subsections section = [].
Proof.
  intros Hflat Hfound. apply found_elem in Hfound as [k Hk].
  by apply (proj1 (Forall_forall _ _) Hflat (k, section)).
Qed.

Lemma reconstruct_child_flat (extracted_sections : dict KBSection)
    (group : Group) (child : Child) :
  Forall (fun entry => sec_subsections entry.2 = []) extracted_sections ->
  sec_subsections (reconstruct_child extracted_sections group child) = [].
Proof.
  intros Hflat. unfold reconstruct_child. cbv zeta.
  pose proof (found_flat extracted_sections
                (default "unknown" (c_id child)) (default "" (c_title child)))
    as Hfound.
  destruct (match dict_get _ extracted_sections with
            | Some _ => _
            | None => _
            end) as [s|]; [|done].
  destruct (truthy _); cbn [sec_subsections]; by apply Hfound.
Qed.

Lemma reconstruct_group_count (extracted_sections : dict KBSection)
    (group : Group) :
  let children :=
    if bool_decide (g_type group = Some "parent")
    then length (default [] (g_children group)) else 0%nat in
  (children <= count_within (reconstruct_group extracted_sections group))%nat
  /\ (Forall (fun entry => sec_subsections entry.2 = []) extracted_sections ->
      count_within (reconstruct_group extracted_sections group) = children).
Proof.
  intros children. unfold children. clear children.
  rewrite count_within_subsections. unfold reconstruct_group. cbv zeta.
  pose proof (found_flat extracted_sections
                (default "unknown" (g_id group)) (default "" (g_title group)))
    as Hfound.
  destruct (bool_decide (g_type group = Some "parent")) eqn:Hparent;
    cbn [andb]; [destruct (has_children group) eqn:Hchildren|].
  - cbn [sec_subsections]. rewrite fold_append_map, app_nil_l.
    rewrite count_sections_sum, length_map. split; [lia|].
    intros Hflat.
    assert (list_sum
              (map count_within
                 (map (reconstruct_child extracted_sections group)
                    (default [] (g_children group)))) = 0%nat) as ->; [|lia].
    induction (default [] (g_children group)) as [|child rest IH]; [done|].
    cbn [map]. rewrite list_sum_cons, IH, Nat.add_0_r.
    by rewrite count_within_subsections, reconstruct_child_flat.
  - rewrite (has_children_false _ Hchildren). split; [lia|].
    intros Hflat.
    destruct (match dict_get _ extracted_sections with
              | Some _ => _
              | None => _
              end) as [s|]; [|done].
    by rewrite (Hfound s Hflat).
  - split; [lia|]. intros Hflat.
    destruct (match dict_get _ extracted_sections with
              | Some _ => _
              | None => _
              end) as [s|]; [|done].
    by rewrite (Hfound s Hflat).
Qed.

(** X21. The number [_count_sections] gives for the tree that
    [_reconstruct_hierarchy] builds (the [total_sections] of the metadata)
    is never smaller than the number of sections
    [_flatten_grouped_sections] had sent to extraction, and it is that very
    number when no extracted section brought subsections of its own. *)
Theorem total_sections_counts_flat (grouped_sections : list Group)
    (extracted_sections : dict KBSection) :
  (length (_flatten_grouped_sections grouped_sections)
   <= _count_sections
        (_reconstruct_hierarchy grouped_sections extracted_sections))%nat
  /\ (Forall (fun entry => sec_subsections entry.2 = []) extracted_sections ->
      _count_sections
        (_reconstruct_hierarchy grouped_sections extracted_sections)
      = length (_flatten_grouped_sections grouped_sections)).
Proof.
  unfold _reconstruct_hierarchy.
  rewrite fold_append_map, app_nil_l, count_sections_sum, length_map,
    flatten_length.
  induction grouped_sections as [|group rest IH]; [done|].
  cbn [map length]. rewrite !list_sum_cons.
  destruct (reconstruct_group_count extracted_sections group) as [Hle Heq].
  cbv zeta in Hle, Heq. destruct IH as [IHle IHeq]. split; [lia|].
  intros Hflat. rewrite (Heq Hflat). specialize (IHeq Hflat). lia.
Qed.

(** *** When every extraction call fails *)

Lemma written_value {V} (k : string) (v : V) (ws : list (string * V))
    (d : dict V) :
  dict_get k (fold_left (fun d kv => dict_set kv.1 kv.2 d) ws d) = Some v ->
  (k, v) ∈ ws \/ dict_get k d = Some v.
Proof.
  revert d. induction ws as [|[k' v'] ws IH]; intros d; cbn [fold_left];
    [by right|].
  intros H. destruct (IH _ H) as [Hin|Hget].
  - left. by apply list_elem_of_further.
  - cbn [fst snd] in Hget. rewrite dict_get_set in Hget.
    destruct (String.eqb k k') eqn:Heq; [|by right].
    apply String.eqb_eq in Heq as ->. injection Hget as ->.
    left. apply list_elem_of_here.
Qed.

Lemma written_key {V} (k : string) (ws : list (string * V)) (d : dict V) :
  k ∈ ws.*1 \/ is_Some (dict_get k d) ->
  is_Some (dict_get k (fold_left (fun d kv => dict_set kv.1 kv.2 d) ws d)).
Proof.
  revert d. induction ws as [|[k' v'] ws IH]; intros d; cbn [fold_left].
  - intros [Hin|Hd]; [by apply elem_of_nil in Hin|done].
  - intros [Hin|Hd]; apply IH.
    + rewrite fmap_cons in Hin. apply elem_of_cons in Hin as [->|Hin];
        [right|by left].
      cbn [fst snd]. by rewrite dict_get_set, String.eqb_refl.
    + right. cbn [fst snd]. rewrite dict_get_set.
      by destruct (String.eqb k k').
Qed.

Section AllFail.

Variable extract : nat -> list FlatSection -> BatchResult.
Hypothesis Hfail :
  forall i batch, exists message, extract i batch = Raised message.

Lemma failed_writes (i : nat) (batches : list (list FlatSection))
    (k : string) (v : KBSection) :
  (k, v) ∈ all_writes extract i batches ->
  k = sec_id v /\ exists s message, v = error_placeholder s message.
Proof.
  revert i. induction batches as [|batch rest IH]; intros i;
    cbn [all_writes]; [intros H; by apply elem_of_nil in H|].
  intros H. apply elem_of_app in H as [H|H]; [|by apply (IH (S i))].
  unfold batch_writes in H. destruct (Hfail i batch) as [message Hm].
  rewrite Hm in H. apply list_elem_of_fmap in H as (s & [= -> ->] & _).
  split; [done|]. by exists s, message.
Qed.

Lemma failed_keys (i : nat) (batches : list (list FlatSection))
    (s : FlatSection) :
  s ∈ concat batches ->
  default "unknown" (f_id s) ∈ (all_writes extract i batches).*1.
Proof.
  revert i. induction batches as [|batch rest IH]; intros i;
    cbn [all_writes concat]; [intros H; by apply elem_of_nil in H|].
  intros H. rewrite fmap_app. apply elem_of_app.
  apply elem_of_app in H as [H|H]; [left|right; by apply IH].
  unfold batch_writes. destruct (Hfail i batch) as [message ->].
  apply list_elem_of_fmap. exists (default "unknown" (f_id s),
                                   error_placeholder s message).
  split; [done|]. apply list_elem_of_fmap. by exists s.
Qed.

Lemma failed_lookup (flat : list FlatSection) (s : FlatSection) :
  s ∈ flat ->
  exists v,
    dict_get (default "unknown" (f_id s))
      (extract_all extract (chunks SECTIONS_PER_BATCH flat)) = Some v
    /\ is_error_placeholder v /\ sec_subsections v = []
    /\ sec_id v = default "unknown" (f_id s).
Proof.
  intros Hs. unfold extract_all. rewrite batch_loop_writes.
  assert (s ∈ concat (chunks SECTIONS_PER_BATCH flat)) as Hin.
  { unfold chunks, SECTIONS_PER_BATCH.
    rewrite chunks_from_concat by lia. done. }
  destruct (written_key (default "unknown" (f_id s))
              (all_writes extract 0 (chunks SECTIONS_PER_BATCH flat)) [])
    as [v Hv]; [left; by apply failed_keys|].
  exists v. split; [done|].
  apply written_value in Hv as [Hv|Hv]; [|done].
  apply failed_writes in Hv as (Hkey & s' & message & ->).
  split; [split; [by exists message|done]|]. by split.
Qed.

End AllFail.



(** *** The ids made from titles *)

Lemma id_char_lower (c : ascii) : id_char c = true -> lower_char c = c.
Proof. destruct c as [[] [] [] [] [] [] [] []]; by vm_compute. Qed.

Lemma id_char_not_underscore (c : ascii) :
  id_char c = true -> Ascii.eqb c "_" = false /\ Ascii.eqb "_" c = false.
Proof. destruct c as [[] [] [] [] [] [] [] []]; by vm_compute. Qed.

Lemma tidy_sub_other_runs (in_run : bool) (s : string) :
  tidy in_run (sub_other_runs in_run s) = true.
Proof.
  revert in_run. induction s as [|c s IH]; intros in_run; [done|].
  cbn [sub_other_runs]. destruct (id_char c) eqn:Hc.
  - cbn [tidy]. by rewrite Hc.
  - destruct in_run; [done|]. cbn [tidy].
    change (id_char "_") with false. by rewrite IH.
Qed.

Lemma sub_other_runs_tidy (in_run : bool) (s : string) :
  tidy in_run s = true -> sub_other_runs in_run s = s.
Proof.
  revert in_run. induction s as [|c s IH]; intros in_run; [done|].
  cbn [tidy sub_other_runs]. destruct (id_char c).
  - intros H. by rewrite IH.
  - intros H. apply andb_true_iff in H as [H Hs].
    apply andb_true_iff in H as [Hc Hrun].
    apply Ascii.eqb_eq in Hc as ->. destruct in_run; [done|].
    by rewrite IH.
Qed.

Lemma tidy_weaken (in_run : bool) (s : string) :
  tidy true s = true -> tidy in_run s = true.
Proof.
  destruct s as [|c s]; [done|]. cbn [tidy].
  destruct (id_char c); [done|]. by rewrite andb_false_r.
Qed.

Lemma tidy_lower (in_run : bool) (s : string) :
  tidy in_run s = true -> lower s = s.
Proof.
  revert in_run. induction s as [|c s IH]; intros in_run; [done|].
  cbn [tidy lower]. destruct (id_char c) eqn:Hc.
  - intros H. by rewrite (id_char_lower _ Hc), (IH false).
  - intros H. apply andb_true_iff in H as [H Hs].
    apply andb_true_iff in H as [Hu _].
    apply Ascii.eqb_eq in Hu as ->. by rewrite (IH true).
Qed.

Lemma tidy_chars (in_run : bool) (s : string) :
  tidy in_run s = true -> str_forall id_or_underscore s = true.
Proof.
  revert in_run. induction s as [|c s IH]; intros in_run; [done|].
  cbn [tidy str_forall]. unfold id_or_underscore at 1.
  destruct (id_char c).
  - intros H. by rewrite (IH false).
  - intros H. apply andb_true_iff in H as [H Hs].
    apply andb_true_iff in H as [-> _]. by rewrite (IH true).
Qed.

Lemma tidy_no_double (in_run : bool) (s : string) :
  tidy in_run s = true -> contains "__" s = false.
Proof.
  revert in_run. induction s as [|c s IH]; intros in_run; [done|].
  change (contains "__" (String c s))
    with (Ascii.eqb "_" c && startswith "_" s || contains "__" s).
  cbn [tidy]. destruct (id_char c) eqn:Hc.
  - intros H. destruct (id_char_not_underscore c Hc) as [_ ->].
    by rewrite (IH false).
  - intros H. apply andb_true_iff in H as [_ Hs]. rewrite (IH true Hs).
    destruct s as [|d s]; [by rewrite andb_false_r|].
    cbn [tidy] in Hs. cbn [startswith].
    destruct (id_char d) eqn:Hd.
    + destruct (id_char_not_underscore d Hd) as [_ ->].
      by rewrite andb_false_r.
    + by rewrite andb_false_r in Hs.
Qed.

Lemma tidy_rstrip (in_run : bool) (s : string) :
  tidy in_run s = true -> tidy in_run (rstrip (Ascii.eqb "_") s) = true.
Proof.
  revert in_run. induction s as [|c s IH]; intros in_run; [done|].
  cbn [tidy rstrip]. destruct (id_char c) eqn:Hc.
  - intros H. specialize (IH false H).
    destruct (rstrip (Ascii.eqb "_") s) as [|d r].
    + destruct (Ascii.eqb "_" c); [done|]. cbn [tidy]. by rewrite Hc.
    + cbn [tidy] in *. by rewrite Hc.
  - intros H. apply andb_true_iff in H as [H Hs].
    apply andb_true_iff in H as [Hu Hrun].
    apply Ascii.eqb_eq in Hu as ->. specialize (IH true Hs).
    destruct (rstrip (Ascii.eqb "_") s) as [|d r]; [done|].
    cbn [tidy] in *. change (id_char "_") with false. cbn beta iota.
    by rewrite Hrun, IH.
Qed.

Lemma tidy_lstrip (in_run : bool) (s : string) :
  tidy in_run s = true -> tidy true (lstrip (Ascii.eqb "_") s) = true.
Proof.
  revert in_run. induction s as [|c s IH]; intros in_run; [done|].
  cbn [tidy lstrip]. destruct (id_char c) eqn:Hc.
  - intros H. destruct (id_char_not_underscore c Hc) as [_ ->].
    cbn [tidy]. by rewrite Hc.
  - intros H. apply andb_true_iff in H as [H Hs].
    apply andb_true_iff in H as [Hu _].
    apply Ascii.eqb_eq in Hu as ->. by apply (IH true).
Qed.

Lemma lstrip_fixed (s : string) :
  tidy true s = true -> lstrip (Ascii.eqb "_") s = s.
Proof.
  destruct s as [|c s]; [done|]. cbn [tidy lstrip].
  destruct (id_char c) eqn:Hc; [|by rewrite andb_false_r].
  by destruct (id_char_not_underscore c Hc) as [_ ->].
Qed.

Lemma rstrip_rstrip (Q : ascii -> bool) (s : string) :
  rstrip Q (rstrip Q s) = rstrip Q s.
Proof.
  induction s as [|c s IH]; [done|]. cbn [rstrip].
  destruct (rstrip Q s) as [|d r] eqn:Hr.
  - destruct (Q c) eqn:Hc; [done|]. cbn [rstrip]. by rewrite Hc.
  - cbn [rstrip]. cbn [rstrip] in IH. by rewrite IH.
Qed.

Lemma rstrip_fixed_cons (Q : ascii -> bool) (c : ascii) (s : string) :
  rstrip Q (String c s) = String c s -> rstrip Q s = s.
Proof.
  cbn [rstrip]. destruct (rstrip Q s) as [|d r].
  - destruct (Q c); [done|]. by intros [= <-].
  - by intros [= <-].
Qed.

Lemma rstrip_lstrip (Q : ascii -> bool) (s : string) :
  rstrip Q s = s -> rstrip Q (lstrip Q s) = lstrip Q s.
Proof.
  induction s as [|c s IH]; [done|]. intros H. cbn [lstrip].
  destruct (Q c); [|done]. apply IH. by apply (rstrip_fixed_cons Q c).
Qed.

Lemma rstrip_no_tail (s : string) :
  rstrip (Ascii.eqb "_") s = s -> endswith "_" s = false.
Proof.
  induction s as [|c s IH]; [done|]. intros H.
  change (endswith "_" (String c s))
    with (String.eqb "_" (String c s) || endswith "_" s).
  rewrite (IH (rstrip_fixed_cons _ c s H)), orb_false_r.
  destruct s as [|d s].
  - cbn [rstrip] in H. cbn [String.eqb].
    destruct (Ascii.eqb "_" c); [done|done].
  - cbn [String.eqb]. by rewrite andb_false_r || by destruct (Ascii.eqb "_" c).
Qed.

(** X23. An id made by [_generate_id] is never empty, consists of small
    ASCII letters, digits and underscores, neither begins nor ends with an
    underscore and has no two underscores in a row; and making an id from an
    id gives the same id again. *)
Theorem generate_id_shape (title : string) :
  truthy (_generate_id title) = true
  /\ str_forall id_or_underscore (_generate_id title) = true
  /\ startswith "_" (_generate_id title) = false
  /\ endswith "_" (_generate_id title) = false
  /\ contains "__" (_generate_id title) = false
  /\ _generate_id (_generate_id title) = _generate_id title.
Proof.
  unfold _generate_id at 1 2 3 4 5 7 8. cbv zeta.
  set (raw := sub_other_runs false (lower title)).
  assert (tidy false raw = true) as Hraw by apply tidy_sub_other_runs.
  assert (tidy true (strip (Ascii.eqb "_") raw) = true) as Htidy
    by (by apply (tidy_lstrip false), tidy_rstrip).
  assert (rstrip (Ascii.eqb "_") (strip (Ascii.eqb "_") raw)
          = strip (Ascii.eqb "_") raw) as Hend
    by apply rstrip_lstrip, rstrip_rstrip.
  destruct (truthy (strip (Ascii.eqb "_") raw)) eqn:Hid;
    [|by vm_compute].
  split; [done|]. split; [by apply (tidy_chars true)|].
  split; [|split; [by apply rstrip_no_tail|
                   split; [by apply (tidy_no_double true)|]]].
  - destruct (strip (Ascii.eqb "_") raw) as [|c r]; [done|].
    cbn [tidy] in Htidy. cbn [startswith].
    destruct (id_char c) eqn:Hc; [|by rewrite andb_false_r in Htidy].
    by destruct (id_char_not_underscore c Hc) as [_ ->].
  - unfold _generate_id. cbv zeta.
    rewrite (tidy_lower true _ Htidy).
    rewrite (sub_other_runs_tidy false) by (by apply tidy_weaken).
    assert (strip (Ascii.eqb "_") (strip (Ascii.eqb "_") raw)
            = strip (Ascii.eqb "_") raw) as ->
      by (unfold strip at 1; by rewrite Hend, (lstrip_fixed _ Htidy)).
    by rewrite Hid.
Qed.

End KBGeneratorMore.

(** ** The image classifier, continued *)

Module ImageClassifierMore.
Import PyStr PyData Json ImageFilter ImageClassifier PyDataFacts PyDataMore.

Lemma error_not_valuable : "error" ∉ INCLUDE_CATEGORIES.
Proof.
  unfold INCLUDE_CATEGORIES. intros H.
  repeat (apply elem_of_cons in H as [H|H]; [done|]).
  by apply elem_of_nil in H.
Qed.

(** *** What the two lists hold *)

Lemma dict_set_elem {V} (k k' : string) (v v' : V) (d : dict V) :
  (k, v) ∈ dict_set k' v' d -> (k = k' /\ v = v') \/ (k, v) ∈ d.
Proof.
  induction d as [|[k0 v0] d IH]; cbn [dict_set].
  - intros H. apply list_elem_of_singleton in H as [= -> ->]. by left.
  - destruct (String.eqb k' k0).
    + intros H. apply elem_of_cons in H as [[= -> ->]|H]; [by left|].
      right. by apply list_elem_of_further.
    + intros H. apply elem_of_cons in H as [[= -> ->]|H].
      * right. apply list_elem_of_here.
      * destruct (IH H) as [?|?]; [by left|].
        right. by apply list_elem_of_further.
Qed.

Lemma build_id_map_elem (images : list FilteredImage) (key : string)
    (img : FilteredImage) :
  (key, img) ∈ build_id_map images -> img ∈ images.
Proof.
  unfold build_id_map.
  assert (forall m,
            (key, img) ∈ fold_left
                           (fun m img => dict_set (image_id_of img) img m)
                           images m ->
            img ∈ images \/ (key, img) ∈ m) as Hfold.
  { induction images as [|x images IH]; intros m; cbn [fold_left];
      [by right|].
    intros H. destruct (IH _ H) as [Hin|Hset].
    - left. by apply list_elem_of_further.
    - apply dict_set_elem in Hset as [[_ ->]|Hm]; [left|by right].
      apply list_elem_of_here. }
  intros H. destruct (Hfold [] H) as [?|Hnil]; [done|].
  by apply elem_of_nil in Hnil.
Qed.

(** A classification is only ever matched to an image of the batch. *)
Lemma match_image_elem (images : list FilteredImage) (image_id : string)
    (img : FilteredImage) :
  match_image (build_id_map images) image_id = Some img -> img ∈ images.
Proof.
  unfold match_image.
  destruct (dict_get image_id (build_id_map images)) as [found|] eqn:Hget.
  - intros [= ->]. apply dict_get_elem in Hget.
    by apply (build_id_map_elem images image_id).
  - destruct (List.find _ _) as [[key found]|] eqn:Hfind; [|done].
    intros [= ->]. apply find_some in Hfind as [Hin _].
    apply list_elem_of_In in Hin. by apply (build_id_map_elem images key).
Qed.

Section Invariant.

Variable P : ImageDescription -> Prop.
Variable Q : ExcludedImage -> Prop.

Lemma classify_loop_invariant (images : list FilteredImage)
    (classifications : list Classification)
    (acc lists : list ImageDescription * list ExcludedImage) :
  (forall img category c d,
     img ∈ images -> describe img category c = Some d -> P d) ->
  (forall img category c x,
     img ∈ images -> valuable category = false ->
     exclude img category c = Some x -> Q x) ->
  classify_loop (build_id_map images) acc classifications = inr lists ->
  Forall P acc.1 -> Forall Q acc.2 ->
  Forall P lists.1 /\ Forall Q lists.2.
Proof.
  intros HP HQ. revert acc.
  induction classifications as [|c rest IH]; intros [included excluded];
    cbn [classify_loop]; [by intros [= <-]|].
  destruct (classify_step (build_id_map images) (included, excluded) c)
    as [acc'|] eqn:Hstep; [|done].
  intros Hloop Hinc Hexc. cbn [fst snd] in Hinc, Hexc.
  apply (IH acc' Hloop); revert Hstep; unfold classify_step;
    (destruct (get_or (cl_image_id c) "") as [image_id|];
     [|destruct (build_id_map images); [by intros [= <-]|done]]);
    (destruct (match_image _ image_id) as [img|] eqn:Hmatch;
     [|by intros [= <-]]);
    apply match_image_elem in Hmatch;
    destruct (valuable _) eqn:Hcat.
  - destruct (describe _ _ _) as [d|] eqn:Hd; [|done]. intros [= <-].
    apply Forall_app. split; [done|]. apply Forall_singleton. eauto.
  - destruct (default false _).
    + destruct (describe _ _ _) as [d|] eqn:Hd; [|done]. intros [= <-].
      apply Forall_app. split; [done|]. apply Forall_singleton. eauto.
    + destruct (exclude _ _ _) as [x|]; [|done]. by intros [= <-].
  - destruct (describe _ _ _) as [d|]; [|done]. by intros [= <-].
  - destruct (default false _).
    + destruct (describe _ _ _) as [d|]; [|done]. by intros [= <-].
    + destruct (exclude _ _ _) as [x|] eqn:Hx; [|done]. intros [= <-].
      apply Forall_app. split; [done|]. apply Forall_singleton. eauto.
Qed.

Variable raised_text : Classification -> string.
Variable reply_of : nat -> list FilteredImage -> Reply.

Lemma classify_all_invariant (batches : list (list FilteredImage)) (i : nat)
    (acc : list ImageDescription * list ExcludedImage) :
  (forall batch img category c d,
     batch ∈ batches -> img ∈ batch ->
     describe img category c = Some d -> P d) ->
  (forall batch img category c x,
     batch ∈ batches -> img ∈ batch -> valuable category = false ->
     exclude img category c = Some x -> Q x) ->
  (forall batch img message,
     batch ∈ batches -> img ∈ batch -> Q (error_record img message)) ->
  Forall P acc.1 -> Forall Q acc.2 ->
  Forall P (classify_all_loop raised_text reply_of acc i batches).1
  /\ Forall Q (classify_all_loop raised_text reply_of acc i batches).2.
Proof.
  revert i acc.
  induction batches as [|batch rest IH];
    intros i [all_included all_excluded] HP HQ HE Hinc Hexc;
    cbn [classify_all_loop]; [done|].
  assert (batch ∈ batch :: rest) as Hhere by apply list_elem_of_here.
  cbn [fst snd] in Hinc, Hexc.
  assert (forall message,
            Forall Q (map (fun img =>
                             {| x_image_id := image_id_of img;
                                x_local_path := fi_local_path img;
                                x_category := "error";
                                x_exclusion_reason :=
                                  "Processing error: " +:+ message |})
                        batch)) as Herror.
  { intros message. apply Forall_forall. intros x Hx.
    apply list_elem_of_fmap in Hx as (img & -> & Himg).
    by apply (HE batch img message). }
  assert (Forall P (classify_all_step raised_text reply_of
                      (all_included, all_excluded) i batch).1
          /\ Forall Q (classify_all_step raised_text reply_of
                         (all_included, all_excluded) i batch).2)
    as [Hinc' Hexc'].
  { unfold classify_all_step, classify_batch.
    destruct batch as [|img0 batch']; [cbn; by rewrite !app_nil_r|].
    destruct (reply_of i (img0 :: batch')) as [message|classifications].
    - cbn [fst snd]. split; [done|]. apply Forall_app. by split.
    - destruct (classify_loop _ _ classifications) as [c|lists] eqn:Hloop.
      + cbn [fst snd]. split; [done|]. apply Forall_app. by split.
      + destruct (classify_loop_invariant (img0 :: batch') classifications
                    ([], []) lists) as [Hp Hq]; [by eauto..|done|done|done|].
        destruct lists as [included excluded]. cbn [fst snd] in *.
        split; apply Forall_app; by split. }
  apply IH; try done.
  - intros b img category c d Hb. apply HP. by apply list_elem_of_further.
  - intros b img category c x Hb. apply HQ. by apply list_elem_of_further.
  - intros b img message Hb. apply HE. by apply list_elem_of_further.
Qed.

End Invariant.

(** X24. No excluded image of [classify_all] carries one of the categories
    of [INCLUDE_CATEGORIES]: whatever the replies of the model say, an
    excluded record has the category [error] or a category outside that
    list. *)
Theorem excluded_never_valuable
    (raised_text : Classification -> string)
    (reply_of : nat -> list FilteredImage -> Reply)
    (image_batches : list (list FilteredImage)) :
  Forall (fun x => x_category x ∉ INCLUDE_CATEGORIES)
    (classify_all raised_text reply_of image_batches).2.
Proof.
  unfold classify_all.
  apply (classify_all_invariant (fun _ => True)
           (fun x => x_category x ∉ INCLUDE_CATEGORIES) raised_text reply_of
           image_batches 0 ([], [])); try done.
  - intros batch img category c x _ _ Hcat. unfold exclude.
    destruct category as [category|]; [|done].
    destruct (get_or _ _); [|done]. intros [= <-]. cbn [x_category].
    cbn [valuable] in Hcat. by apply bool_decide_eq_false in Hcat.
  - intros batch img message _ _. apply error_not_valuable.
Qed.

(** X25. Every record [classify_all] returns, included or excluded, carries
    the id and the local path of an image of one of the batches: a
    classification whose id matches no image of its batch leaves no
    record. *)
Theorem records_belong_to_batch_images
    (raised_text : Classification -> string)
    (reply_of : nat -> list FilteredImage -> Reply)
    (image_batches : list (list FilteredImage)) :
  Forall (describes (concat image_batches))
    (classify_all raised_text reply_of image_batches).1
  /\ Forall (excludes (concat image_batches))
       (classify_all raised_text reply_of image_batches).2.
Proof.
  unfold classify_all.
  assert (forall batch img, batch ∈ image_batches -> img ∈ batch ->
                            img ∈ concat image_batches) as Hconcat.
  { intros batch img Hb Hi. induction image_batches as [|b rest IH];
      [by apply elem_of_nil in Hb|].
    cbn [concat]. apply elem_of_app.
    apply elem_of_cons in Hb as [<-|Hb]; [by left|right; by apply IH]. }
  apply (classify_all_invariant (describes (concat image_batches))
           (excludes (concat image_batches)) raised_text reply_of
           image_batches 0 ([], [])); try done.
  - intros batch img category c d Hb Hi. unfold describe.
    destruct category as [category|]; [|done].
    destruct (get_or _ _); [|done]. destruct (valid_stats _); [|done].
    intros [= <-]. exists img. eauto.
  - intros batch img category c x Hb Hi _. unfold exclude.
    destruct category as [category|]; [|done].
    destruct (get_or _ _); [|done]. intros [= <-]. exists img. eauto.
  - intros batch img message Hb Hi. exists img. eauto.
Qed.

(** *** A batch whose classification fails *)

Section FailedBatch.

Variable raised_text : Classification -> string.
Variable reply_of : nat -> list FilteredImage -> Reply.

Lemma classify_all_loop_keeps_excluded (batches : list (list FilteredImage))
    (i : nat) (acc : list ImageDescription * list ExcludedImage)
    (x : ExcludedImage) :
  x ∈ acc.2 ->
  x ∈ (classify_all_loop raised_text reply_of acc i batches).2.
Proof.
  revert i acc.
  induction batches as [|batch rest IH]; intros i [included excluded] Hx;
    cbn [classify_all_loop]; [done|].
  apply IH. unfold classify_all_step.
  destruct (classify_batch _ _ _) as [message|[inc exc]]; cbn [snd] in *;
    apply elem_of_app; by left.
Qed.

Lemma classify_all_loop_failed (batches : list (list FilteredImage))
    (i j : nat) (acc : list ImageDescription * list ExcludedImage)
    (batch : list FilteredImage) (message : string) (img : FilteredImage) :
  batches !! j = Some batch ->
  reply_of (i + j) batch = Failed message ->
  img ∈ batch ->
  error_record img message
  ∈ (classify_all_loop raised_text reply_of acc i batches).2.
Proof.
  revert i j acc.
  induction batches as [|b rest IH]; intros i j [included excluded] Hj Hr Hi;
    [done|].
  destruct j as [|j]; cbn [classify_all_loop].
  - injection Hj as ->. rewrite Nat.add_0_r in Hr.
    apply classify_all_loop_keeps_excluded. unfold classify_all_step.
    destruct batch as [|img0 batch']; [by apply elem_of_nil in Hi|].
    unfold classify_batch. rewrite Hr. cbn [snd].
    apply elem_of_app. right. apply list_elem_of_fmap. by exists img.
  - apply (IH (S i) j); [done| |done].
    by replace (S i + j)%nat with (i + S j)%nat by lia.
Qed.

End FailedBatch.



(** *** Matching a classification by its id *)

Lemma id_map_skips (images : list FilteredImage) (key : string)
    (m : dict FilteredImage) :
  Forall (fun x => image_id_of x <> key) images ->
  dict_get key
    (fold_left (fun m img => dict_set (image_id_of img) img m) images m)
  = dict_get key m.
Proof.
  revert m. induction images as [|x images IH]; intros m Hne; [done|].
  apply Forall_cons in Hne as [Hx Hrest]. cbn [fold_left].
  rewrite IH by done. rewrite dict_get_set.
  destruct (String.eqb key (image_id_of x)) eqn:Heq; [|done].
  by apply String.eqb_eq in Heq.
Qed.

(** X27. The id map of [classify_batch] keeps, for each id, the last image
    of the batch that has it: a classification that names the id of an
    image is attached to that image when no later image of the batch has
    the same id.  So every image is found by its own id when the ids of the
    batch are pairwise distinct, and of several images with one index only
    the last can get a record by that id. *)
Theorem last_image_with_id_matched (before after : list FilteredImage)
    (img : FilteredImage) :
  Forall (fun x => image_id_of x <> image_id_of img) after ->
  match_image (build_id_map (before ++ img :: after)) (image_id_of img)
  = Some img.
Proof.
  intros Hafter. unfold match_image, build_id_map.
  rewrite fold_left_app. cbn [fold_left].
  by rewrite (id_map_skips after _ _ Hafter), dict_get_set, String.eqb_refl.
Qed.

(** Two files with the index 3 and one with the index 12: the id [img_003]
    is matched to the second of the two. *)
Lemma last_image_with_id_matched_witness :
  match_image
    (build_id_map
       ([Examples.dashboard_image]
        ++ Scenarios.dashboard_retina :: [Scenarios.team_photo]))
    (image_id_of Scenarios.dashboard_retina)
  = Some Scenarios.dashboard_retina.
Proof.
  apply (last_image_with_id_matched [Examples.dashboard_image]
           [Scenarios.team_photo] Scenarios.dashboard_retina).
  apply Forall_cons. split; [by vm_compute|apply Forall_nil_2].
Defined.

End ImageClassifierMore.
